(** * Verification of the protocol translator of antigravity-claude-proxy

    Shallow embedding of the JavaScript sources under [src/]:
    - [src/src/utils/tool-converter.js]      sanitizeToolName
    - [src/src/utils/tool-name-cache.js]     the tool-name mapping cache
    - [src/unnamed/part_002] (constants.js)  mapModelName
    - [src/src/format/openai/*]              request and response converters
    - [src/src/routes/openai.js]             accumulateSSEResponse
    - [src/src/format/gemini/*]              Gemini request and response converters

    A JavaScript string is modelled as a Rocq [string]; one [ascii] stands
    for one UTF-16 code unit (all the character classes tested by the code
    are ASCII, so every code unit above 127 behaves like any other
    non-ASCII one).  Integers are [Z] or [nat].  SHA-256 is written out
    over bytes, and strings are hashed through their UTF-8 encoding.
    Module-level [Map]s are association lists threaded as explicit state.
    [JSON.parse] is a parameter of the SSE readers.  Random ids and the
    clock are arguments. *)

From Stdlib Require Import String Ascii List ZArith QArith Bool Lia DecimalString Sorted.
Close Scope Q_scope.
Import ListNotations.
Open Scope string_scope.

(* ================================================================== *)
(** ** JavaScript values and string helpers *)

(** The JavaScript values a function can receive as an argument. *)
Inductive jsval : Type :=
| JSUndefined
| JSNull
| JSBool (b : bool)
| JSNumber (z : Z)
| JSString (s : string)
| JSObject.

(** [s.startsWith(p)] *)
Fixpoint starts_with (p s : string) : bool :=
  match p, s with
  | EmptyString, _ => true
  | String c p', String d s' => Ascii.eqb c d && starts_with p' s'
  | String _ _, EmptyString => false
  end.

(** [s.includes(p)] *)
Fixpoint includes (p s : string) : bool :=
  starts_with p s ||
  match s with
  | EmptyString => false
  | String _ s' => includes p s'
  end.

(** ASCII part of [String.prototype.toLowerCase]. *)
Definition lower_char (c : ascii) : ascii :=
  let n := nat_of_ascii c in
  if (65 <=? n)%nat && (n <=? 90)%nat then ascii_of_nat (n + 32) else c.

Fixpoint to_lower (s : string) : string :=
  match s with
  | EmptyString => EmptyString
  | String c s' => String (lower_char c) (to_lower s')
  end.

(** [\d] of a regular expression without the [u] flag. *)
Definition is_digit (c : ascii) : bool :=
  let n := nat_of_ascii c in (48 <=? n)%nat && (n <=? 57)%nat.

Fixpoint all_digits (s : string) : bool :=
  match s with
  | EmptyString => true
  | String c s' => is_digit c && all_digits s'
  end.

(* ================================================================== *)
(** ** sanitizeToolName  (src/src/utils/tool-converter.js, lines 16-23) *)

(** The character class [[a-zA-Z0-9_-]]. *)
Definition is_tool_char (c : ascii) : bool :=
  let n := nat_of_ascii c in
  ((97 <=? n)%nat && (n <=? 122)%nat) || ((65 <=? n)%nat && (n <=? 90)%nat)
  || is_digit c || Ascii.eqb c "_"%char || Ascii.eqb c "-"%char.

(** [name.replace(/[^a-zA-Z0-9_-]/g, '_')] *)
Fixpoint replace_non_tool_chars (s : string) : string :=
  match s with
  | EmptyString => EmptyString
  | String c s' =>
      String (if is_tool_char c then c else "_"%char) (replace_non_tool_chars s')
  end.

Fixpoint all_underscores (s : string) : bool :=
  match s with
  | EmptyString => true
  | String c s' => Ascii.eqb c "_"%char && all_underscores s'
  end.

(** Drops a maximal run of leading underscores (the greedy [_+]). *)
Fixpoint drop_underscores (s : string) : string :=
  match s with
  | String c s' => if Ascii.eqb c "_"%char then drop_underscores s' else s
  | EmptyString => EmptyString
  end.

(** [cleaned.replace(/^_+|_+$/g, '')]: the global replace scans the
    positions from left to right.  At position 0 the alternative [^_+]
    consumes the maximal run of leading underscores; the scan then goes on
    after it.  At every later position the alternative [_+$] matches when
    the rest of the string is a non-empty run of underscores, and removes
    it; elsewhere the character is kept and the scan moves on. *)
Fixpoint strip_trailing_scan (s : string) : string :=
  match s with
  | EmptyString => EmptyString
  | String c s' =>
      if all_underscores s then EmptyString
      else String c (strip_trailing_scan s')
  end.

Definition strip_underscores_regex (s : string) : string :=
  strip_trailing_scan (drop_underscores s).

Definition sanitizeToolName (name : jsval) : string :=
  match name with
  | JSString s =>
      if String.eqb s "" then "tool"                         (* !name *)
      else
        let cleaned := replace_non_tool_chars s in
        let cleaned := strip_underscores_regex cleaned in
        let cleaned := if String.eqb cleaned "" then "tool" else cleaned in
        if (128 <? String.length cleaned)%nat
        then substring 0 128 cleaned else cleaned
  | _ => "tool"                                              (* typeof name !== 'string' *)
  end.

(** The reference definition of the specification, step by step:
    replace, trim leading and trailing '_', empty becomes "tool", cut
    at 128 characters. *)
Definition trim_leading_underscores (s : string) : string := drop_underscores s.

Definition trim_trailing_underscores (s : string) : string :=
  string_of_list_ascii
    (rev (list_ascii_of_string (drop_underscores
            (string_of_list_ascii (rev (list_ascii_of_string s)))))).

Definition sanitize_tool_name_spec (s : string) : string :=
  let r := replace_non_tool_chars s in
  let r := trim_trailing_underscores (trim_leading_underscores r) in
  let r := if String.eqb r "" then "tool" else r in
  if (128 <? String.length r)%nat then substring 0 128 r else r.

(* ================================================================== *)
(** ** mapFinishReason  (src/src/format/openai/response-converter.js, lines 14-28)

    The argument is [candidate.finishReason]; [None] stands for
    [undefined] or any non-string value, which the [switch] sends to the
    default branch. *)

Definition mapFinishReason (googleReason : option string) : string :=
  match googleReason with
  | Some "STOP" => "stop"
  | Some "MAX_TOKENS" => "length"
  | Some "TOOL_USE" | Some "FUNCTION_CALL" => "tool_calls"
  | Some "SAFETY" => "content_filter"
  | _ => "stop"
  end.

(* ================================================================== *)
(** ** mapModelName  (src/unnamed/part_002 = constants.js, lines 99-137) *)

(** [MODEL_REDIRECTS] *)
Definition MODEL_REDIRECTS : list (string * string) :=
  [("haiku", "gemini-2.5-flash-lite")].

(** [/-\d{8}$/] tried at the start of [s]. *)
Definition date_suffix_here (s : string) : bool :=
  match s with
  | String c r => Ascii.eqb c "-"%char && (String.length r =? 8)%nat && all_digits r
  | EmptyString => false
  end.

(** First position where [/-\d{8}$/] matches. *)
Fixpoint date_suffix_index (s : string) (pos : nat) : option nat :=
  if date_suffix_here s then Some pos
  else match s with
       | EmptyString => None
       | String _ s' => date_suffix_index s' (S pos)
       end.

(** [for (const [pattern, replacement] of Object.entries(MODEL_REDIRECTS))] *)
Fixpoint find_redirect (lower : string) (rs : list (string * string)) : option string :=
  match rs with
  | [] => None
  | (pattern, replacement) :: rs' =>
      if includes pattern lower then Some replacement else find_redirect lower rs'
  end.

Definition mapModelName (modelName : string) : string :=
  if String.eqb modelName "" then modelName
  else
    let lower := to_lower modelName in
    match find_redirect lower MODEL_REDIRECTS with
    | Some replacement => replacement
    | None =>
        match date_suffix_index modelName 0 with
        | Some p =>
            (* modelName.replace(MODEL_DATE_SUFFIX_REGEX, '') *)
            substring 0 p modelName
            ++ substring (p + 9) (String.length modelName - (p + 9)) modelName
        | None => modelName
        end
    end.

(* ================================================================== *)
(** ** The tool-name cache  (src/src/utils/tool-name-cache.js)

    [toolNameMap] is a JavaScript [Map]: an association list kept in
    insertion order.  [Map.prototype.set] on a present key updates the value
    in place and keeps its position; on a new key it appends.  Times are
    milliseconds ([Date.now()]) given as arguments. *)

Record tool_entry : Type := mk_tool_entry { originalName : string; ts : Z }.

Definition tool_map : Type := list (string * tool_entry).

Definition MAX_ENTRIES : nat := 512.
Definition ENTRY_TTL_MS : Z := 30 * 60 * 1000.

Fixpoint map_get (k : string) (m : tool_map) : option tool_entry :=
  match m with
  | [] => None
  | (k', v) :: m' => if String.eqb k k' then Some v else map_get k m'
  end.

Fixpoint map_set (k : string) (v : tool_entry) (m : tool_map) : tool_map :=
  match m with
  | [] => [(k, v)]
  | (k', v') :: m' => if String.eqb k k' then (k', v) :: m' else (k', v') :: map_set k v m'
  end.

Definition map_delete (k : string) (m : tool_map) : tool_map :=
  filter (fun kv => negb (String.eqb k (fst kv))) m.

(** [makeKey]: [`${sessionId || ''}::${model || ''}::${safeName || ''}`];
    on strings [x || ''] is [x]. *)
Definition makeKey (sessionId model safeName : string) : string :=
  sessionId ++ "::" ++ model ++ "::" ++ safeName.

(** The loop of [pruneSize]: walk the keys in insertion order, delete each,
    stop once [removeCount] keys are gone. *)
Fixpoint prune_keys (ks : list string) (m : tool_map) (removed removeCount : nat) : tool_map :=
  match ks with
  | [] => m
  | k :: ks' =>
      let m' := map_delete k m in
      let removed' := S removed in
      if (removeCount <=? removed')%nat then m' else prune_keys ks' m' removed' removeCount
  end.

Definition pruneSize (targetSize : nat) (m : tool_map) : tool_map :=
  if (List.length m <=? targetSize)%nat then m
  else prune_keys (map fst m) m 0 (List.length m - targetSize).

(** [setToolNameMapping]; [startCleanup] only arms a timer. *)
Definition setToolNameMapping (sessionId model safeName originalName : string)
    (now : Z) (m : tool_map) : tool_map :=
  if String.eqb safeName "" || String.eqb originalName "" || String.eqb safeName originalName
  then m
  else
    let key := makeKey sessionId model safeName in
    pruneSize MAX_ENTRIES (map_set key (mk_tool_entry originalName now) m).

(** [getOriginalToolName]: the result ([None] for [null]) and the map,
    from which an expired entry is deleted. *)
Definition getOriginalToolName (sessionId model safeName : string)
    (now : Z) (m : tool_map) : option string * tool_map :=
  if String.eqb safeName "" then (None, m)
  else
    let key := makeKey sessionId model safeName in
    match map_get key m with
    | None => (None, m)
    | Some entry =>
        if (now - ts entry >? ENTRY_TTL_MS)%Z then (None, map_delete key m)
        else ((if String.eqb (originalName entry) "" then None
               else Some (originalName entry)), m)
    end.

(** No ':' in a string (session ids are hex digests or UUIDs). *)
Definition no_colon (s : string) : bool :=
  forallb (fun c => negb (Ascii.eqb c ":"%char)) (list_ascii_of_string s).

(** A cache at its bound: 512 entries of session "s2", model "m", with
    safe names "t0" .. "t511", all inserted at time 0. *)
Definition full_tool_map : tool_map :=
  map (fun i => (makeKey "s2" "m" ("t" ++ NilEmpty.string_of_uint (Nat.to_uint i)),
                 mk_tool_entry "orig" 0))
      (seq 0 MAX_ENTRIES).

(* ================================================================== *)
(** ** SHA-256  ([crypto.createHash('sha256')], FIPS 180-4)

    Messages are lists of bytes (as [Z] in [0, 255]); words are 32-bit
    integers as [Z] with the wrap-around written out. *)

Module Sha256.

Definition mask32 : Z := 2 ^ 32 - 1.
Definition w32 (x : Z) : Z := Z.land x mask32.
Definition add32 (x y : Z) : Z := w32 (x + y).
Definition rotr (x : Z) (n : Z) : Z := Z.lor (Z.shiftr x n) (w32 (Z.shiftl x (32 - n))).
Definition shr (x : Z) (n : Z) : Z := Z.shiftr x n.

Definition bsig0 (x : Z) : Z := Z.lxor (Z.lxor (rotr x 2) (rotr x 13)) (rotr x 22).
Definition bsig1 (x : Z) : Z := Z.lxor (Z.lxor (rotr x 6) (rotr x 11)) (rotr x 25).
Definition ssig0 (x : Z) : Z := Z.lxor (Z.lxor (rotr x 7) (rotr x 18)) (shr x 3).
Definition ssig1 (x : Z) : Z := Z.lxor (Z.lxor (rotr x 17) (rotr x 19)) (shr x 10).
Definition ch (x y z : Z) : Z := Z.lxor (Z.land x y) (Z.land (Z.lxor x mask32) z).
Definition maj (x y z : Z) : Z :=
  Z.lxor (Z.lxor (Z.land x y) (Z.land x z)) (Z.land y z).

(** The constants of FIPS 180-4, 4.2.2 and 5.3.3: the first 32 bits of the
    fractional parts of the cube roots of the first 64 primes ([K]) and of
    the square roots of the first 8 primes ([H0]). *)
Definition is_prime (n : Z) : bool :=
  forallb (fun d => negb (Z.eqb (n mod Z.of_nat d)%Z 0)) (seq 2 (Z.to_nat n - 2)).

Definition first_primes (k : nat) : list Z :=
  firstn k (filter is_prime (map Z.of_nat (seq 2 400))).

(** Largest [x] in [[lo, lo + 2^fuel)] with [x^3 <= n], by bisection. *)
Fixpoint icbrt_from (fuel : nat) (lo n : Z) : Z :=
  match fuel with
  | O => lo
  | S f =>
      let mid := (lo + 2 ^ Z.of_nat f)%Z in
      if (mid * mid * mid <=? n)%Z then icbrt_from f mid n else icbrt_from f lo n
  end.

Definition frac_cbrt (p : Z) : Z := Z.land (icbrt_from 40 0 (p * 2 ^ 96)%Z) mask32.

Definition frac_sqrt (p : Z) : Z := Z.land (Z.sqrt (p * 2 ^ 64)%Z) mask32.

Definition K : list Z := Eval vm_compute in map frac_cbrt (first_primes 64).

Definition H0 : list Z := Eval vm_compute in map frac_sqrt (first_primes 8).

(** Big-endian encoding of the bit length on 8 bytes. *)
Definition be64 (n : Z) : list Z :=
  map (fun i => Z.land (Z.shiftr n (8 * (7 - Z.of_nat i))) 255) (seq 0 8).

Definition pad (msg : list Z) : list Z :=
  let L := Z.of_nat (List.length msg) in
  let k := Z.to_nat ((119 - L mod 64) mod 64) in
  (msg ++ [0x80] ++ repeat 0 k ++ be64 (8 * L))%list%Z.

Fixpoint to_blocks (fuel : nat) (l : list Z) : list (list Z) :=
  match fuel with
  | O => []
  | S f => match l with [] => [] | _ => firstn 64 l :: to_blocks f (skipn 64 l) end
  end.

Fixpoint be_words (l : list Z) : list Z :=
  match l with
  | b0 :: b1 :: b2 :: b3 :: l' =>
      (b0 * 2^24 + b1 * 2^16 + b2 * 2^8 + b3)%Z :: be_words l'
  | _ => []
  end.

(** Message schedule: [W_t = ssig1 W_(t-2) + W_(t-7) + ssig0 W_(t-15) + W_(t-16)]. *)
Fixpoint schedule (n : nat) (w : list Z) : list Z :=
  match n with
  | O => w
  | S n' =>
      let t := List.length w in
      let wt := add32 (add32 (ssig1 (nth (t - 2) w 0%Z)) (nth (t - 7) w 0%Z))
                      (add32 (ssig0 (nth (t - 15) w 0%Z)) (nth (t - 16) w 0%Z)) in
      schedule n' (w ++ [wt])%list
  end.

Definition round (st : list Z) (kw : Z * Z) : list Z :=
  match st with
  | [a; b; c; d; e; f; g; h] =>
      let t1 := add32 (add32 (add32 h (bsig1 e)) (add32 (ch e f g) (fst kw))) (snd kw) in
      let t2 := add32 (bsig0 a) (maj a b c) in
      [add32 t1 t2; a; b; c; add32 d t1; e; f; g]
  | _ => st
  end.

Definition compress (hs : list Z) (block : list Z) : list Z :=
  let w := schedule 48 (be_words block) in
  let st := fold_left round (combine K w) hs in
  map (fun p => add32 (fst p) (snd p)) (combine hs st).

Definition hex_digit (n : Z) : ascii :=
  if (n <? 10)%Z then ascii_of_nat (48 + Z.to_nat n) else ascii_of_nat (87 + Z.to_nat n).

Definition word_hex (w : Z) : string :=
  fold_right (fun i acc => String (hex_digit (Z.land (Z.shiftr w (4 * (7 - Z.of_nat i))) 15)) acc)
             EmptyString (seq 0 8).

Definition digest (msg : list Z) : list Z :=
  let p := pad msg in fold_left compress (to_blocks (List.length p) p) H0.

(** [.digest('hex')] *)
Definition digest_hex (msg : list Z) : string :=
  fold_right (fun w acc => word_hex w ++ acc) EmptyString (digest msg).

End Sha256.

(** [hash.update(string)] encodes the string in UTF-8; a code unit below
    256 takes one byte below 128 and two bytes above. *)
Definition utf8_encode (s : string) : list Z :=
  flat_map (fun c =>
              let n := Z.of_nat (nat_of_ascii c) in
              if (n <? 128)%Z then [n]
              else [Z.lor 0xC0 (Z.shiftr n 6); Z.lor 0x80 (Z.land n 63)])%Z
           (list_ascii_of_string s).

(** [crypto.createHash('sha256').update(content).digest('hex').substring(0, 32)] *)
Definition session_hash (content : string) : string :=
  substring 0 32 (Sha256.digest_hex (utf8_encode content)).

(* ================================================================== *)
(** ** deriveSessionId, OpenAI  (src/src/format/openai/request-converter.js, lines 292-311)

    [crypto.randomUUID()] is the argument [uuid]. *)

Record content_block : Type := mk_block { block_type : string; block_text : option string }.

Inductive message_content : Type :=
| ContentString (s : string)
| ContentArray (blocks : list content_block)
| ContentOther.

Record openai_message : Type := mk_message { msg_role : string; msg_content : message_content }.

(** [arr.join(sep)] *)
Fixpoint join (sep : string) (l : list string) : string :=
  match l with
  | [] => EmptyString
  | [x] => x
  | x :: l' => x ++ sep ++ join sep l'
  end.

(** [block.type === 'text' && block.text] *)
Definition is_text_block (b : content_block) : bool :=
  String.eqb (block_type b) "text" &&
  match block_text b with Some t => negb (String.eqb t "") | None => false end.

(** The [content] computed for a user message. *)
Definition user_content_text (c : message_content) : string :=
  match c with
  | ContentString s => s
  | ContentArray blocks =>
      join (String "010"%char EmptyString)
           (map (fun b => match block_text b with Some t => t | None => EmptyString end)
                (filter is_text_block blocks))
  | ContentOther => EmptyString
  end.

Fixpoint deriveSessionId_openai (messages : list openai_message) (uuid : string) : string :=
  match messages with
  | [] => uuid
  | msg :: rest =>
      if String.eqb (msg_role msg) "user" then
        let content := user_content_text (msg_content msg) in
        if negb (String.eqb content "") then session_hash content
        else deriveSessionId_openai rest uuid
      else deriveSessionId_openai rest uuid
  end.

(* ================================================================== *)
(** ** deriveSessionId, Gemini  (src/src/format/gemini/index.js, lines 155-167) *)

Record gemini_part : Type := mk_gpart { gpart_text : option string }.

Record gemini_content : Type :=
  mk_gcontent { gc_role : string; gc_parts : option (list gemini_part) }.

Fixpoint first_text_part (parts : list gemini_part) : option string :=
  match parts with
  | [] => None
  | p :: ps =>
      match gpart_text p with
      | Some t => if String.eqb t "" then first_text_part ps else Some t
      | None => first_text_part ps
      end
  end.

Fixpoint deriveSessionId_gemini (contents : list gemini_content) (uuid : string) : string :=
  match contents with
  | [] => uuid
  | c :: rest =>
      match gc_parts c with
      | Some parts =>
          if String.eqb (gc_role c) "user" then
            match first_text_part parts with
            | Some t => session_hash t
            | None => deriveSessionId_gemini rest uuid
            end
          else deriveSessionId_gemini rest uuid
      | None => deriveSessionId_gemini rest uuid
      end
  end.

(** Predicates of the session-id statements: does a message or a content
    carry the user text that [deriveSessionId] hashes? *)
Definition has_user_text_openai (m : openai_message) : bool :=
  String.eqb (msg_role m) "user" && negb (String.eqb (user_content_text (msg_content m)) "").

Definition has_user_text_gemini (c : gemini_content) : bool :=
  match gc_parts c with
  | Some parts =>
      String.eqb (gc_role c) "user" &&
      match first_text_part parts with Some _ => true | None => false end
  | None => false
  end.

Definition hex_alphabet : list ascii := list_ascii_of_string "0123456789abcdef".

(** All strings of length [n] over the alphabet [alph]. *)
Fixpoint all_strings (alph : list ascii) (n : nat) : list string :=
  match n with
  | O => [EmptyString]
  | S n' => flat_map (fun c => map (String c) (all_strings alph n')) alph
  end.

(* ================================================================== *)
(** ** Upstream (Google) responses, as [JSON.parse] returns them

    Only the fields the converters read.  [part_thought] is the test
    [part.thought === true]; a missing field is [None].  [fc_args_json] is
    [JSON.stringify(funcCall.args || {})].  [cand_parts] is
    [candidate.content?.parts]: [None] when the content or its parts are
    missing.  Token counts are numbers. *)

Record function_call : Type :=
  mk_fcall { fc_id : option string; fc_name : string; fc_args_json : string }.

Record google_part : Type := mk_part {
  part_thought : bool;
  part_text : option string;
  part_thoughtSignature : option string;
  part_functionCall : option function_call }.

Record candidate : Type :=
  mk_candidate { cand_parts : option (list google_part); cand_finishReason : option string }.

Record usage_metadata : Type := mk_usage {
  promptTokenCount : option Z;
  candidatesTokenCount : option Z;
  cachedContentTokenCount : option Z }.

Record google_response : Type :=
  mk_gresponse { candidates : option (list candidate); usageMetadata : option usage_metadata }.

(** A parsed SSE payload: an object that may wrap the response in a
    [response] field. *)
Record sse_payload : Type :=
  mk_payload { payload_response : option google_response; payload_self : google_response }.

(** [data.response || data] *)
Definition inner_response (d : sse_payload) : google_response :=
  match payload_response d with Some r => r | None => payload_self d end.

(** [s || ''] and the truthiness of an optional string. *)
Definition or_empty (o : option string) : string :=
  match o with Some s => s | None => EmptyString end.

Definition truthy_str (o : option string) : bool :=
  match o with Some s => negb (String.eqb s "") | None => false end.

(** [response.candidates?.[0] || {}] *)
Definition first_candidate (r : google_response) : candidate :=
  match candidates r with Some (c :: _) => c | _ => mk_candidate None None end.

(** [candidate.content?.parts || []] *)
Definition candidate_parts (c : candidate) : list google_part :=
  match cand_parts c with Some ps => ps | None => [] end.

(** [n || 0] on a token count. *)
Definition count_or_zero (o : option Z) : Z :=
  match o with Some z => z | None => 0%Z end.

(* ================================================================== *)
(** ** The signature cache  (src/src/format/signature-cache.js)

    [signatureCache] is a [Map] from tool-use ids to entries, as an
    association list in insertion order. *)

Record sig_entry : Type := mk_sig_entry { signature : string; timestamp : Z }.

Definition sig_map : Type := list (string * sig_entry).

Fixpoint sig_get (k : string) (m : sig_map) : option sig_entry :=
  match m with
  | [] => None
  | (k', v) :: m' => if String.eqb k k' then Some v else sig_get k m'
  end.

Fixpoint sig_set (k : string) (v : sig_entry) (m : sig_map) : sig_map :=
  match m with
  | [] => [(k, v)]
  | (k', v') :: m' => if String.eqb k k' then (k', v) :: m' else (k', v') :: sig_set k v m'
  end.

(** [cacheSignature(toolUseId, signature)]; [startPeriodicCleanup] only
    arms a timer. *)
Definition cacheSignature (toolUseId sig : string) (now : Z) (m : sig_map) : sig_map :=
  if String.eqb toolUseId "" || String.eqb sig "" then m
  else sig_set toolUseId (mk_sig_entry sig now) m.

(** [MIN_SIGNATURE_LENGTH] (src/unnamed/part_002, line 89) *)
Definition MIN_SIGNATURE_LENGTH : nat := 50.

(** The two module-level stores the response converters update. *)
Record proxy_state : Type := mk_state { tool_names : tool_map; signatures : sig_map }.

(* ================================================================== *)
(** ** convertGoogleToOpenAI  (src/src/format/openai/response-converter.js, lines 38-132)

    The response's random [id] and its [created] time are left out; the
    clock [now] is one value for the whole call. *)

(** [`call_${sha256(`${name}:${args}`).slice(0, 24)}`] *)
Definition generated_tool_id (fc : function_call) : string :=
  "call_" ++ substring 0 24
    (Sha256.digest_hex (utf8_encode (fc_name fc ++ ":" ++ fc_args_json fc))).

(** [let toolId = funcCall.id; if (!toolId) toolId = ...] *)
Definition tool_call_id (fc : function_call) : string :=
  if truthy_str (fc_id fc) then or_empty (fc_id fc) else generated_tool_id fc.

(** [getOriginalToolName(sessionId, originalModel, funcCall.name) || funcCall.name] *)
Definition restore_name (sessionId model name : string) (now : Z) (m : tool_map)
    : string * tool_map :=
  match getOriginalToolName sessionId model name now m with
  | (Some n, m') => (if String.eqb n "" then name else n, m')
  | (None, m') => (name, m')
  end.

(** [if (signature && signature.length >= MIN_SIGNATURE_LENGTH)
       cacheSignature(toolId, signature)] *)
Definition cache_if_long (toolId : string) (sig : option string) (now : Z) (m : sig_map)
    : sig_map :=
  match sig with
  | Some s =>
      if negb (String.eqb s "") && (MIN_SIGNATURE_LENGTH <=? String.length s)%nat
      then cacheSignature toolId s now m
      else m
  | None => m
  end.

(** An OpenAI tool call; [tc_index] is set by the streaming converter only. *)
Record openai_tool_call : Type := mk_tool_call {
  tc_index : option nat;
  tc_id : string;
  tc_name : string;
  tc_arguments : string;
  tc_thoughtSignature : option string }.

Record openai_message_out : Type := mk_message_out {
  out_content : option string;
  out_reasoning_content : option string;
  out_tool_calls : option (list openai_tool_call) }.

Record openai_usage : Type := mk_openai_usage {
  prompt_tokens : Z;
  completion_tokens : Z;
  total_tokens : Z;
  cached_tokens : option Z }.

Record openai_response : Type := mk_openai_response {
  resp_model : string;
  resp_message : openai_message_out;
  resp_finish_reason : string;
  resp_usage : openai_usage }.

Record convert_acc : Type := mk_convert_acc {
  messageContent : string;
  reasoningContent : string;
  toolCalls : list openai_tool_call }.

(** The body of [for (const part of parts)]. *)
Definition convert_part (sessionId originalModel : string) (now : Z)
    (s : convert_acc * proxy_state) (part : google_part) : convert_acc * proxy_state :=
  let (acc, st) := s in
  if part_thought part then
    (mk_convert_acc (messageContent acc)
       (reasoningContent acc ++ or_empty (part_text part)) (toolCalls acc), st)
  else
    match part_functionCall part with
    | Some fc =>
        let toolId := tool_call_id fc in
        let (originalName, tm) :=
          restore_name sessionId originalModel (fc_name fc) now (tool_names st) in
        let sig := part_thoughtSignature part in
        let sigs := cache_if_long toolId sig now (signatures st) in
        let call := mk_tool_call None toolId originalName (fc_args_json fc)
                      (if truthy_str sig then sig else None) in
        (mk_convert_acc (messageContent acc) (reasoningContent acc) (toolCalls acc ++ [call]),
         mk_state tm sigs)
    | None =>
        match part_text part with
        | Some t => (mk_convert_acc (messageContent acc ++ t) (reasoningContent acc) (toolCalls acc), st)
        | None => (acc, st)
        end
    end.

Definition convertGoogleToOpenAI (googleResponse : google_response)
    (originalModel sessionId : string) (now : Z) (st : proxy_state)
    : openai_response * proxy_state :=
  let cand := first_candidate googleResponse in
  let parts := candidate_parts cand in
  let usage := match usageMetadata googleResponse with
               | Some u => u | None => mk_usage None None None end in
  let (acc, st') := fold_left (convert_part sessionId originalModel now) parts
                      (mk_convert_acc "" "" [], st) in
  let finishReason := mapFinishReason (cand_finishReason cand) in
  let message :=
    mk_message_out
      (if String.eqb (messageContent acc) "" then None else Some (messageContent acc))
      (if String.eqb (reasoningContent acc) "" then None else Some (reasoningContent acc))
      (match toolCalls acc with [] => None | l => Some l end) in
  let p := count_or_zero (promptTokenCount usage) in
  let c := count_or_zero (candidatesTokenCount usage) in
  let cached := match cachedContentTokenCount usage with
                | Some z => if Z.eqb z 0 then None else Some z
                | None => None end in
  (mk_openai_response originalModel message finishReason (mk_openai_usage p c (p + c) cached), st').

(* ================================================================== *)
(** ** processParts  (src/src/format/gemini/response-converter.js, lines 17-38)

    [parts.map] whose callback renames the function call in place and
    caches its signature. *)

Definition process_part (sessionId modelName : string) (now : Z)
    (st : proxy_state) (part : google_part) : google_part * proxy_state :=
  match part_functionCall part with
  | Some fc =>
      let (originalName, tm) := getOriginalToolName sessionId modelName (fc_name fc) now (tool_names st) in
      let fc' := match originalName with
                 | Some n => if String.eqb n "" then fc else mk_fcall (fc_id fc) n (fc_args_json fc)
                 | None => fc
                 end in
      let sig := part_thoughtSignature part in
      let sigs :=
        match sig with
        | Some s =>
            if negb (String.eqb s "") && (MIN_SIGNATURE_LENGTH <=? String.length s)%nat
               && truthy_str (fc_id fc)
            then cacheSignature (or_empty (fc_id fc)) s now (signatures st)
            else signatures st
        | None => signatures st
        end in
      (mk_part (part_thought part) (part_text part) sig (Some fc'), mk_state tm sigs)
  | None => (part, st)
  end.

Fixpoint processParts (sessionId modelName : string) (now : Z)
    (parts : list google_part) (st : proxy_state) : list google_part * proxy_state :=
  match parts with
  | [] => ([], st)
  | p :: ps =>
      let (p', st1) := process_part sessionId modelName now st p in
      let (ps', st2) := processParts sessionId modelName now ps st1 in
      (p' :: ps', st2)
  end.

(* ================================================================== *)
(** ** Reading an SSE body  (the loop shared by accumulateSSEResponse and
    the streaming converters)

    The body arrives as decoded chunks.  [buffer.split('\n')] is
    [split_nl]; the last piece stays in the buffer, the others are handed to
    the line handler.  What is left in the buffer at the end is dropped. *)

(** [s.split('\n')] *)
Fixpoint split_nl (s : string) : list string :=
  match s with
  | EmptyString => [EmptyString]
  | String c s' =>
      let rest := split_nl s' in
      if Ascii.eqb c "010"%char then EmptyString :: rest
      else match rest with
           | [] => [String c EmptyString]
           | h :: t => String c h :: t
           end
  end.

(** Whitespace removed by [String.prototype.trim] among the code units
    below 256. *)
Definition is_js_space (c : ascii) : bool :=
  existsb (Nat.eqb (nat_of_ascii c)) [9; 10; 11; 12; 13; 32; 160]%nat.

Fixpoint trim_start (s : string) : string :=
  match s with
  | String c s' => if is_js_space c then trim_start s' else s
  | EmptyString => EmptyString
  end.

Definition trim (s : string) : string :=
  string_of_list_ascii
    (rev (list_ascii_of_string (trim_start (string_of_list_ascii
       (rev (list_ascii_of_string (trim_start s))))))).

(** [s.slice(n)] *)
Definition slice_from (n : nat) (s : string) : string :=
  substring n (String.length s - n) s.

(** [if (!line.startsWith('data:')) continue; const jsonText =
    line.slice(5).trim(); if (!jsonText) continue;] *)
Definition sse_data (line : string) : option string :=
  if starts_with "data:" line then
    let jsonText := trim (slice_from 5 line) in
    if String.eqb jsonText "" then None else Some jsonText
  else None.

Section SSE_reader.

Variable S : Type.
Variable on_line : S -> string -> S.

Fixpoint read_lines (chunks : list string) (buffer : string) (st : S) : S :=
  match chunks with
  | [] => st
  | chunk :: rest =>
      let lines := split_nl (buffer ++ chunk) in
      read_lines rest (last lines EmptyString) (fold_left on_line (removelast lines) st)
  end.

End SSE_reader.

Arguments read_lines {S} on_line chunks buffer st.

(** The lines the loop hands to its handler. *)
Fixpoint sse_lines (chunks : list string) (buffer : string) : list string :=
  match chunks with
  | [] => []
  | chunk :: rest =>
      let lines := split_nl (buffer ++ chunk) in
      removelast lines ++ sse_lines rest (last lines EmptyString)
  end.

(** The text of the body: its chunks concatenated. *)
Fixpoint body_text (chunks : list string) : string :=
  match chunks with
  | [] => EmptyString
  | c :: cs => c ++ body_text cs
  end.

Fixpoint has_newline (s : string) : bool :=
  match s with
  | EmptyString => false
  | String c s' => Ascii.eqb c "010"%char || has_newline s'
  end.

(** The parts of a response's first candidate, and whether the finish
    reason it carries is absent, empty or [STOP]. *)
Definition response_parts (r : google_response) : list google_part :=
  candidate_parts (first_candidate r).

Definition finish_is_stop (r : google_response) : bool :=
  match cand_finishReason (first_candidate r) with
  | None => true
  | Some f => String.eqb f "" || String.eqb f "STOP"
  end.

(** [JSON.parse] is a parameter of the converters: [None] when it throws,
    a payload otherwise (a payload that is not an object reads as one
    with no fields). *)
Section Converters.

Variable JSON_parse : string -> option sse_payload.

(** The responses carried by the [data:] lines that parse. *)
Definition line_response (line : string) : option google_response :=
  match sse_data line with
  | Some jsonText =>
      match JSON_parse jsonText with Some d => Some (inner_response d) | None => None end
  | None => None
  end.

Fixpoint sse_responses (lines : list string) : list google_response :=
  match lines with
  | [] => []
  | l :: ls =>
      match line_response l with
      | Some r => r :: sse_responses ls
      | None => sse_responses ls
      end
  end.

(* ------------------------------------------------------------------ *)
(** *** accumulateSSEResponse  (src/src/routes/openai.js, lines 187-276)

    [usageMetadata] starts as [{}], here [None]. *)

Record accum_state : Type := mk_accum {
  finalParts : list google_part;
  acc_usageMetadata : option usage_metadata;
  acc_finishReason : string;
  accumulatedThinkingText : string;
  accumulatedThinkingSignature : string;
  accumulatedText : string }.

Definition accum_init : accum_state := mk_accum [] None "STOP" "" "" "".

Definition flushThinking (a : accum_state) : accum_state :=
  if String.eqb (accumulatedThinkingText a) "" then a
  else mk_accum
         (finalParts a ++ [mk_part true (Some (accumulatedThinkingText a))
                                  (Some (accumulatedThinkingSignature a)) None])
         (acc_usageMetadata a) (acc_finishReason a) "" "" (accumulatedText a).

Definition flushText (a : accum_state) : accum_state :=
  if String.eqb (accumulatedText a) "" then a
  else mk_accum (finalParts a ++ [mk_part false (Some (accumulatedText a)) None None])
         (acc_usageMetadata a) (acc_finishReason a)
         (accumulatedThinkingText a) (accumulatedThinkingSignature a) "".

Definition accumulate_part (a : accum_state) (part : google_part) : accum_state :=
  if part_thought part then
    let a1 := flushText a in
    mk_accum (finalParts a1) (acc_usageMetadata a1) (acc_finishReason a1)
      (accumulatedThinkingText a1 ++ or_empty (part_text part))
      (if truthy_str (part_thoughtSignature part) then or_empty (part_thoughtSignature part)
       else accumulatedThinkingSignature a1)
      (accumulatedText a1)
  else
    match part_functionCall part with
    | Some _ =>
        let a1 := flushText (flushThinking a) in
        mk_accum (finalParts a1 ++ [part]) (acc_usageMetadata a1) (acc_finishReason a1)
          (accumulatedThinkingText a1) (accumulatedThinkingSignature a1) (accumulatedText a1)
    | None =>
        match part_text part with
        | Some t =>
            if String.eqb t "" then a
            else
              let a1 := flushThinking a in
              mk_accum (finalParts a1) (acc_usageMetadata a1) (acc_finishReason a1)
                (accumulatedThinkingText a1) (accumulatedThinkingSignature a1)
                (accumulatedText a1 ++ t)
        | None => a
        end
    end.

(** One parsed response: usage, finish reason, then the parts. *)
Definition accumulate_response (a : accum_state) (r : google_response) : accum_state :=
  let a1 := match usageMetadata r with
            | Some u => mk_accum (finalParts a) (Some u) (acc_finishReason a)
                          (accumulatedThinkingText a) (accumulatedThinkingSignature a)
                          (accumulatedText a)
            | None => a
            end in
  let firstCandidate := first_candidate r in
  let a2 := if truthy_str (cand_finishReason firstCandidate)
            then mk_accum (finalParts a1) (acc_usageMetadata a1)
                   (or_empty (cand_finishReason firstCandidate))
                   (accumulatedThinkingText a1) (accumulatedThinkingSignature a1)
                   (accumulatedText a1)
            else a1 in
  fold_left accumulate_part (candidate_parts firstCandidate) a2.

Definition accumulate_line (a : accum_state) (line : string) : accum_state :=
  match line_response line with
  | Some r => accumulate_response a r
  | None => a
  end.

Definition accumulateSSEResponse (chunks : list string) : google_response :=
  let a := flushText (flushThinking (read_lines accumulate_line chunks "" accum_init)) in
  mk_gresponse (Some [mk_candidate (Some (finalParts a)) (Some (acc_finishReason a))])
               (acc_usageMetadata a).

(* ------------------------------------------------------------------ *)
(** *** streamGoogleToOpenAI  (src/src/format/openai/response-converter.js, lines 173-326)

    The generator is the list of the chunks it yields, in order.  The
    random [completionId] is an argument; [created] is left out.
    [currentBlockType] and [currentThinkingSignature] are written and never
    read, and are left out. *)

Inductive delta : Type :=
| DeltaStart                                (** [{ role: 'assistant', content: '' }] *)
| DeltaReasoning (text : string)            (** [{ reasoning_content: text }] *)
| DeltaContent (text : string)              (** [{ content: text }] *)
| DeltaToolCalls (calls : list openai_tool_call)
| DeltaEmpty.                               (** [{}] *)

Record stream_chunk : Type := mk_chunk {
  chunk_id : string;
  chunk_model : string;
  chunk_delta : delta;
  chunk_finish_reason : option string;
  chunk_usage : option openai_usage }.

(** [createStreamChunk({ id, model, delta, finishReason = null, usage = null })] *)
Definition createStreamChunk (id model : string) (d : delta)
    (finishReason : option string) (usage : option openai_usage) : stream_chunk :=
  mk_chunk id model d finishReason usage.

Record stream_state : Type := mk_stream {
  yielded : list stream_chunk;
  hasEmittedStart : bool;
  finishReason : string;
  inputTokens : Z;
  outputTokens : Z;
  cacheReadTokens : Z;
  pendingToolCalls : list openai_tool_call;
  stream_store : proxy_state }.

Section Stream.

Variables (completionId originalModel sessionId : string) (now : Z).

Definition emit (s : stream_state) (d : delta) : stream_state :=
  mk_stream (yielded s ++ [createStreamChunk completionId originalModel d None None])%list
    (hasEmittedStart s) (finishReason s) (inputTokens s) (outputTokens s)
    (cacheReadTokens s) (pendingToolCalls s) (stream_store s).

(** [n || previous] on a token count. *)
Definition count_or (o : option Z) (previous : Z) : Z :=
  match o with Some z => if Z.eqb z 0 then previous else z | None => previous end.

Definition stream_part (s : stream_state) (part : google_part) : stream_state :=
  if part_thought part then
    let text := or_empty (part_text part) in
    if String.eqb text "" then s else emit s (DeltaReasoning text)
  else if truthy_str (part_text part) then emit s (DeltaContent (or_empty (part_text part)))
  else
    match part_functionCall part with
    | Some fc =>
        let toolId := tool_call_id fc in
        let st := stream_store s in
        let (originalName, tm) :=
          restore_name sessionId originalModel (fc_name fc) now (tool_names st) in
        let sig := part_thoughtSignature part in
        let sigs := cache_if_long toolId sig now (signatures st) in
        let toolCall := mk_tool_call (Some (List.length (pendingToolCalls s))) toolId
                          originalName (fc_args_json fc)
                          (if truthy_str sig then sig else None) in
        mk_stream (yielded s) (hasEmittedStart s) "tool_calls" (inputTokens s)
          (outputTokens s) (cacheReadTokens s) (pendingToolCalls s ++ [toolCall])%list
          (mk_state tm sigs)
    | None => s
    end.

Definition stream_response (s : stream_state) (r : google_response) : stream_state :=
  let s1 := match usageMetadata r with
            | Some u =>
                mk_stream (yielded s) (hasEmittedStart s) (finishReason s)
                  (count_or (promptTokenCount u) (inputTokens s))
                  (count_or (candidatesTokenCount u) (outputTokens s))
                  (count_or (cachedContentTokenCount u) (cacheReadTokens s))
                  (pendingToolCalls s) (stream_store s)
            | None => s
            end in
  let firstCandidate := first_candidate r in
  let parts := candidate_parts firstCandidate in
  let s2 := if negb (hasEmittedStart s1) && negb (Nat.eqb (List.length parts) 0) then
              let s' := emit s1 DeltaStart in
              mk_stream (yielded s') true (finishReason s') (inputTokens s') (outputTokens s')
                (cacheReadTokens s') (pendingToolCalls s') (stream_store s')
            else s1 in
  let s3 := fold_left stream_part parts s2 in
  if truthy_str (cand_finishReason firstCandidate) then
    mk_stream (yielded s3) (hasEmittedStart s3) (mapFinishReason (cand_finishReason firstCandidate))
      (inputTokens s3) (outputTokens s3) (cacheReadTokens s3) (pendingToolCalls s3)
      (stream_store s3)
  else s3.

Definition stream_line (s : stream_state) (line : string) : stream_state :=
  match line_response line with
  | Some r => stream_response s r
  | None => s
  end.

(** The chunks yielded and the stores after the generator has finished. *)
Definition streamGoogleToOpenAI (chunks : list string) (st : proxy_state)
    : list stream_chunk * proxy_state :=
  let s := read_lines stream_line chunks "" (mk_stream [] false "stop" 0 0 0 [] st) in
  let s1 := match pendingToolCalls s with
            | [] => s
            | calls => emit s (DeltaToolCalls calls)
            end in
  let usage := mk_openai_usage (inputTokens s1) (outputTokens s1)
                 (inputTokens s1 + outputTokens s1)
                 (if (0 <? cacheReadTokens s1)%Z then Some (cacheReadTokens s1) else None) in
  ((yielded s1 ++ [createStreamChunk completionId originalModel DeltaEmpty
                     (Some (finishReason s1)) (Some usage)])%list,
   stream_store s1).

End Stream.

End Converters.

(* ================================================================== *)
(** ** convertGeminiToGoogle, tools and toolConfig  (src/src/format/gemini/index.js, lines 221-288)

    The fields of the request that the tool steps read and write.  The
    session id is [deriveSessionId] over the contents, the model name is
    [mapModelName] of the URL's model.  Tool parameters are schemas of a
    type [Schema], cleaned by [clean_parameters] (the [sanitizeSchema],
    [cleanSchemaForGemini] and default steps of [convertSingleTool]). *)

(** [request.toolConfig]: a falsy value, or a truthy one whose
    [functionCallingConfig.mode] is [mode]. *)
Inductive tool_config : Type :=
| NoToolConfig
| ToolConfig (mode : option string).

Section Tools.

Variable Schema : Type.
Variable clean_parameters : string -> option Schema -> Schema.

Record function_decl : Type := mk_fdecl {
  fd_name : string;
  fd_description : string;
  fd_parameters : option Schema }.

(** An element of [request.tools]: with [functionDeclarations], a single
    declaration (converted when its [name] is non-empty), or anything else. *)
Inductive gemini_tool : Type :=
| ToolWithDeclarations (fds : list function_decl)
| ToolSingle (fd : function_decl)
| ToolUnknown.

Record converted_decl : Type := mk_cdecl {
  cd_name : string;
  cd_description : string;
  cd_parameters : Schema }.

Inductive google_tool : Type :=
| GoogleTool (fds : list converted_decl)
| GoogleToolAsIs (t : gemini_tool).

Record gemini_request : Type := mk_gemini_request {
  req_contents : list gemini_content;
  req_tools : option (list gemini_tool);
  req_toolConfig : tool_config }.

Record google_request : Type := mk_google_request {
  greq_sessionId : string;
  greq_tools : option (list google_tool);
  greq_toolConfig : tool_config }.

Definition convertSingleTool (fd : function_decl) (sessionId modelName : string)
    (now : Z) (m : tool_map) : converted_decl * tool_map :=
  let originalName := fd_name fd in
  let safeName := sanitizeToolName (JSString originalName) in
  let m' := if negb (String.eqb sessionId "") && negb (String.eqb modelName "")
               && negb (String.eqb safeName originalName)
            then setToolNameMapping sessionId modelName safeName originalName now m
            else m in
  (mk_cdecl safeName (fd_description fd) (clean_parameters modelName (fd_parameters fd)), m').

Fixpoint convert_decls (fds : list function_decl) (sessionId modelName : string)
    (now : Z) (m : tool_map) : list converted_decl * tool_map :=
  match fds with
  | [] => ([], m)
  | fd :: fds' =>
      let (d, m1) := convertSingleTool fd sessionId modelName now m in
      let (ds, m2) := convert_decls fds' sessionId modelName now m1 in
      (d :: ds, m2)
  end.

Definition convert_tool (t : gemini_tool) (sessionId modelName : string)
    (now : Z) (m : tool_map) : google_tool * tool_map :=
  match t with
  | ToolWithDeclarations fds =>
      let (ds, m') := convert_decls fds sessionId modelName now m in (GoogleTool ds, m')
  | ToolSingle fd =>
      if String.eqb (fd_name fd) "" then (GoogleToolAsIs t, m)        (* !tool.name: as-is *)
      else let (d, m') := convertSingleTool fd sessionId modelName now m in (GoogleTool [d], m')
  | ToolUnknown => (GoogleToolAsIs ToolUnknown, m)
  end.

(** [convertGeminiToolsToAntigravity]: [[]] for an empty array, else
    [geminiTools.map(...)]. *)
Fixpoint convertGeminiToolsToAntigravity (tools : list gemini_tool)
    (sessionId modelName : string) (now : Z) (m : tool_map) : list google_tool * tool_map :=
  match tools with
  | [] => ([], m)
  | t :: ts =>
      let (t', m1) := convert_tool t sessionId modelName now m in
      let (ts', m2) := convertGeminiToolsToAntigravity ts sessionId modelName now m1 in
      (t' :: ts', m2)
  end.

Definition convertGeminiToGoogle (geminiRequest : gemini_request) (modelName uuid : string)
    (now : Z) (m : tool_map) : google_request * tool_map :=
  let actualModelName := mapModelName modelName in
  let sessionId := deriveSessionId_gemini (req_contents geminiRequest) uuid in
  let (tools, m') :=
    match req_tools geminiRequest with
    | Some ts =>
        let (ts', m1) := convertGeminiToolsToAntigravity ts sessionId actualModelName now m in
        (Some ts', m1)
    | None => (None, m)
    end in
  let toolConfig :=
    match tools, req_toolConfig geminiRequest with
    | Some (_ :: _), NoToolConfig => ToolConfig (Some "VALIDATED")
    | _, tc => tc
    end in
  (mk_google_request sessionId tools toolConfig, m').

(** [convertOpenAIToolsToAntigravity]  (src/src/utils/tool-converter.js,
    lines 72-89).  An OpenAI tool is its [function] member, [None] when the
    member is absent.  [tool.function || {}] then reads as a declaration
    named [""] with an empty description and no parameters: on [undefined]
    as on [""], [sanitizeToolName] gives ["tool"], [setToolNameMapping]
    returns at once ([!originalName]), and [description || ''] is [""].
    An absent [tools] array is the empty list. *)
Record openai_tool : Type := mk_openai_tool { tool_function : option function_decl }.

Definition empty_function : function_decl := mk_fdecl "" "" None.

Fixpoint convertOpenAIToolsToAntigravity (openaiTools : list openai_tool)
    (sessionId modelName : string) (now : Z) (m : tool_map) : list google_tool * tool_map :=
  match openaiTools with
  | [] => ([], m)
  | tool :: rest =>
      let func := match tool_function tool with Some f => f | None => empty_function end in
      let (declaration, m1) := convertSingleTool func sessionId modelName now m in
      let (rest', m2) := convertOpenAIToolsToAntigravity rest sessionId modelName now m1 in
      (GoogleTool [declaration] :: rest', m2)
  end.

(** [convertClaudeToolsToAntigravity]  (lines 99-115); the
    [input_schema] of a Claude tool is the [fd_parameters] of its
    declaration. *)
Fixpoint convertClaudeToolsToAntigravity (claudeTools : list function_decl)
    (sessionId modelName : string) (now : Z) (m : tool_map) : list google_tool * tool_map :=
  match claudeTools with
  | [] => ([], m)
  | tool :: rest =>
      let (declaration, m1) := convertSingleTool tool sessionId modelName now m in
      let (rest', m2) := convertClaudeToolsToAntigravity rest sessionId modelName now m1 in
      (GoogleTool [declaration] :: rest', m2)
  end.

End Tools.

(* ================================================================== *)
(** ** pruneExpired  (src/src/utils/tool-name-cache.js, lines 40-47)

    The loop over [toolNameMap.entries()] deletes the entry it is on when
    that entry is older than [ENTRY_TTL_MS].  A [Map] iterator is not
    disturbed by the deletion of the entry it is on, so the loop visits the
    entries the map held when it started.  Every entry the module stores
    has a numeric [ts] ([Date.now()]), so the [continue] is never taken. *)
Definition pruneExpired (now : Z) (m : tool_map) : tool_map :=
  fold_left (fun acc (kv : string * tool_entry) =>
               if (now - ts (snd kv) >? ENTRY_TTL_MS)%Z then map_delete (fst kv) acc else acc)
            m m.

(* ================================================================== *)
(** ** getCachedSignature and cleanupCache  (src/src/format/signature-cache.js, lines 39-75) *)

(** [GEMINI_SIGNATURE_CACHE_TTL_MS] (src/unnamed/part_002, line 140) *)
Definition GEMINI_SIGNATURE_CACHE_TTL_MS : Z := 2 * 60 * 60 * 1000.

(** [signatureCache.delete(key)] *)
Definition sig_delete (k : string) (m : sig_map) : sig_map :=
  filter (fun kv => negb (String.eqb k (fst kv))) m.

(** The result ([None] for [null]) and the cache, from which an expired
    entry is deleted. *)
Definition getCachedSignature (toolUseId : string) (now : Z) (m : sig_map)
    : option string * sig_map :=
  if String.eqb toolUseId "" then (None, m)
  else
    match sig_get toolUseId m with
    | None => (None, m)
    | Some entry =>
        if (now - timestamp entry >? GEMINI_SIGNATURE_CACHE_TTL_MS)%Z
        then (None, sig_delete toolUseId m)
        else (Some (signature entry), m)
    end.

(** [cleanupCache]: the loop deletes the expired entries, as in
    [pruneExpired]; the counter, the log line and [stopPeriodicCleanup]
    only touch the console and the timer. *)
Definition cleanupCache (now : Z) (m : sig_map) : sig_map :=
  fold_left (fun acc (kv : string * sig_entry) =>
               if (now - timestamp (snd kv) >? GEMINI_SIGNATURE_CACHE_TTL_MS)%Z
               then sig_delete (fst kv) acc else acc)
            m m.

(* ================================================================== *)
(** ** getModelFamily and isThinkingModel  (src/unnamed/part_002, lines 147-171)

    On a string, [(modelName || '')] is [modelName]. *)

Definition getModelFamily (modelName : string) : string :=
  let lower := to_lower modelName in
  if includes "claude" lower then "claude"
  else if includes "gemini" lower then "gemini"
  else "unknown".

(** The longest run of decimal digits at the start of [s] ([\d+]). *)
Fixpoint digit_run (s : string) : string :=
  match s with
  | String c s' => if is_digit c then String c (digit_run s') else EmptyString
  | EmptyString => EmptyString
  end.

(** [lower.match(/gemini-(\d+)/)]: the group of the leftmost match. *)
Fixpoint gemini_version_match (s : string) : option string :=
  match s with
  | EmptyString => None
  | String _ s' =>
      if starts_with "gemini-" s && negb (String.eqb (digit_run (slice_from 7 s)) "")
      then Some (digit_run (slice_from 7 s))
      else gemini_version_match s'
  end.

(** [parseInt(digits, 10)] on a string of decimal digits. *)
Definition parse_decimal (digits : string) : Z :=
  fold_left (fun acc c => acc * 10 + (Z.of_nat (nat_of_ascii c) - 48))%Z
            (list_ascii_of_string digits) 0%Z.

Definition isThinkingModel (modelName : string) : bool :=
  let lower := to_lower modelName in
  if includes "claude" lower && includes "thinking" lower then true
  else if includes "gemini" lower then
    if includes "thinking" lower then true
    else match gemini_version_match lower with
         | Some v => (3 <=? parse_decimal v)%Z
         | None => false
         end
  else false.

(* ================================================================== *)
(** ** Generation configs

    [generateGenerationConfig] (src/src/format/openai/request-converter.js,
    lines 242-287) and [normalizeGenerationConfig]
    (src/src/format/gemini/index.js, lines 172-211).  A parameter is
    [None] when it is [undefined]; token counts are integers, temperatures
    and [topP] rationals. *)

(** [GEMINI_MAX_OUTPUT_TOKENS] (src/unnamed/part_002, line 92) *)
Definition GEMINI_MAX_OUTPUT_TOKENS : Z := 16384.

(** [x || d] on a number: [d] when [x] is absent or 0. *)
Definition num_or (x : option Z) (d : Z) : Z :=
  match x with Some n => if Z.eqb n 0 then d else n | None => d end.

(** [x ?? d] *)
Definition nullish_or {A} (x : option A) (d : A) : A :=
  match x with Some v => v | None => d end.

(** A thinking budget: a number, or a member that a property lookup on
    an object literal finds on [Object.prototype]. *)
Inductive budget : Type :=
| BudgetNumber (n : Z)
| BudgetInherited (member : string).

(** [{ include_thoughts: true, thinking_budget }] for Claude models,
    [{ includeThoughts: true, thinkingBudget }] for Gemini models. *)
Inductive thinking_config : Type :=
| SnakeCaseThinking (thinking_budget : budget)
| CamelCaseThinking (thinkingBudget : budget).

Record generation_config : Type := mk_generation_config {
  maxOutputTokens : Z;
  temperature : Q;
  topP : Q;
  topK : Z;
  thinkingConfig : option thinking_config;
  stopSequences : option (list string) }.

(** [parameters.stop]: a string or an array. *)
Inductive stop_param : Type :=
| StopString (s : string)
| StopArray (l : list string).

Record openai_parameters : Type := mk_openai_parameters {
  max_tokens : option Z;
  p_temperature : option Q;
  top_p : option Q;
  top_k : option Z;
  thinking_budget : option Z;
  reasoning_effort : option string;
  stop : option stop_param }.

(** The own and inherited properties of [Object.prototype] in Node. *)
Definition OBJECT_PROTOTYPE_MEMBERS : list string :=
  ["constructor"; "__defineGetter__"; "__defineSetter__"; "hasOwnProperty";
   "__lookupGetter__"; "__lookupSetter__"; "isPrototypeOf"; "propertyIsEnumerable";
   "toString"; "valueOf"; "__proto__"; "toLocaleString"].

(** [REASONING_EFFORT_MAP[effort] || DEFAULTS.thinking_budget]; an
    inherited member is a function or an object, hence truthy. *)
Definition effort_budget (effort : string) : budget :=
  if String.eqb effort "low" then BudgetNumber 8000
  else if String.eqb effort "medium" then BudgetNumber 16000
  else if String.eqb effort "high" then BudgetNumber 32000
  else if existsb (String.eqb effort) OBJECT_PROTOTYPE_MEMBERS then BudgetInherited effort
  else BudgetNumber 16000.

(** [if (isGemini && maxOutputTokens > GEMINI_MAX_OUTPUT_TOKENS) ...] *)
Definition cap_for_family (isGemini : bool) (maxOut : Z) : Z :=
  if isGemini && (GEMINI_MAX_OUTPUT_TOKENS <? maxOut)%Z then GEMINI_MAX_OUTPUT_TOKENS else maxOut.

Definition family_thinking (modelFamily : string) (b : budget) : option thinking_config :=
  if String.eqb modelFamily "claude" then Some (SnakeCaseThinking b)
  else if String.eqb modelFamily "gemini" then Some (CamelCaseThinking b)
  else None.

Definition generateGenerationConfig (parameters : openai_parameters) (enableThinking : bool)
    (modelName : string) : generation_config :=
  let modelFamily := getModelFamily modelName in
  let isGemini := String.eqb modelFamily "gemini" in
  let maxOut := cap_for_family isGemini (num_or (max_tokens parameters) 32000) in
  let thinking :=
    if enableThinking then
      let thinkingBudget :=
        match thinking_budget parameters with
        | Some b => BudgetNumber b
        | None =>
            match reasoning_effort parameters with
            | Some e => if String.eqb e "" then BudgetNumber 16000 else effort_budget e
            | None => BudgetNumber 16000
            end
        end in
      family_thinking modelFamily thinkingBudget
    else None in
  let stopSequences :=
    match stop parameters with
    | Some (StopString s) => if String.eqb s "" then None else Some [s]
    | Some (StopArray l) => Some l
    | None => None
    end in
  mk_generation_config maxOut (nullish_or (p_temperature parameters) 1%Q)
    (nullish_or (top_p parameters) 1%Q) (nullish_or (top_k parameters) 50%Z)
    thinking stopSequences.

(** The call in [convertOpenAIToGoogle] (lines 332-364): the model name is
    mapped, thinking is [isThinkingModel] of it, and the parameters object
    has no [top_k] and no [thinking_budget]. *)
Definition openai_generation_config (model : string) (max_tokens : option Z)
    (temperature top_p : option Q) (stop : option stop_param)
    (reasoning_effort : option string) : generation_config :=
  let actualModelName := mapModelName model in
  generateGenerationConfig
    (mk_openai_parameters max_tokens temperature top_p None None reasoning_effort stop)
    (isThinkingModel actualModelName) actualModelName.

(** The fields of a Gemini [generationConfig] that the normalization reads. *)
Record gemini_generation_params : Type := mk_gemini_generation_params {
  g_maxOutputTokens : option Z;
  g_max_tokens : option Z;
  g_temperature : option Q;
  g_topP : option Q;
  g_top_p : option Q;
  g_topK : option Z;
  g_top_k : option Z;
  g_stopSequences : option (list string);
  g_thinkingBudget : option Z;
  g_thinking_budget : option Z }.

Definition normalizeGenerationConfig (config : gemini_generation_params) (enableThinking : bool)
    (modelName : string) : generation_config :=
  let modelFamily := getModelFamily modelName in
  let isGemini := String.eqb modelFamily "gemini" in
  let maxOut := cap_for_family isGemini
                  (num_or (g_maxOutputTokens config) (num_or (g_max_tokens config) 32000)) in
  let thinking :=
    if enableThinking then
      family_thinking modelFamily
        (BudgetNumber (num_or (g_thinkingBudget config) (num_or (g_thinking_budget config) 16000)))
    else None in
  mk_generation_config maxOut (nullish_or (g_temperature config) 1%Q)
    (nullish_or (g_topP config) (nullish_or (g_top_p config) 1%Q))
    (nullish_or (g_topK config) (nullish_or (g_top_k config) 50%Z))
    thinking (g_stopSequences config).

(** The call in [convertGeminiToGoogle] (lines 222-250):
    [request.generationConfig || {}]. *)
Definition no_generation_params : gemini_generation_params :=
  mk_gemini_generation_params None None None None None None None None None None.

Definition gemini_generation_config (modelName : string)
    (generationConfig : option gemini_generation_params) : generation_config :=
  let actualModelName := mapModelName modelName in
  normalizeGenerationConfig (nullish_or generationConfig no_generation_params)
    (isThinkingModel actualModelName) actualModelName.

(* ================================================================== *)
(** ** processFunctionCallIds and processModelThoughts
    (src/src/format/gemini/index.js, lines 39-150)

    The request parts these steps read and write; a [content.parts] that
    is not an array is [None].  The steps mutate the parts in place; here
    they return the new parts. *)

Record function_response : Type :=
  mk_function_response { fr_id : option string; fr_name : string }.

Record request_part : Type := mk_request_part {
  rq_thought : bool;
  rq_text : option string;
  rq_thoughtSignature : option string;
  rq_functionCall : option function_call;
  rq_functionResponse : option function_response }.

Record request_content : Type :=
  mk_request_content { rq_role : string; rq_parts : option (list request_part) }.

(** [forEach] over an array whose callback updates the element and a
    piece of state. *)
Fixpoint map_state {S A : Type} (f : S -> A -> A * S) (l : list A) (s : S) : list A * S :=
  match l with
  | [] => ([], s)
  | x :: l' =>
      let (y, s1) := f s x in
      let (ys, s2) := map_state f l' s1 in
      (y :: ys, s2)
  end.

(** [`call_${Date.now()}_${Math.random().toString(36).substr(2, 9)}`];
    the random suffix is an argument. *)
Definition generateFunctionCallId (now : Z) (random : string) : string :=
  "call_" ++ NilEmpty.string_of_uint (N.to_uint (Z.to_N now)) ++ "_" ++ random.

Definition with_call_id (part : request_part) (fc : function_call) (id : string) : request_part :=
  mk_request_part (rq_thought part) (rq_text part) (rq_thoughtSignature part)
    (Some (mk_fcall (Some id) (fc_name fc) (fc_args_json fc))) (rq_functionResponse part).

Definition with_response_id (part : request_part) (fr : function_response) (id : string)
    : request_part :=
  mk_request_part (rq_thought part) (rq_text part) (rq_thoughtSignature part)
    (rq_functionCall part) (Some (mk_function_response (Some id) (fr_name fr))).

(** The callback of the first loop; its state is the number of random
    suffixes drawn ([random n] is the n-th) and [functionCallIds]. *)
Definition collect_call_id (now : Z) (random : nat -> string)
    (acc : nat * list string) (part : request_part) : request_part * (nat * list string) :=
  let (n, functionCallIds) := acc in
  match rq_functionCall part with
  | Some fc =>
      if truthy_str (fc_id fc) then (part, (n, (functionCallIds ++ [or_empty (fc_id fc)])%list))
      else
        let id := generateFunctionCallId now (random n) in
        (with_call_id part fc id, (S n, (functionCallIds ++ [id])%list))
  | None => (part, acc)
  end.

(** The callback of the second loop; its state is [responseIndex]. *)
Definition assign_response_id (functionCallIds : list string) (responseIndex : nat)
    (part : request_part) : request_part * nat :=
  match rq_functionResponse part with
  | Some fr =>
      if negb (truthy_str (fr_id fr)) && (responseIndex <? List.length functionCallIds)%nat
      then (with_response_id part fr (nth responseIndex functionCallIds ""), S responseIndex)
      else (part, responseIndex)
  | None => (part, responseIndex)
  end.

(** [if (content.role === role && content.parts && Array.isArray(content.parts))
       content.parts.forEach(...)] *)
Definition on_role_parts {S : Type} (role : string) (f : S -> request_part -> request_part * S)
    (s : S) (c : request_content) : request_content * S :=
  if String.eqb (rq_role c) role then
    match rq_parts c with
    | Some ps => let (ps', s') := map_state f ps s in (mk_request_content (rq_role c) (Some ps'), s')
    | None => (c, s)
    end
  else (c, s).

Definition processFunctionCallIds (now : Z) (random : nat -> string)
    (contents : list request_content) : list request_content :=
  let (contents1, acc) :=
    map_state (on_role_parts "model" (collect_call_id now random)) contents (0%nat, []) in
  fst (map_state (on_role_parts "user" (assign_response_id (snd acc))) contents1 0%nat).

(** [createThoughtPart(text)]: [{ text: text || ' ', thought: true }] *)
Definition createThoughtPart (text : string) : request_part :=
  mk_request_part true (Some (if String.eqb text "" then " " else text)) None None None.

(** [parts[i] = f(parts[i])] and [parts.splice(i, 1)] *)
Fixpoint update_at {A : Type} (i : nat) (f : A -> A) (l : list A) : list A :=
  match l, i with
  | [], _ => []
  | x :: l', O => f x :: l'
  | x :: l', S i' => x :: update_at i' f l'
  end.

Fixpoint remove_at {A : Type} (i : nat) (l : list A) : list A :=
  match l, i with
  | [], _ => []
  | _ :: l', O => l'
  | x :: l', S i' => x :: remove_at i' l'
  end.

Definition with_signature (sig : string) (part : request_part) : request_part :=
  mk_request_part (rq_thought part) (rq_text part) (Some sig)
    (rq_functionCall part) (rq_functionResponse part).

(** The first loop: the last thought part without a signature, and the
    last signature part that is not a thought, with its signature. *)
Fixpoint scan_thoughts (i : nat) (parts : list request_part) (thoughtIndex : option nat)
    (signatureAt : option (nat * string)) : option nat * option (nat * string) :=
  match parts with
  | [] => (thoughtIndex, signatureAt)
  | part :: rest =>
      let thoughtIndex' :=
        if rq_thought part && negb (truthy_str (rq_thoughtSignature part))
        then Some i else thoughtIndex in
      let signatureAt' :=
        if truthy_str (rq_thoughtSignature part) && negb (rq_thought part)
        then Some (i, or_empty (rq_thoughtSignature part)) else signatureAt in
      scan_thoughts (S i) rest thoughtIndex' signatureAt'
  end.

(** The merge step (lines 110-115). *)
Definition merge_thought (parts : list request_part) : list request_part :=
  match scan_thoughts 0 parts None None with
  | (Some ti, Some (si, signatureValue)) =>
      remove_at si (update_at ti (with_signature signatureValue) parts)
  | (None, _) => createThoughtPart " " :: parts
  | (Some _, None) => parts
  end.

Definition no_part : request_part := mk_request_part false None None None None.

(** [part.thoughtSignature && !part.thought && !part.functionCall && !part.text] *)
Definition is_standalone_signature (part : request_part) : bool :=
  truthy_str (rq_thoughtSignature part) && negb (rq_thought part) &&
  match rq_functionCall part with Some _ => false | None => true end &&
  negb (truthy_str (rq_text part)).

(** The loop from the last index down that [unshift]s each standalone
    signature part's index and signature. *)
Definition standalone_signatures (parts : list request_part) : list (nat * string) :=
  fold_left (fun acc i =>
               let part := nth i parts no_part in
               if is_standalone_signature part
               then (i, or_empty (rq_thoughtSignature part)) :: acc else acc)
            (rev (seq 0 (List.length parts))) [].

(** The callback of the assignment loop; its state is [sigIndex] and the
    signature cache, which [getCachedSignature] may prune. *)
Definition assign_signature (now : Z) (standaloneSignatures : list (nat * string))
    (st : nat * sig_map) (part : request_part) : request_part * (nat * sig_map) :=
  let (sigIndex, cache) := st in
  match rq_functionCall part with
  | Some fc =>
      if truthy_str (rq_thoughtSignature part) then (part, st)
      else if (sigIndex <? List.length standaloneSignatures)%nat then
        (with_signature (snd (nth sigIndex standaloneSignatures (0%nat, ""))) part,
         (S sigIndex, cache))
      else
        let (cachedSig, cache') := getCachedSignature (or_empty (fc_id fc)) now cache in
        if truthy_str cachedSig
        then (with_signature (or_empty cachedSig) part, (sigIndex, cache'))
        else (part, (sigIndex, cache'))
  | None => (part, st)
  end.

(** The removal loop (lines 145-149): from the last standalone signature
    down, splice out those whose signature was used. *)
Definition remove_used (standaloneSignatures : list (nat * string)) (sigIndex : nat)
    (parts : list request_part) : list request_part :=
  fold_left (fun ps i =>
               if (i <? sigIndex)%nat
               then remove_at (fst (nth i standaloneSignatures (0%nat, ""))) ps
               else ps)
            (rev (seq 0 (List.length standaloneSignatures))) parts.

(** [processModelThoughts(content)] on [content.parts], with the signature
    cache. *)
Definition processModelThoughts (now : Z) (parts : list request_part) (cache : sig_map)
    : list request_part * sig_map :=
  let merged := merge_thought parts in
  let standaloneSignatures := standalone_signatures merged in
  let (assigned, st) := map_state (assign_signature now standaloneSignatures) merged (0%nat, cache) in
  (remove_used standaloneSignatures (fst st) assigned, snd st).

(* ================================================================== *)
(** ** formatSSEEvent  (src/src/format/gemini/response-converter.js, lines 134-136)

    [JSON.stringify(data)] is the argument [json].  The OpenAI route
    (src/src/routes/openai.js, lines 65 and 68) writes its events with the
    same template. *)
Definition formatSSEEvent (json : string) : string :=
  "data: " ++ json ++ String "010"%char (String "010"%char EmptyString).

(* ================================================================== *)
(** ** A sample upstream stream

    A parser that knows two payloads, and a body that carries them on
    [data:] lines cut across chunks, with a CRLF line end, a blank line and
    a line that does not parse. *)

Definition sample_parse (jsonText : string) : option sse_payload :=
  if String.eqb jsonText "{A}" then
    Some (mk_payload
            (Some (mk_gresponse
                     (Some [mk_candidate (Some [mk_part true (Some "ok ") (Some "sig") None]) None])
                     None))
            (mk_gresponse None None))
  else if String.eqb jsonText "{B}" then
    Some (mk_payload None
            (mk_gresponse
               (Some [mk_candidate (Some [mk_part false (Some "hello") None None]) (Some "STOP")])
               (Some (mk_usage (Some 3%Z) (Some 4%Z) None))))
  else None.

Definition sample_body : list string :=
  ["da"; "ta: {A}"; String "013"%char (String "010"%char EmptyString);
   "data:  {B}  "; String "010"%char "data: junk"; String "010"%char EmptyString].

(** A 50-character thought signature, and a function-call part carrying
    it, with and without an id. *)
Definition sample_signature : string := string_of_list_ascii (List.repeat "s"%char 50).

Definition sample_call_part (id : option string) : google_part :=
  mk_part false None (Some sample_signature) (Some (mk_fcall id "get_weather" "{}")).

(* ================================================================== *)
(** ** Auxiliary definitions of the proofs *)

(** The list forms of the underscore trimming. *)
Fixpoint ldrop_underscores (l : list ascii) : list ascii :=
  match l with
  | c :: l' => if Ascii.eqb c "_"%char then ldrop_underscores l' else l
  | [] => []
  end.

Definition is_underscore (c : ascii) : bool := Ascii.eqb c "_"%char.

(** Every character of [s] is in [[A-Za-z0-9_-]]. *)
Fixpoint all_tool_chars (s : string) : bool :=
  match s with
  | EmptyString => true
  | String c s' => is_tool_char c && all_tool_chars s'
  end.

Definition chars_of (s : string) : list ascii := list_ascii_of_string s.

(** Every character of [s] is in [alph]. *)
Fixpoint all_in (alph : list ascii) (s : string) : Prop :=
  match s with
  | EmptyString => True
  | String c s' => In c alph /\ all_in alph s'
  end.

(** The fields of the accumulator that its parts loop reads and writes. *)
Definition accum_core (a : accum_state) : list google_part * string * string * string :=
  (finalParts a, accumulatedThinkingText a, accumulatedThinkingSignature a, accumulatedText a).

(** No chunk yielded so far carries a finish_reason. *)
Definition no_finish (s : stream_state) : Prop :=
  Forall (fun c => chunk_finish_reason c = None) (yielded s).


(** The parts of the contents that have the given role and an array of
    parts, in order. *)
Definition role_parts (role : string) (contents : list request_content) : list request_part :=
  flat_map (fun c => if String.eqb (rq_role c) role
                     then match rq_parts c with Some ps => ps | None => [] end
                     else []) contents.

(** The ids of the function calls, and of the function responses, of a
    list of parts, in order. *)
Definition call_ids (parts : list request_part) : list (option string) :=
  flat_map (fun p => match rq_functionCall p with Some fc => [fc_id fc] | None => [] end) parts.

Definition response_ids (parts : list request_part) : list (option string) :=
  flat_map (fun p => match rq_functionResponse p with Some fr => [fr_id fr] | None => [] end) parts.

(** The second loop of [processFunctionCallIds] as it acts on the
    response ids. *)
Definition fill_step (functionCallIds : list string) (responseIndex : nat) (id : option string)
    : option string * nat :=
  if negb (truthy_str id) && (responseIndex <? List.length functionCallIds)%nat
  then (Some (nth responseIndex functionCallIds ""), S responseIndex)
  else (id, responseIndex).


(** What a list of Google parts says, read three ways: the text of its
    plain parts (not thoughts, no function call), the text of its thought
    parts, and its function-call parts that are not thoughts. *)
Fixpoint plain_text (ps : list google_part) : string :=
  match ps with
  | [] => EmptyString
  | p :: ps' =>
      (if part_thought p then EmptyString
       else match part_functionCall p with
            | Some _ => EmptyString
            | None => or_empty (part_text p)
            end) ++ plain_text ps'
  end.

Fixpoint thought_text (ps : list google_part) : string :=
  match ps with
  | [] => EmptyString
  | p :: ps' => (if part_thought p then or_empty (part_text p) else EmptyString) ++ thought_text ps'
  end.

Definition call_parts (ps : list google_part) : list google_part :=
  filter (fun p => negb (part_thought p) &&
                   match part_functionCall p with Some _ => true | None => false end) ps.

(** The same three readings of the state of [accumulateSSEResponse], its
    pending texts counted after the parts already pushed. *)
Definition accum_measure (a : accum_state) : string * string * list google_part :=
  (plain_text (finalParts a) ++ accumulatedText a,
   thought_text (finalParts a) ++ accumulatedThinkingText a,
   call_parts (finalParts a)).

(** A measure extended by a list of parts. *)
Definition measure_add (m : string * string * list google_part) (ps : list google_part)
    : string * string * list google_part :=
  let '(x, y, z) := m in (x ++ plain_text ps, y ++ thought_text ps, (z ++ call_parts ps)%list).

(** The id and the arguments a function-call part becomes as an OpenAI tool
    call, and the same two fields of a tool call. *)
Definition call_part_summary (p : google_part) : string * string :=
  match part_functionCall p with
  | Some fc => (tool_call_id fc, fc_args_json fc)
  | None => (EmptyString, EmptyString)
  end.

Definition tool_call_summary (tc : openai_tool_call) : string * string :=
  (tc_id tc, tc_arguments tc).

(** [message.tool_calls], absent read as none. *)
Definition tool_calls_of (m : openai_message_out) : list openai_tool_call :=
  match out_tool_calls m with Some l => l | None => [] end.

(** What the chunks yielded by [streamGoogleToOpenAI] carry: the texts of
    their content deltas and of their reasoning deltas, concatenated, and
    the tool calls of their tool-call deltas. *)
Definition delta_content (c : stream_chunk) : string :=
  match chunk_delta c with DeltaContent t => t | _ => EmptyString end.

Definition delta_reasoning (c : stream_chunk) : string :=
  match chunk_delta c with DeltaReasoning t => t | _ => EmptyString end.

Definition delta_tool_calls (c : stream_chunk) : list openai_tool_call :=
  match chunk_delta c with DeltaToolCalls l => l | _ => [] end.

Fixpoint streamed_content (cs : list stream_chunk) : string :=
  match cs with [] => EmptyString | c :: cs' => delta_content c ++ streamed_content cs' end.

Fixpoint streamed_reasoning (cs : list stream_chunk) : string :=
  match cs with [] => EmptyString | c :: cs' => delta_reasoning c ++ streamed_reasoning cs' end.

Definition streamed_tool_calls (cs : list stream_chunk) : list openai_tool_call :=
  flat_map delta_tool_calls cs.

(** A part that is not a thought does not carry both a non-empty text and
    a function call. *)
Definition no_text_with_call (p : google_part) : bool :=
  part_thought p || negb (truthy_str (part_text p)) ||
  match part_functionCall p with None => true | Some _ => false end.

(* ================================================================== *)
(* ================================================================== *)
(** * Proofs *)

Example mapModelName_ex1 :
  mapModelName "claude-sonnet-4-5-20250929" = "claude-sonnet-4-5".
Proof. reflexivity. Qed.
Example mapModelName_ex2 :
  mapModelName "claude-3-HAIKU-20240307" = "gemini-2.5-flash-lite".
Proof. reflexivity. Qed.
Example sanitize_ex1 : sanitizeToolName (JSString "my.tool!") = "my_tool".
Proof. reflexivity. Qed.
Example sanitize_ex2 : sanitizeToolName (JSString "__a_b__") = "a_b".
Proof. reflexivity. Qed.

(* ------------------------------------------------------------------ *)
(** ** sanitizeToolName *)

Lemma drop_underscores_list (s : string) :
  list_ascii_of_string (drop_underscores s) = ldrop_underscores (list_ascii_of_string s).
Proof.
  induction s as [|c s IH]; simpl; [reflexivity|].
  destruct (Ascii.eqb c "_"%char); [exact IH | reflexivity].
Qed.

Lemma all_underscores_list (s : string) :
  all_underscores s = forallb is_underscore (list_ascii_of_string s).
Proof. induction s as [|c s IH]; simpl; [reflexivity | now rewrite IH]. Qed.

Lemma ldrop_app (l1 l2 : list ascii) :
  ldrop_underscores (l1 ++ l2)%list =
  if forallb is_underscore l1 then ldrop_underscores l2 else (ldrop_underscores l1 ++ l2)%list.
Proof.
  induction l1 as [|c l1 IH]; simpl; [reflexivity|].
  unfold is_underscore at 1.
  destruct (Ascii.eqb c "_"%char); simpl; [exact IH | reflexivity].
Qed.

Lemma forallb_rev {A} (f : A -> bool) (l : list A) : forallb f (rev l) = forallb f l.
Proof.
  induction l as [|x l IH]; simpl; [reflexivity|].
  rewrite forallb_app, IH; simpl. now rewrite andb_true_r, andb_comm.
Qed.

Lemma strip_trailing_scan_all (s : string) :
  all_underscores s = true -> strip_trailing_scan s = EmptyString.
Proof. destruct s as [|c s]; simpl; [reflexivity|]. intros ->. reflexivity. Qed.

Lemma strip_trailing_scan_list (s : string) :
  list_ascii_of_string (strip_trailing_scan s) =
  rev (ldrop_underscores (rev (list_ascii_of_string s))).
Proof.
  induction s as [|c s IH]; [reflexivity|].
  change (list_ascii_of_string (String c s)) with (c :: list_ascii_of_string s).
  simpl rev. rewrite ldrop_app, forallb_rev, <- all_underscores_list.
  simpl strip_trailing_scan.
  destruct (all_underscores s) eqn:Hs.
  - rewrite (strip_trailing_scan_all s Hs), andb_true_r. simpl.
    destruct (Ascii.eqb c "_"%char); reflexivity.
  - rewrite andb_false_r. simpl. rewrite rev_app_distr. simpl. now rewrite IH.
Qed.

Lemma strip_underscores_regex_spec (s : string) :
  strip_underscores_regex s = trim_trailing_underscores (trim_leading_underscores s).
Proof.
  unfold strip_underscores_regex, trim_trailing_underscores, trim_leading_underscores.
  rewrite <- (string_of_list_ascii_of_string (strip_trailing_scan _)).
  rewrite strip_trailing_scan_list, !drop_underscores_list,
          list_ascii_of_string_of_list_ascii.
  reflexivity.
Qed.

(** C5: for every string, [sanitizeToolName] agrees with the reference
    definition of the specification: characters outside [[A-Za-z0-9_-]]
    become '_', leading and trailing '_' are trimmed, an empty result
    becomes "tool", and the result is cut to 128 characters. *)
Theorem sanitizeToolName_matches_reference (n : string) :
  sanitizeToolName (JSString n) = sanitize_tool_name_spec n.
Proof.
  unfold sanitizeToolName, sanitize_tool_name_spec.
  rewrite strip_underscores_regex_spec.
  destruct (String.eqb_spec n ""); [subst; reflexivity | reflexivity].
Qed.

Lemma replace_non_tool_chars_ok (s : string) :
  all_tool_chars (replace_non_tool_chars s) = true.
Proof.
  induction s as [|c s IH]; simpl; [reflexivity|].
  rewrite IH, andb_true_r.
  destruct (is_tool_char c) eqn:E; [exact E | reflexivity].
Qed.

Lemma drop_underscores_ok (s : string) :
  all_tool_chars s = true -> all_tool_chars (drop_underscores s) = true.
Proof.
  induction s as [|c s IH]; simpl; [auto|].
  intros H. apply andb_prop in H as [H1 H2].
  destruct (Ascii.eqb c "_"%char); simpl; [auto | now rewrite H1, H2].
Qed.

Lemma strip_trailing_scan_ok (s : string) :
  all_tool_chars s = true -> all_tool_chars (strip_trailing_scan s) = true.
Proof.
  induction s as [|c s IH]; simpl; [auto|].
  intros H. apply andb_prop in H as [H1 H2].
  destruct (Ascii.eqb c "_"%char && all_underscores s); simpl; [reflexivity|].
  now rewrite H1, IH.
Qed.

Lemma substring_0_ok (n : nat) (s : string) :
  all_tool_chars s = true -> all_tool_chars (substring 0 n s) = true.
Proof.
  revert n; induction s as [|c s IH]; intros n H; destruct n; simpl in *; auto.
  apply andb_prop in H as [H1 H2]. now rewrite H1, IH.
Qed.

Lemma substring_0_length (n : nat) (s : string) :
  String.length (substring 0 n s) = Nat.min n (String.length s).
Proof.
  revert n; induction s as [|c s IH]; intros n; destruct n; simpl; auto.
Qed.

(** [sanitizeToolName] always returns a non-empty string of at most 128
    characters drawn from [[A-Za-z0-9_-]]. *)
Lemma sanitizeToolName_props (name : jsval) :
  sanitizeToolName name <> EmptyString /\
  (String.length (sanitizeToolName name) <= 128)%nat /\
  all_tool_chars (sanitizeToolName name) = true.
Proof.
  assert (Htool : "tool" <> EmptyString /\ (String.length "tool" <= 128)%nat /\
                  all_tool_chars "tool" = true)
    by (repeat split; [discriminate | simpl; lia]).
  destruct name as [| | b | z | s |]; try exact Htool. simpl.
  destruct (String.eqb s ""); [exact Htool|].
  set (c := strip_underscores_regex (replace_non_tool_chars s)).
  assert (Hc : all_tool_chars c = true).
  { unfold c, strip_underscores_regex.
    apply strip_trailing_scan_ok, drop_underscores_ok, replace_non_tool_chars_ok. }
  set (c' := if String.eqb c "" then "tool" else c).
  assert (Hne : c' <> EmptyString).
  { unfold c'. destruct (String.eqb_spec c ""); [discriminate | assumption]. }
  assert (Hok : all_tool_chars c' = true).
  { unfold c'. destruct (String.eqb c ""); [reflexivity | exact Hc]. }
  destruct (Nat.ltb_spec 128 (String.length c')) as [Hlt | Hge].
  - repeat split.
    + intros E. apply (f_equal String.length) in E.
      rewrite substring_0_length, Nat.min_l in E by lia. discriminate E.
    + rewrite substring_0_length. lia.
    + now apply substring_0_ok.
  - repeat split; assumption.
Qed.

(** C9: for every argument whatsoever (undefined, null, booleans, numbers,
    objects and strings), [sanitizeToolName] returns a non-empty string of
    at most 128 characters, all of them in [[A-Za-z0-9_-]].  The embedding
    is a total function: the code has no path that throws. *)
Theorem sanitizeToolName_safe (name : jsval) :
  sanitizeToolName name <> EmptyString /\
  (String.length (sanitizeToolName name) <= 128)%nat /\
  all_tool_chars (sanitizeToolName name) = true.
Proof. exact (sanitizeToolName_props name). Qed.

(* ------------------------------------------------------------------ *)
(** ** mapFinishReason *)

(** C8: the OpenAI finish-reason mapping sends STOP to "stop", MAX_TOKENS
    to "length", TOOL_USE and FUNCTION_CALL to "tool_calls", and SAFETY to
    "content_filter". *)
Theorem mapFinishReason_table :
  mapFinishReason (Some "STOP") = "stop" /\
  mapFinishReason (Some "MAX_TOKENS") = "length" /\
  mapFinishReason (Some "TOOL_USE") = "tool_calls" /\
  mapFinishReason (Some "FUNCTION_CALL") = "tool_calls" /\
  mapFinishReason (Some "SAFETY") = "content_filter".
Proof. repeat split. Qed.

(* ------------------------------------------------------------------ *)
(** ** mapModelName *)

Lemma string_length_app (a b : string) :
  String.length (a ++ b) = (String.length a + String.length b)%nat.
Proof. induction a as [|c a IH]; simpl; [reflexivity | now rewrite IH]. Qed.

Lemma string_app_empty_r (a : string) : a ++ EmptyString = a.
Proof. induction a as [|c a IH]; simpl; [reflexivity | now rewrite IH]. Qed.

Lemma starts_with_app_disjoint (p x b : string) :
  (forall c, In c (chars_of p) -> ~ In c (chars_of b)) ->
  starts_with p (x ++ b) = starts_with p x.
Proof.
  revert p; induction x as [|e x IH]; intros p Hd.
  - destruct p as [|c p]; [reflexivity|]. simpl.
    destruct b as [|d b]; [reflexivity|].
    destruct (Ascii.eqb_spec c d) as [<-|]; [|reflexivity].
    exfalso. apply (Hd c); simpl; auto.
  - destruct p as [|c p]; [reflexivity|]. simpl. f_equal.
    apply IH. intros c' Hc'. apply Hd. simpl; auto.
Qed.

Lemma includes_disjoint (p b : string) :
  p <> EmptyString ->
  (forall c, In c (chars_of p) -> ~ In c (chars_of b)) ->
  includes p b = false.
Proof.
  intros Hp Hd. induction b as [|d b IH].
  - destruct p; [contradiction | reflexivity].
  - simpl. rewrite IH.
    + destruct p as [|c p]; [contradiction|]. simpl.
      destruct (Ascii.eqb_spec c d) as [<-|]; [|reflexivity].
      exfalso. apply (Hd c); simpl; auto.
    + intros c Hc Hb. apply (Hd c Hc). simpl; auto.
Qed.

Lemma includes_app_disjoint (p x b : string) :
  p <> EmptyString ->
  (forall c, In c (chars_of p) -> ~ In c (chars_of b)) ->
  includes p (x ++ b) = includes p x.
Proof.
  intros Hp Hd. induction x as [|e x IH].
  - simpl. rewrite includes_disjoint by assumption. destruct p; [contradiction|reflexivity].
  - change (includes p (String e x ++ b)) with
      (starts_with p (String e (x ++ b)) || includes p (x ++ b)).
    rewrite IH. change (String e (x ++ b)) with (String e x ++ b).
    rewrite starts_with_app_disjoint by assumption. reflexivity.
Qed.

Lemma to_lower_app (a b : string) : to_lower (a ++ b) = to_lower a ++ to_lower b.
Proof. induction a as [|c a IH]; simpl; [reflexivity | now rewrite IH]. Qed.

Lemma to_lower_digits (d : string) : all_digits d = true -> to_lower d = d.
Proof.
  induction d as [|c d IH]; simpl; [reflexivity|].
  intros H. apply andb_prop in H as [Hc Hd]. rewrite IH by exact Hd. f_equal.
  unfold lower_char, is_digit in *. apply andb_prop in Hc as [H1 H2].
  apply Nat.leb_le in H1, H2.
  destruct (Nat.leb_spec 65 (nat_of_ascii c)); [lia | reflexivity].
Qed.

Lemma digits_not_in_haiku (d : string) :
  all_digits d = true ->
  forall c, In c (chars_of "haiku") -> ~ In c (chars_of (String "-" d)).
Proof.
  intros Hd c Hc Hin. simpl in Hin. destruct Hin as [<-|Hin].
  - simpl in Hc. intuition discriminate.
  - induction d as [|e d IH]; simpl in Hin; [contradiction|].
    simpl in Hd. apply andb_prop in Hd as [He Hd].
    destruct Hin as [<-|Hin]; [|exact (IH Hd Hin)].
    unfold is_digit in He. apply andb_prop in He as [H1 H2].
    apply Nat.leb_le in H1, H2.
    simpl in Hc.
    destruct Hc as [<-|[<-|[<-|[<-|[<-|[]]]]]]; cbv in H1, H2; lia.
Qed.

Lemma date_suffix_index_app (pre d : string) (k : nat) :
  String.length d = 8 -> all_digits d = true ->
  date_suffix_index (pre ++ String "-" d) k = Some (k + String.length pre)%nat.
Proof.
  intros Hl Hd. revert k; induction pre as [|c pre IH]; intros k.
  - simpl. unfold date_suffix_here. rewrite Hl, Hd. simpl. f_equal. lia.
  - simpl date_suffix_index.
    replace (String.length (pre ++ String "-" d) =? 8)%nat with false.
    + rewrite andb_false_r, andb_false_l, IH. f_equal. simpl. lia.
    + symmetry. apply Nat.eqb_neq. rewrite string_length_app. simpl. lia.
Qed.

Lemma substring_0_prefix (a b : string) :
  substring 0 (String.length a) (a ++ b) = a.
Proof. induction a as [|c a IH]; simpl; [now destruct b | now rewrite IH]. Qed.

Lemma substring_len_0 (n : nat) (s : string) : substring n 0 s = EmptyString.
Proof.
  revert s; induction n as [|n IH]; intros s; destruct s; simpl; auto.
Qed.

(** C4: model-name mapping strips a trailing [-YYYYMMDD] (a hyphen and
    exactly eight digits at the end) and redirects every name containing
    "haiku" (case-insensitively) to exactly "gemini-2.5-flash-lite".  For a
    dated name [pre-YYYYMMDD] the result is the stripped name [pre], sent to
    "gemini-2.5-flash-lite" when it contains "haiku": stripping first and
    redirecting after, as the two rules say. *)
Theorem mapModelName_date_suffix_and_haiku :
  (forall pre d : string,
      String.length d = 8 -> all_digits d = true ->
      mapModelName (pre ++ String "-" d) =
      if includes "haiku" (to_lower pre) then "gemini-2.5-flash-lite" else pre) /\
  (forall n : string,
      includes "haiku" (to_lower n) = true -> mapModelName n = "gemini-2.5-flash-lite").
Proof.
  split.
  - intros pre d Hl Hd. unfold mapModelName.
    replace (String.eqb (pre ++ String "-" d) "") with false.
    2:{ symmetry. apply String.eqb_neq. intros E.
        apply (f_equal String.length) in E. rewrite string_length_app in E.
        simpl in E. lia. }
    simpl find_redirect.
    rewrite to_lower_app.
    change (to_lower (String "-" d)) with (String "-" (to_lower d)).
    rewrite (to_lower_digits d Hd).
    rewrite includes_app_disjoint
      by (discriminate || apply digits_not_in_haiku; exact Hd).
    destruct (includes "haiku" (to_lower pre)); [reflexivity|].
    rewrite date_suffix_index_app by assumption. simpl plus.
    rewrite substring_0_prefix.
    replace (String.length (pre ++ String "-" d) - (String.length pre + 9))%nat with 0%nat
      by (rewrite string_length_app; simpl; lia).
    rewrite substring_len_0. apply string_app_empty_r.
  - intros n H. unfold mapModelName.
    destruct (String.eqb_spec n ""); [subst; discriminate H|].
    simpl. now rewrite H.
Qed.

(* ------------------------------------------------------------------ *)
(** ** The tool-name cache *)

Lemma map_get_set_same (k : string) (v : tool_entry) (m : tool_map) :
  map_get k (map_set k v m) = Some v.
Proof.
  induction m as [|[k' v'] m IH]; simpl; [now rewrite String.eqb_refl|].
  destruct (String.eqb_spec k k') as [<-|]; simpl.
  - now rewrite String.eqb_refl.
  - rewrite IH. destruct (String.eqb_spec k k'); [contradiction | reflexivity].
Qed.

Lemma map_get_set_other (k k' : string) (v : tool_entry) (m : tool_map) :
  k' <> k -> map_get k' (map_set k v m) = map_get k' m.
Proof.
  intros Hne. induction m as [|[k0 v0] m IH]; simpl.
  - destruct (String.eqb_spec k' k); [contradiction | reflexivity].
  - destruct (String.eqb_spec k k0) as [<-|]; simpl.
    + destruct (String.eqb_spec k' k); [contradiction | reflexivity].
    + now rewrite IH.
Qed.

Lemma map_get_delete_other (k k' : string) (m : tool_map) :
  k' <> k -> map_get k' (map_delete k m) = map_get k' m.
Proof.
  intros Hne. unfold map_delete.
  induction m as [|[k0 v0] m IH]; simpl; [reflexivity|].
  destruct (String.eqb_spec k k0) as [<-|]; simpl.
  - rewrite IH. destruct (String.eqb_spec k' k); [contradiction | reflexivity].
  - now rewrite IH.
Qed.

Lemma map_set_length_present (k : string) (v : tool_entry) (m : tool_map) :
  map_get k m <> None -> List.length (map_set k v m) = List.length m.
Proof.
  induction m as [|[k0 v0] m IH]; simpl; [contradiction|].
  destruct (String.eqb k k0); simpl; [reflexivity|]. intros H. now rewrite IH.
Qed.

Lemma map_set_absent (k : string) (v : tool_entry) (m : tool_map) :
  map_get k m = None -> map_set k v m = (m ++ [(k, v)])%list.
Proof.
  induction m as [|[k0 v0] m IH]; simpl; [reflexivity|].
  destruct (String.eqb k k0); [discriminate|]. intros H. now rewrite IH.
Qed.

Lemma pruneSize_small (n : nat) (m : tool_map) :
  (List.length m <= n)%nat -> pruneSize n m = m.
Proof.
  intros H. unfold pruneSize. now replace (List.length m <=? n)%nat with true
    by (symmetry; apply Nat.leb_le; exact H).
Qed.

(** A fresh insertion survives the FIFO pruning while the cache respects
    its bound. *)
Lemma map_get_after_insert (k : string) (v : tool_entry) (m : tool_map) :
  (List.length m <= MAX_ENTRIES)%nat ->
  map_get k (pruneSize MAX_ENTRIES (map_set k v m)) = Some v.
Proof.
  intros Hlen.
  destruct (map_get k m) as [v0|] eqn:Hk.
  - rewrite pruneSize_small.
    + apply map_get_set_same.
    + rewrite map_set_length_present by (rewrite Hk; discriminate). exact Hlen.
  - rewrite (map_set_absent k v m Hk).
    destruct (Nat.leb_spec (List.length (m ++ [(k, v)])) MAX_ENTRIES) as [Hs|Hb].
    + rewrite pruneSize_small by exact Hs.
      rewrite <- (map_set_absent k v m Hk). apply map_get_set_same.
    + rewrite length_app in Hb. simpl in Hb.
      assert (Heq : List.length m = MAX_ENTRIES) by lia.
      destruct m as [|[k0 v0] m']; [discriminate Heq|].
      unfold pruneSize.
      replace (List.length (((k0, v0) :: m') ++ [(k, v)]) <=? MAX_ENTRIES)%nat with false
        by (symmetry; apply Nat.leb_gt; rewrite length_app; cbn [List.length] in *; lia).
      replace (List.length (((k0, v0) :: m') ++ [(k, v)]) - MAX_ENTRIES)%nat with 1%nat
        by (rewrite length_app; cbn [List.length] in *; lia).
      cbn [app map fst prune_keys Nat.leb].
      assert (Hne : k <> k0).
      { intros ->. simpl in Hk. now rewrite String.eqb_refl in Hk. }
      rewrite map_get_delete_other by exact Hne.
      change ((k0, v0) :: (m' ++ [(k, v)]))%list with (((k0, v0) :: m') ++ [(k, v)])%list.
      rewrite <- (map_set_absent k v _ Hk). apply map_get_set_same.
Qed.

Lemma list_ascii_of_string_app (a b : string) :
  list_ascii_of_string (a ++ b) = (list_ascii_of_string a ++ list_ascii_of_string b)%list.
Proof. induction a as [|c a IH]; simpl; [reflexivity | now rewrite IH]. Qed.

Lemma string_app_inv_r (a b c : string) : a ++ c = b ++ c -> a = b.
Proof.
  intros H. apply (f_equal list_ascii_of_string) in H.
  rewrite !list_ascii_of_string_app in H. apply app_inv_tail in H.
  rewrite <- (string_of_list_ascii_of_string a), <- (string_of_list_ascii_of_string b).
  now rewrite H.
Qed.

Lemma colon_split (a b r1 r2 : string) :
  no_colon a = true -> no_colon b = true ->
  a ++ String ":" r1 = b ++ String ":" r2 -> a = b /\ r1 = r2.
Proof.
  revert b; induction a as [|c a IH]; intros b Ha Hb H; destruct b as [|d b].
  - simpl in H. now injection H.
  - simpl in H. injection H as <- _. discriminate Hb.
  - simpl in H. injection H as -> _. discriminate Ha.
  - simpl in H. injection H as <- H.
    unfold no_colon in Ha, Hb. simpl in Ha, Hb.
    apply andb_prop in Ha as [_ Ha]. apply andb_prop in Hb as [_ Hb].
    destruct (IH b Ha Hb H) as [-> ->]. auto.
Qed.

Lemma makeKey_inj (s1 m1 s2 m2 x : string) :
  no_colon s1 = true -> no_colon s2 = true ->
  makeKey s1 m1 x = makeKey s2 m2 x -> s1 = s2 /\ m1 = m2.
Proof.
  unfold makeKey. intros H1 H2 H.
  destruct (colon_split s1 s2 _ _ H1 H2 H) as [-> H'].
  injection H' as H'. split; [reflexivity|].
  exact (string_app_inv_r m1 m2 _ H').
Qed.

(** C2 (amended): for a session [s], a model [md] and a tool name [n] that
    is non-empty and changed by [sanitizeToolName], looking the sanitized
    name up right after [setToolNameMapping(s, md, sanitizeToolName(n), n)],
    at most 30 minutes later, returns [n] (the cache holds at most 512
    entries, as every insertion keeps it).  A name [n] that is empty, or
    that [sanitizeToolName] leaves unchanged, is not stored: the call
    returns the cache as it was.  A mapping stored under
    [(s1, m1)] does not change the result of a lookup under another pair
    [(s2, m2)] when the session ids contain no ':' (hex digests and UUIDs)
    and the cache holds fewer than 512 entries. *)
Theorem tool_name_cache_roundtrip_and_isolation :
  (forall (s md n : string) (now t : Z) (st : tool_map),
      (List.length st <= MAX_ENTRIES)%nat ->
      n <> EmptyString ->
      sanitizeToolName (JSString n) <> n ->
      (t - now <= ENTRY_TTL_MS)%Z ->
      fst (getOriginalToolName s md (sanitizeToolName (JSString n)) t
             (setToolNameMapping s md (sanitizeToolName (JSString n)) n now st)) = Some n) /\
  (forall (s md n : string) (now : Z) (st : tool_map),
      (n = EmptyString \/ sanitizeToolName (JSString n) = n) ->
      setToolNameMapping s md (sanitizeToolName (JSString n)) n now st = st) /\
  (forall (s1 m1 s2 m2 safe orig : string) (now t : Z) (st : tool_map),
      no_colon s1 = true -> no_colon s2 = true ->
      (s1 <> s2 \/ m1 <> m2) ->
      (List.length st < MAX_ENTRIES)%nat ->
      fst (getOriginalToolName s2 m2 safe t (setToolNameMapping s1 m1 safe orig now st)) =
      fst (getOriginalToolName s2 m2 safe t st)).
Proof.
  split; [|split].
  - intros s md n now t st Hlen Hn Hsan Ht.
    destruct (sanitizeToolName_props (JSString n)) as [Hne _].
    set (safe := sanitizeToolName (JSString n)) in *.
    unfold setToolNameMapping.
    replace (String.eqb safe "") with false by (symmetry; now apply String.eqb_neq).
    replace (String.eqb n "") with false by (symmetry; now apply String.eqb_neq).
    replace (String.eqb safe n) with false by (symmetry; now apply String.eqb_neq).
    simpl orb. cbv iota.
    unfold getOriginalToolName.
    replace (String.eqb safe "") with false by (symmetry; now apply String.eqb_neq).
    rewrite map_get_after_insert by exact Hlen. simpl.
    replace (t - now >? ENTRY_TTL_MS)%Z with false
      by (symmetry; rewrite Z.gtb_ltb; apply Z.ltb_ge; exact Ht).
    replace (String.eqb n "") with false by (symmetry; now apply String.eqb_neq).
    reflexivity.
  - intros s md n now st [-> | E]; unfold setToolNameMapping.
    + cbn [String.eqb]. rewrite orb_true_r. reflexivity.
    + rewrite E, String.eqb_refl, !orb_true_r. reflexivity.
  - intros s1 m1 s2 m2 safe orig now t st Hs1 Hs2 Hdiff Hlen.
    assert (Hk : makeKey s2 m2 safe <> makeKey s1 m1 safe).
    { intros E. destruct (makeKey_inj _ _ _ _ _ Hs2 Hs1 E) as [-> ->].
      destruct Hdiff; contradiction. }
    unfold setToolNameMapping.
    destruct (String.eqb safe "" || String.eqb orig "" || String.eqb safe orig);
      [reflexivity|].
    rewrite pruneSize_small.
    2:{ destruct (map_get (makeKey s1 m1 safe) st) eqn:E.
        - rewrite map_set_length_present by (rewrite E; discriminate). lia.
        - rewrite map_set_absent by exact E. rewrite length_app. simpl. lia. }
    unfold getOriginalToolName.
    destruct (String.eqb safe ""); [reflexivity|].
    rewrite map_get_set_other by exact Hk.
    destruct (map_get (makeKey s2 m2 safe) st) as [e|]; [|reflexivity].
    destruct (t - ts e >? ENTRY_TTL_MS)%Z; reflexivity.
Qed.

Lemma tool_name_cache_roundtrip_witness :
  ((List.length (@nil (string * tool_entry)) <= MAX_ENTRIES)%nat /\
   fst (getOriginalToolName "sess" "m" (sanitizeToolName (JSString "my.tool!")) 1000
          (setToolNameMapping "sess" "m" (sanitizeToolName (JSString "my.tool!"))
             "my.tool!" 0 [])) = Some "my.tool!") /\
  (sanitizeToolName (JSString "foo") = "foo" /\
   setToolNameMapping "s" "m" (sanitizeToolName (JSString "foo")) "foo" 0 [] = []) /\
  ((List.length (@nil (string * tool_entry)) < MAX_ENTRIES)%nat /\
   fst (getOriginalToolName "s2" "m" "x_y" 0
          (setToolNameMapping "s1" "m" "x_y" "x.y" 0 [])) =
   fst (getOriginalToolName "s2" "m" "x_y" 0 [])).
Proof.
  split; [split|split; split].
  - simpl. unfold MAX_ENTRIES. lia.
  - apply (proj1 tool_name_cache_roundtrip_and_isolation).
    + simpl. unfold MAX_ENTRIES. lia.
    + discriminate.
    + intros E. vm_compute in E. discriminate E.
    + unfold ENTRY_TTL_MS. lia.
  - vm_compute. reflexivity.
  - apply (proj1 (proj2 tool_name_cache_roundtrip_and_isolation)).
    right. vm_compute. reflexivity.
  - simpl. unfold MAX_ENTRIES. lia.
  - apply (proj2 (proj2 tool_name_cache_roundtrip_and_isolation)).
    + reflexivity.
    + reflexivity.
    + left. discriminate.
    + simpl. unfold MAX_ENTRIES. lia.
Defined.

(** C2 as stated fails: a name that [sanitizeToolName] leaves unchanged
    ("foo"), and the empty name, are never stored, so the lookup gives
    [null]; session ids containing "::" make two pairs share a key; and at
    the 512-entry bound an insertion for one session evicts the oldest
    entry, which may belong to another session. *)
Lemma tool_name_cache_counterexample :
  fst (getOriginalToolName "s" "m" (sanitizeToolName (JSString "foo")) 0
         (setToolNameMapping "s" "m" (sanitizeToolName (JSString "foo")) "foo" 0 [])) = None /\
  fst (getOriginalToolName "s" "m" (sanitizeToolName (JSString "")) 0
         (setToolNameMapping "s" "m" (sanitizeToolName (JSString "")) "" 0 [])) = None /\
  fst (getOriginalToolName "a" "b::m" "x_y" 0 []) = None /\
  fst (getOriginalToolName "a" "b::m" "x_y" 0
         (setToolNameMapping "a::b" "m" "x_y" "x.y" 0 [])) = Some "x.y" /\
  fst (getOriginalToolName "s2" "m" "t0" 0 full_tool_map) = Some "orig" /\
  fst (getOriginalToolName "s2" "m" "t0" 0
         (setToolNameMapping "s1" "m" "x_y" "x.y" 0 full_tool_map)) = None.
Proof. vm_compute. repeat split. Qed.

Lemma mapModelName_witness :
  (String.length "20250929" = 8 /\ all_digits "20250929" = true /\
   mapModelName ("claude-sonnet-4-5" ++ String "-" "20250929") = "claude-sonnet-4-5") /\
  (includes "haiku" (to_lower "Claude-3-Haiku") = true /\
   mapModelName "Claude-3-Haiku" = "gemini-2.5-flash-lite").
Proof.
  split; split; [reflexivity| |reflexivity|].
  - split; [reflexivity|].
    rewrite (proj1 mapModelName_date_suffix_and_haiku
               "claude-sonnet-4-5" "20250929" eq_refl eq_refl).
    reflexivity.
  - apply (proj2 mapModelName_date_suffix_and_haiku). reflexivity.
Defined.

Example sha256_empty :
  Sha256.digest_hex [] =
  "e3b0c44298fc1c149afbf4c8996fb92427ae41e4649b934ca495991b7852b855".
Proof. vm_compute. reflexivity. Qed.
Example sha256_abc :
  Sha256.digest_hex (utf8_encode "abc") =
  "ba7816bf8f01cfea414140de5dae2223b00361a396177a9cb410ff61f20015ad".
Proof. vm_compute. reflexivity. Qed.
Example sha256_two_blocks :
  Sha256.digest_hex (utf8_encode "abcdbcdecdefdefgefghfghighijhijkijkljklmklmnlmnomnopnopq") =
  "248d6a61d20638b8e5c026930c3e6039a33ce45964ff2167f6ecedd419db06c1".
Proof. vm_compute. reflexivity. Qed.
Example sha256_utf8 :
  Sha256.digest_hex (utf8_encode (String "h" (String (ascii_of_nat 233) "llo"))) =
  "3c48591d8d098a4538f5e013dfcf406e948eac4d3277b10bf614e295d6068179".
Proof. vm_compute. reflexivity. Qed.
Example sha256_long :
  Sha256.digest_hex (repeat 120%Z 100) =
  "09ecb6ebc8bcefc733f6f2ec44f791abeed6a99edf0cc31519637898aebd52d8".
Proof. vm_compute. reflexivity. Qed.

(* ------------------------------------------------------------------ *)
(** ** Session ids *)

Lemma round_length (st : list Z) (kw : Z * Z) :
  List.length (Sha256.round st kw) = List.length st.
Proof.
  destruct st as [|a [|b [|c [|d [|e [|f [|g [|h [|i st]]]]]]]]]; reflexivity.
Qed.

Lemma fold_round_length (l : list (Z * Z)) (st : list Z) :
  List.length (fold_left Sha256.round l st) = List.length st.
Proof.
  revert st; induction l as [|kw l IH]; intros st; simpl; [reflexivity|].
  now rewrite IH, round_length.
Qed.

Lemma compress_length (hs block : list Z) :
  List.length (Sha256.compress hs block) = List.length hs.
Proof.
  unfold Sha256.compress. rewrite length_map, length_combine, fold_round_length. lia.
Qed.

Lemma digest_length (msg : list Z) : List.length (Sha256.digest msg) = 8%nat.
Proof.
  unfold Sha256.digest.
  generalize (Sha256.to_blocks (List.length (Sha256.pad msg)) (Sha256.pad msg)).
  intros bs. assert (H : List.length Sha256.H0 = 8%nat) by reflexivity.
  revert H. generalize Sha256.H0. induction bs as [|b bs IH]; intros hs H; simpl; auto.
  apply IH. now rewrite compress_length.
Qed.

Lemma all_in_app (alph : list ascii) (a b : string) :
  all_in alph a -> all_in alph b -> all_in alph (a ++ b).
Proof. induction a as [|c a IH]; simpl; tauto. Qed.

Lemma hex_digit_in (n : Z) : (0 <= n < 16)%Z -> In (Sha256.hex_digit n) hex_alphabet.
Proof.
  intros Hn. replace n with (Z.of_nat (Z.to_nat n)) by lia.
  assert (Hk : (Z.to_nat n < 16)%nat) by lia.
  generalize (Z.to_nat n) Hk. clear n Hn Hk. intros k Hk.
  do 16 (destruct k as [|k]; [vm_compute; tauto|]). lia.
Qed.

Lemma fold_string_ok (g : nat -> ascii) (l : list nat) :
  (forall i, In (g i) hex_alphabet) ->
  String.length (fold_right (fun i acc => String (g i) acc) EmptyString l) = List.length l /\
  all_in hex_alphabet (fold_right (fun i acc => String (g i) acc) EmptyString l).
Proof.
  intros Hg. induction l as [|i l [IH1 IH2]]; cbn [fold_right String.length List.length all_in];
    [tauto|].
  split; [now rewrite IH1 | split; [apply Hg | exact IH2]].
Qed.

Lemma word_hex_ok (w : Z) :
  String.length (Sha256.word_hex w) = 8%nat /\ all_in hex_alphabet (Sha256.word_hex w).
Proof.
  unfold Sha256.word_hex. apply fold_string_ok.
  intros i. apply hex_digit_in.
  change 15%Z with (Z.ones 4). rewrite Z.land_ones by lia.
  apply Z.mod_pos_bound. lia.
Qed.

Lemma digest_hex_ok (msg : list Z) :
  String.length (Sha256.digest_hex msg) = 64%nat /\ all_in hex_alphabet (Sha256.digest_hex msg).
Proof.
  unfold Sha256.digest_hex.
  replace 64%nat with (8 * List.length (Sha256.digest msg))%nat by (rewrite digest_length; reflexivity).
  generalize (Sha256.digest msg). intros ws.
  induction ws as [|w ws [IH1 IH2]]; cbn [fold_right List.length]; [simpl; tauto|].
  destruct (word_hex_ok w) as [H1 H2].
  split.
  - rewrite string_length_app, H1, IH1. lia.
  - now apply all_in_app.
Qed.

Lemma substring_0_all_in (alph : list ascii) (n : nat) (s : string) :
  all_in alph s -> all_in alph (substring 0 n s).
Proof.
  revert n; induction s as [|c s IH]; intros n H; destruct n; simpl in *; try tauto.
  split; [tauto | apply IH; tauto].
Qed.

Lemma session_hash_format (t : string) :
  String.length (session_hash t) = 32%nat /\ all_in hex_alphabet (session_hash t).
Proof.
  unfold session_hash. destruct (digest_hex_ok (utf8_encode t)) as [H1 H2]. split.
  - rewrite substring_0_length, H1. reflexivity.
  - now apply substring_0_all_in.
Qed.

Lemma length_flat_map_const {A B} (f : A -> list B) (k : nat) (l : list A) :
  (forall x, List.length (f x) = k) -> List.length (flat_map f l) = (List.length l * k)%nat.
Proof.
  intros Hf. induction l as [|x l IH]; simpl; [reflexivity|].
  rewrite length_app, Hf, IH. reflexivity.
Qed.

Lemma all_strings_length (alph : list ascii) (n : nat) :
  List.length (all_strings alph n) = (List.length alph ^ n)%nat.
Proof.
  induction n as [|n IH]; simpl; [reflexivity|].
  rewrite (length_flat_map_const _ (List.length alph ^ n)).
  - reflexivity.
  - intros c. now rewrite length_map.
Qed.

Lemma all_strings_in (alph : list ascii) (s : string) :
  all_in alph s -> In s (all_strings alph (String.length s)).
Proof.
  induction s as [|c s IH]; simpl; [auto|]. intros [Hc Hs].
  apply in_flat_map. exists c. split; [exact Hc|]. apply in_map. now apply IH.
Qed.

Lemma all_strings_of_length (alph : list ascii) (n : nat) (s : string) :
  In s (all_strings alph n) -> String.length s = n.
Proof.
  revert s; induction n as [|n IH]; intros s; simpl.
  - intros [<-|[]]. reflexivity.
  - intros H. apply in_flat_map in H as [c [_ H]]. apply in_map_iff in H as [s' [<- H]].
    simpl. now rewrite (IH s' H).
Qed.

Lemma flat_map_prefix_nodup (L : list string) (cs : list ascii) :
  NoDup L -> NoDup cs -> NoDup (flat_map (fun c => map (String c) L) cs).
Proof.
  intros HL Ha. induction Ha as [|c cs Hc Hcs IHcs]; simpl; [constructor|].
  apply NoDup_app.
  - apply NoDup_map_NoDup_ForallPairs; [|exact HL].
    intros x y _ _ E. now injection E.
  - exact IHcs.
  - intros a Ha1 Ha2. apply in_map_iff in Ha1 as [x [<- _]].
    apply in_flat_map in Ha2 as [c' [Hc' Hx]]. apply in_map_iff in Hx as [y [E _]].
    injection E as -> _. contradiction.
Qed.

Lemma all_strings_nodup (alph : list ascii) (n : nat) :
  NoDup alph -> NoDup (all_strings alph n).
Proof.
  intros Ha. induction n as [|n IH]; simpl.
  - constructor; [simpl; tauto | constructor].
  - now apply flat_map_prefix_nodup.
Qed.

Lemma hex_alphabet_nodup : NoDup hex_alphabet.
Proof.
  unfold hex_alphabet. simpl.
  repeat constructor; simpl; intuition discriminate.
Qed.

(** C3 (amended): the session id is computed from the first user text.
    OpenAI: the first message with role "user" and non-empty text (the
    string content, or the text blocks joined by newlines) gives
    [sha256(text)] in hex, cut to its first 32 characters; Gemini: the
    first non-empty text part of the first "user" content having one gives
    the same.  With no user text the id is the random UUID.  The id is a
    string of 32 lowercase hex digits; equal first texts give equal ids. *)
Theorem session_id_derivation :
  (forall (pre : list openai_message) (msg : openai_message) post uuid,
      forallb (fun m => negb (has_user_text_openai m)) pre = true ->
      has_user_text_openai msg = true ->
      deriveSessionId_openai (pre ++ msg :: post) uuid =
      session_hash (user_content_text (msg_content msg))) /\
  (forall (msgs : list openai_message) uuid,
      forallb (fun m => negb (has_user_text_openai m)) msgs = true ->
      deriveSessionId_openai msgs uuid = uuid) /\
  (forall (pre : list gemini_content) (c : gemini_content) post parts t uuid,
      forallb (fun c => negb (has_user_text_gemini c)) pre = true ->
      gc_role c = "user" -> gc_parts c = Some parts -> first_text_part parts = Some t ->
      deriveSessionId_gemini (pre ++ c :: post) uuid = session_hash t) /\
  (forall (cs : list gemini_content) uuid,
      forallb (fun c => negb (has_user_text_gemini c)) cs = true ->
      deriveSessionId_gemini cs uuid = uuid) /\
  (forall t : string,
      String.length (session_hash t) = 32%nat /\ all_in hex_alphabet (session_hash t)).
Proof.
  repeat split.
  - intros pre msg post uuid Hpre Hmsg. induction pre as [|m pre IH]; simpl.
    + unfold has_user_text_openai in Hmsg. apply andb_prop in Hmsg as [-> Hc].
      now rewrite Hc.
    + simpl in Hpre. apply andb_prop in Hpre as [Hm Hpre].
      unfold has_user_text_openai in Hm.
      destruct (String.eqb (msg_role m) "user"); [|now apply IH].
      destruct (String.eqb (user_content_text (msg_content m)) ""); [|discriminate].
      now apply IH.
  - intros msgs uuid H. induction msgs as [|m msgs IH]; simpl; [reflexivity|].
    simpl in H. apply andb_prop in H as [Hm H].
    unfold has_user_text_openai in Hm.
    destruct (String.eqb (msg_role m) "user"); [|now apply IH].
    destruct (String.eqb (user_content_text (msg_content m)) ""); [|discriminate].
    now apply IH.
  - intros pre c post parts t uuid Hpre Hrole Hparts Ht.
    induction pre as [|c' pre IH]; simpl.
    + now rewrite Hparts, Hrole, Ht.
    + simpl in Hpre. apply andb_prop in Hpre as [Hc Hpre].
      unfold has_user_text_gemini in Hc.
      destruct (gc_parts c') as [ps|]; [|now apply IH].
      destruct (String.eqb (gc_role c') "user"); [|now apply IH].
      destruct (first_text_part ps); [discriminate | now apply IH].
  - intros cs uuid H. induction cs as [|c cs IH]; simpl; [reflexivity|].
    simpl in H. apply andb_prop in H as [Hc H].
    unfold has_user_text_gemini in Hc.
    destruct (gc_parts c) as [ps|]; [|now apply IH].
    destruct (String.eqb (gc_role c) "user"); [|now apply IH].
    destruct (first_text_part ps); [discriminate | now apply IH].
  - apply session_hash_format.
  - apply session_hash_format.
Qed.

(** C3 as stated fails on "any change to that text changes the id": the id
    has 16^32 possible values, so among the 16^33 texts of 33 hex digits
    two distinct ones share their id (pigeonhole). *)
Lemma session_id_collision :
  ~ (forall t1 t2 : string, t1 <> t2 ->
       deriveSessionId_openai [mk_message "user" (ContentString t1)] "" <>
       deriveSessionId_openai [mk_message "user" (ContentString t2)] "").
Proof.
  intros Hinj.
  set (f := fun t => deriveSessionId_openai [mk_message "user" (ContentString t)] "").
  set (A := all_strings hex_alphabet 33).
  assert (Hf : forall t, In t A -> f t = session_hash t).
  { intros t Ht. apply all_strings_of_length in Ht.
    unfold f; simpl. destruct t as [|c t]; [discriminate Ht|]. reflexivity. }
  assert (Hnd : NoDup (map f A)).
  { apply NoDup_map_NoDup_ForallPairs.
    - intros x y _ _ E. destruct (string_dec x y) as [|Hne]; [assumption|].
      exfalso. exact (Hinj x y Hne E).
    - apply all_strings_nodup, hex_alphabet_nodup. }
  assert (Hincl : incl (map f A) (all_strings hex_alphabet 32)).
  { intros s Hs. apply in_map_iff in Hs as [t [<- Ht]]. rewrite (Hf t Ht).
    destruct (session_hash_format t) as [Hl Hh].
    rewrite <- Hl. now apply all_strings_in. }
  pose proof (NoDup_incl_length Hnd Hincl) as Hle.
  rewrite length_map in Hle. unfold A in Hle. rewrite !all_strings_length in Hle.
  assert (H16 : List.length hex_alphabet = 16%nat) by reflexivity.
  rewrite H16 in Hle.
  assert (Hlt : (16 ^ 32 < 16 ^ 33)%nat) by (apply Nat.pow_lt_mono_r; lia).
  lia.
Qed.

Lemma session_id_derivation_witness :
  deriveSessionId_openai
    ([mk_message "system" (ContentString "be brief"); mk_message "user" (ContentString "")] ++
     mk_message "user" (ContentString "hi") :: []) "uuid" = session_hash "hi" /\
  deriveSessionId_openai [mk_message "assistant" (ContentString "x")] "uuid" = "uuid" /\
  deriveSessionId_gemini
    ([mk_gcontent "model" (Some [mk_gpart (Some "x")])] ++
     mk_gcontent "user" (Some [mk_gpart None; mk_gpart (Some "hi")]) :: []) "uuid" =
  session_hash "hi" /\
  deriveSessionId_gemini [mk_gcontent "user" None] "uuid" = "uuid".
Proof.
  split; [|split; [|split]].
  - apply (proj1 session_id_derivation); reflexivity.
  - apply (proj1 (proj2 session_id_derivation)); reflexivity.
  - apply (proj1 (proj2 (proj2 session_id_derivation))) with
      (parts := [mk_gpart None; mk_gpart (Some "hi")]); reflexivity.
  - apply (proj1 (proj2 (proj2 (proj2 session_id_derivation)))); reflexivity.
Defined.

(* ------------------------------------------------------------------ *)
(** ** Reading an SSE body *)

Lemma string_app_assoc (a b c : string) : a ++ (b ++ c) = (a ++ b) ++ c.
Proof. induction a as [|x a IH]; simpl; congruence. Qed.

Lemma split_nl_nonempty (s : string) : split_nl s <> [].
Proof.
  destruct s as [|c s]; simpl; [discriminate|].
  destruct (Ascii.eqb c "010"%char); [discriminate|].
  destruct (split_nl s); discriminate.
Qed.

Lemma split_nl_app (x y : string) :
  split_nl (x ++ y) =
  (removelast (split_nl x) ++ split_nl (last (split_nl x) EmptyString ++ y))%list.
Proof.
  induction x as [|c x IH]; [reflexivity|].
  change (String c x ++ y) with (String c (x ++ y)).
  cbn [split_nl]. rewrite IH.
  pose proof (split_nl_nonempty x) as Hne.
  destruct (split_nl x) as [|s1 rest]; [contradiction|].
  destruct (Ascii.eqb c "010"%char) eqn:E.
  - destruct rest; reflexivity.
  - destruct rest as [|s2 rest].
    + cbn [removelast last app]. simpl. rewrite E. reflexivity.
    + reflexivity.
Qed.

Lemma last_split_nl (s : string) : has_newline (last (split_nl s) EmptyString) = false.
Proof.
  induction s as [|c s IH]; [reflexivity|].
  cbn [split_nl]. pose proof (split_nl_nonempty s) as Hne.
  destruct (Ascii.eqb c "010"%char) eqn:E.
  - destruct (split_nl s) as [|h t]; [contradiction|].
    destruct t; exact IH.
  - destruct (split_nl s) as [|h t]; [contradiction|].
    destruct t as [|h' t].
    + simpl in *. now rewrite E, IH.
    + exact IH.
Qed.

Lemma split_nl_no_newline (s : string) : has_newline s = false -> split_nl s = [s].
Proof.
  induction s as [|c s IH]; [reflexivity|].
  simpl. intros H. apply orb_false_iff in H as [Hc Hs].
  rewrite Hc, (IH Hs). reflexivity.
Qed.

(** The loop hands its handler exactly the complete lines of the body:
    every piece of [body.split('\n')] but the last. *)
Lemma sse_lines_complete (chunks : list string) (buffer : string) :
  has_newline buffer = false ->
  sse_lines chunks buffer = removelast (split_nl (buffer ++ body_text chunks)).
Proof.
  revert buffer. induction chunks as [|c cs IH]; intros buffer Hb.
  - simpl. rewrite string_app_empty_r, (split_nl_no_newline _ Hb). reflexivity.
  - simpl. rewrite IH by apply last_split_nl.
    rewrite string_app_assoc, (split_nl_app (buffer ++ c)).
    rewrite removelast_app by apply split_nl_nonempty. reflexivity.
Qed.

Lemma read_lines_fold {S} (f : S -> string -> S) (chunks : list string) (buffer : string) (s : S) :
  read_lines f chunks buffer s = fold_left f (sse_lines chunks buffer) s.
Proof.
  revert buffer s. induction chunks as [|c cs IH]; intros buffer s; [reflexivity|].
  simpl. rewrite IH, fold_left_app. reflexivity.
Qed.

Lemma fold_left_invariant {A B} (P : A -> Prop) (f : A -> B -> A) :
  (forall a b, P a -> P (f a b)) -> forall l a, P a -> P (fold_left f l a).
Proof. intros Hf l. induction l as [|b l IH]; intros a Ha; simpl; auto. Qed.

(* ------------------------------------------------------------------ *)
(** ** accumulateSSEResponse followed by convertGoogleToOpenAI *)

Lemma accumulate_lines (JSON_parse : string -> option sse_payload) (lines : list string) (a : accum_state) :
  fold_left (accumulate_line JSON_parse) lines a =
  fold_left accumulate_response (sse_responses JSON_parse lines) a.
Proof.
  revert a. induction lines as [|l ls IH]; intros a; [reflexivity|].
  simpl. unfold accumulate_line at 2. destruct (line_response JSON_parse l); simpl; apply IH.
Qed.

Ltac solve_core :=
  repeat (match goal with |- context [String.eqb ?x ?y] => is_var x; destruct (String.eqb x y) end;
          cbn);
  reflexivity.

Lemma accumulate_part_core (a b : accum_state) (p : google_part) :
  accum_core a = accum_core b -> accum_core (accumulate_part a p) = accum_core (accumulate_part b p).
Proof.
  destruct a as [fa ua ra ta sa xa], b as [fb ub rb tb sb xb].
  unfold accum_core; simpl. intros H. injection H as -> -> -> ->.
  destruct p as [[|] [t|] [sg|] [fc|]];
    unfold accumulate_part, flushText, flushThinking; cbn; solve_core.
Qed.

Lemma accumulate_part_finish (a : accum_state) (p : google_part) :
  acc_finishReason (accumulate_part a p) = acc_finishReason a.
Proof.
  destruct a as [fa ua ra ta sa xa].
  destruct p as [[|] [t|] [sg|] [fc|]];
    unfold accumulate_part, flushText, flushThinking; cbn; solve_core.
Qed.

Lemma fold_parts_core (ps : list google_part) (a b : accum_state) :
  accum_core a = accum_core b ->
  accum_core (fold_left accumulate_part ps a) = accum_core (fold_left accumulate_part ps b).
Proof.
  revert a b. induction ps as [|p ps IH]; intros a b H; simpl; [exact H|].
  apply IH, accumulate_part_core, H.
Qed.

Lemma fold_parts_finish (ps : list google_part) (a : accum_state) :
  acc_finishReason (fold_left accumulate_part ps a) = acc_finishReason a.
Proof.
  revert a. induction ps as [|p ps IH]; intros a; simpl; [reflexivity|].
  rewrite IH. apply accumulate_part_finish.
Qed.

Lemma fold_responses_core (rs : list google_response) (a : accum_state) :
  accum_core (fold_left accumulate_response rs a) =
  accum_core (fold_left accumulate_part (concat (map response_parts rs)) a).
Proof.
  revert a. induction rs as [|r rs IH]; intros a; [reflexivity|].
  simpl. rewrite IH, fold_left_app. apply fold_parts_core.
  unfold accumulate_response. apply fold_parts_core.
  destruct a as [fa ua ra ta sa xa].
  destruct (usageMetadata r); simpl; destruct (truthy_str _); reflexivity.
Qed.

Lemma fold_responses_finish (rs : list google_response) (a : accum_state) :
  acc_finishReason a = "STOP" -> forallb finish_is_stop rs = true ->
  acc_finishReason (fold_left accumulate_response rs a) = "STOP".
Proof.
  revert a. induction rs as [|r rs IH]; intros a Ha Hrs; simpl in *; [exact Ha|].
  apply andb_prop in Hrs as [Hr Hrs]. apply IH; [|exact Hrs].
  unfold accumulate_response. rewrite fold_parts_finish.
  unfold finish_is_stop in Hr.
  destruct (usageMetadata r); simpl;
    destruct (cand_finishReason (first_candidate r)) as [f|]; simpl; try exact Ha;
    destruct (String.eqb f "") eqn:E1; simpl; try exact Ha;
    apply String.eqb_eq; exact Hr.
Qed.

(** C1: on the non-streaming thinking path, a body whose [data:] lines
    carry, in this order, a thought part with text "ok " and a plain text
    part with text "hello", and no finish reason other than STOP, is turned
    into a response whose content is "hello", whose reasoning_content is
    "ok ", whose finish_reason is "stop", and whose model is the requested
    model name.  The body may be cut into chunks anywhere. *)
Theorem thinking_non_streaming_response :
  forall (JSON_parse : string -> option sse_payload) (chunks : list string)
         (sig1 sig2 : option string) (originalModel sessionId : string)
         (now : Z) (st : proxy_state),
    let rs := sse_responses JSON_parse (removelast (split_nl (body_text chunks))) in
    concat (map response_parts rs) =
      [mk_part true (Some "ok ") sig1 None; mk_part false (Some "hello") sig2 None] ->
    forallb finish_is_stop rs = true ->
    let r := fst (convertGoogleToOpenAI (accumulateSSEResponse JSON_parse chunks)
                    originalModel sessionId now st) in
    out_content (resp_message r) = Some "hello" /\
    out_reasoning_content (resp_message r) = Some "ok " /\
    resp_finish_reason r = "stop" /\
    resp_model r = originalModel.
Proof.
  intros JSON_parse chunks sig1 sig2 originalModel sessionId now st rs Hparts Hfin r.
  unfold r, accumulateSSEResponse.
  rewrite read_lines_fold, accumulate_lines.
  rewrite sse_lines_complete by reflexivity.
  change ("" ++ body_text chunks) with (body_text chunks). fold rs.
  pose proof (fold_responses_core rs accum_init) as Hc.
  pose proof (fold_responses_finish rs accum_init eq_refl Hfin) as Hf.
  rewrite Hparts in Hc.
  destruct (fold_left accumulate_response rs accum_init) as [fp u fr tt ts tx].
  simpl in Hf. subst fr.
  unfold accum_core in Hc. cbn in Hc. injection Hc as -> -> -> ->.
  vm_compute. repeat split.
Qed.

Lemma thinking_non_streaming_witness :
  let rs := sse_responses sample_parse (removelast (split_nl (body_text sample_body))) in
  (concat (map response_parts rs) =
     [mk_part true (Some "ok ") (Some "sig") None; mk_part false (Some "hello") None None] /\
   forallb finish_is_stop rs = true) /\
  (let r := fst (convertGoogleToOpenAI (accumulateSSEResponse sample_parse sample_body)
                   "gemini-2.5-pro-thinking" "sid" 0 (mk_state [] [])) in
   out_content (resp_message r) = Some "hello" /\
   out_reasoning_content (resp_message r) = Some "ok " /\
   resp_finish_reason r = "stop" /\
   resp_model r = "gemini-2.5-pro-thinking").
Proof.
  split; [split; vm_compute; reflexivity|].
  apply (thinking_non_streaming_response sample_parse sample_body (Some "sig") None);
    vm_compute; reflexivity.
Defined.

(* ------------------------------------------------------------------ *)
(** ** streamGoogleToOpenAI *)

Lemma emit_no_finish cid model s d : no_finish s -> no_finish (emit cid model s d).
Proof.
  unfold no_finish, emit; simpl. intros H. apply Forall_app. split; [exact H|].
  constructor; [reflexivity | constructor].
Qed.

Lemma stream_part_no_finish cid model sid now s p :
  no_finish s -> no_finish (stream_part cid model sid now s p).
Proof.
  intros H. unfold stream_part.
  destruct (part_thought p).
  - destruct (String.eqb _ _); [exact H | apply emit_no_finish, H].
  - destruct (truthy_str (part_text p)); [apply emit_no_finish, H|].
    destruct (part_functionCall p) as [fc|]; [|exact H].
    destruct (restore_name _ _ _ _ _). exact H.
Qed.

Lemma stream_response_no_finish cid model sid now s r :
  no_finish s -> no_finish (stream_response cid model sid now s r).
Proof.
  intros H. unfold stream_response. cbv zeta.
  match goal with |- context [fold_left _ _ ?X] => assert (HX : no_finish X) end.
  { destruct (usageMetadata r); destruct (_ && _); try exact H;
      exact (emit_no_finish cid model _ DeltaStart H). }
  pose proof (fold_left_invariant no_finish _ (stream_part_no_finish cid model sid now)
                (candidate_parts (first_candidate r)) _ HX) as HF.
  destruct (truthy_str _); exact HF.
Qed.

(** C10: whatever the body, including one with no parseable [data:] line,
    streamGoogleToOpenAI yields at least one chunk; the last chunk carries a
    finish_reason and a usage whose total_tokens is prompt_tokens plus
    completion_tokens, and no earlier chunk carries a finish_reason. *)
Theorem streamGoogleToOpenAI_final_chunk :
  forall (JSON_parse : string -> option sse_payload) (completionId originalModel sessionId : string)
         (now : Z) (chunks : list string) (st : proxy_state),
    exists pre final u,
      fst (streamGoogleToOpenAI JSON_parse completionId originalModel sessionId now chunks st) =
        (pre ++ [final])%list /\
      Forall (fun c => chunk_finish_reason c = None) pre /\
      chunk_finish_reason final <> None /\
      chunk_usage final = Some u /\
      total_tokens u = (prompt_tokens u + completion_tokens u)%Z.
Proof.
  intros JSON_parse cid model sid now chunks st.
  unfold streamGoogleToOpenAI.
  set (s := read_lines _ chunks "" _).
  assert (Hs : no_finish s).
  { unfold s. rewrite read_lines_fold.
    apply fold_left_invariant; [|constructor].
    intros a l Ha. unfold stream_line. destruct (line_response JSON_parse l); [|exact Ha].
    apply stream_response_no_finish, Ha. }
  set (s1 := match pendingToolCalls s with [] => s | _ => _ end).
  assert (Hs1 : no_finish s1).
  { unfold s1. destruct (pendingToolCalls s); [exact Hs | apply emit_no_finish, Hs]. }
  eexists (yielded s1), _, _. simpl. split; [reflexivity|].
  split; [exact Hs1|]. split; [discriminate|]. split; reflexivity.
Qed.

(* ------------------------------------------------------------------ *)
(** ** Caching thought signatures on the way out *)

Lemma tool_call_id_nonempty (fc : function_call) : tool_call_id fc <> "".
Proof.
  unfold tool_call_id, truthy_str, or_empty.
  destruct (fc_id fc) as [id|]; [|discriminate].
  destruct (String.eqb id "") eqn:E; simpl; [discriminate|].
  apply String.eqb_neq, E.
Qed.

Lemma cacheSignature_set (id s : string) (now : Z) (m : sig_map) :
  id <> "" -> s <> "" -> cacheSignature id s now m = sig_set id (mk_sig_entry s now) m.
Proof.
  intros Hid Hs. unfold cacheSignature.
  apply String.eqb_neq in Hid, Hs. now rewrite Hid, Hs.
Qed.

Lemma sig_get_set_same (k : string) (v : sig_entry) (m : sig_map) :
  sig_get k (sig_set k v m) = Some v.
Proof.
  induction m as [|[k' v'] m IH]; simpl; [now rewrite String.eqb_refl|].
  destruct (String.eqb k k') eqn:E; simpl; [now rewrite E | rewrite E; exact IH].
Qed.

(** C6 (amended): on the OpenAI paths (convertGoogleToOpenAI and
    streamGoogleToOpenAI) a function-call part's non-empty thoughtSignature
    is stored under the id of the tool call emitted for it (the part's id,
    or the generated [call_...] id when it has none) exactly when it is at
    least 50 characters long; in the streaming path this holds for a part
    with no text of its own.  On the Gemini path (processParts) it is stored
    under the function call's id exactly when it is at least 50 characters
    long and the function call has a non-empty id.  A shorter signature is
    never stored, and a stored signature is found under its id. *)
Theorem signature_caching :
  (forall sessionId model now acc st part fc s,
      part_thought part = false -> part_functionCall part = Some fc ->
      part_thoughtSignature part = Some s -> s <> "" ->
      let res := convert_part sessionId model now (acc, st) part in
      (exists call, toolCalls (fst res) = (toolCalls acc ++ [call])%list /\
                    tc_id call = tool_call_id fc) /\
      signatures (snd res) =
        (if (MIN_SIGNATURE_LENGTH <=? String.length s)%nat
         then sig_set (tool_call_id fc) (mk_sig_entry s now) (signatures st)
         else signatures st)) /\
  (forall completionId model sessionId now ss part fc s,
      part_thought part = false -> truthy_str (part_text part) = false ->
      part_functionCall part = Some fc ->
      part_thoughtSignature part = Some s -> s <> "" ->
      let res := stream_part completionId model sessionId now ss part in
      (exists call, pendingToolCalls res = (pendingToolCalls ss ++ [call])%list /\
                    tc_id call = tool_call_id fc) /\
      signatures (stream_store res) =
        (if (MIN_SIGNATURE_LENGTH <=? String.length s)%nat
         then sig_set (tool_call_id fc) (mk_sig_entry s now) (signatures (stream_store ss))
         else signatures (stream_store ss))) /\
  (forall sessionId modelName now st part fc s,
      part_functionCall part = Some fc -> part_thoughtSignature part = Some s -> s <> "" ->
      signatures (snd (process_part sessionId modelName now st part)) =
        (if (MIN_SIGNATURE_LENGTH <=? String.length s)%nat && truthy_str (fc_id fc)
         then sig_set (or_empty (fc_id fc)) (mk_sig_entry s now) (signatures st)
         else signatures st)) /\
  (forall fc, tool_call_id fc <> "") /\
  (forall k v m, sig_get k (sig_set k v m) = Some v).
Proof.
  split; [|split; [|split; [|split]]].
  - intros sid model now acc st part fc s Ht Hf Hs Hne res. unfold res, convert_part.
    rewrite Ht, Hf, Hs. destruct (restore_name _ _ _ _ _) as [name tm].
    cbn [fst snd toolCalls signatures pendingToolCalls stream_store].
    split; [eexists; split; reflexivity|].
    unfold cache_if_long. apply String.eqb_neq in Hne as Hne'. rewrite Hne'. cbn [negb andb].
    destruct (MIN_SIGNATURE_LENGTH <=? String.length s)%nat; [|reflexivity].
    apply cacheSignature_set; [apply tool_call_id_nonempty | exact Hne].
  - intros cid model sid now ss part fc s Ht Htx Hf Hs Hne res. unfold res, stream_part.
    rewrite Ht, Htx, Hf, Hs. destruct (restore_name _ _ _ _ _) as [name tm].
    cbn [fst snd toolCalls signatures pendingToolCalls stream_store].
    split; [eexists; split; reflexivity|].
    unfold cache_if_long. apply String.eqb_neq in Hne as Hne'. rewrite Hne'. cbn [negb andb].
    destruct (MIN_SIGNATURE_LENGTH <=? String.length s)%nat; [|reflexivity].
    apply cacheSignature_set; [apply tool_call_id_nonempty | exact Hne].
  - intros sid model now st part fc s Hf Hs Hne. unfold process_part.
    rewrite Hf, Hs. destruct (getOriginalToolName _ _ _ _ _) as [r tm]. cbn [snd signatures].
    apply String.eqb_neq in Hne as Hne'. rewrite Hne'. cbn [negb andb].
    destruct (MIN_SIGNATURE_LENGTH <=? String.length s)%nat; cbn [andb]; [|reflexivity].
    unfold truthy_str, or_empty. destruct (fc_id fc) as [id|]; [|reflexivity].
    destruct (String.eqb id "") eqn:E; simpl; [reflexivity|].
    apply cacheSignature_set; [apply String.eqb_neq, E | exact Hne].
  - apply tool_call_id_nonempty.
  - apply sig_get_set_same.
Qed.

Lemma sample_signature_nonempty : sample_signature <> "".
Proof. unfold sample_signature. simpl. discriminate. Qed.

Lemma signature_caching_witness :
  signatures (snd (convert_part "sid" "m" 0 (mk_convert_acc "" "" [], mk_state [] [])
                     (sample_call_part (Some "call_1")))) =
    [("call_1", mk_sig_entry sample_signature 0)] /\
  signatures (stream_store (stream_part "cid" "m" "sid" 0
                              (mk_stream [] false "stop" 0 0 0 [] (mk_state [] []))
                              (sample_call_part (Some "call_1")))) =
    [("call_1", mk_sig_entry sample_signature 0)] /\
  signatures (snd (process_part "sid" "m" 0 (mk_state [] []) (sample_call_part (Some "call_1")))) =
    [("call_1", mk_sig_entry sample_signature 0)].
Proof.
  split; [|split].
  - destruct (proj1 signature_caching "sid" "m" 0%Z (mk_convert_acc "" "" []) (mk_state [] [])
                (sample_call_part (Some "call_1")) (mk_fcall (Some "call_1") "get_weather" "{}")
                sample_signature eq_refl eq_refl eq_refl sample_signature_nonempty) as [_ H].
    rewrite H. vm_compute. reflexivity.
  - destruct (proj1 (proj2 signature_caching) "cid" "m" "sid" 0%Z
                (mk_stream [] false "stop" 0 0 0 [] (mk_state [] []))
                (sample_call_part (Some "call_1")) (mk_fcall (Some "call_1") "get_weather" "{}")
                sample_signature eq_refl eq_refl eq_refl eq_refl sample_signature_nonempty)
      as [_ H].
    rewrite H. vm_compute. reflexivity.
  - rewrite (proj1 (proj2 (proj2 signature_caching)) "sid" "m" 0%Z (mk_state [] [])
               (sample_call_part (Some "call_1")) (mk_fcall (Some "call_1") "get_weather" "{}")
               sample_signature eq_refl eq_refl sample_signature_nonempty).
    vm_compute. reflexivity.
Defined.

(** C6 as stated fails on the Gemini path: a function call that comes
    without an id, with a 50-character signature, leaves the signature
    cache unchanged. *)
Lemma signature_caching_counterexample :
  String.length sample_signature = 50%nat /\
  signatures (snd (process_part "sid" "gemini-2.5-pro" 0 (mk_state [] [])
                     (sample_call_part None))) = [].
Proof. vm_compute. split; reflexivity. Qed.

(* ------------------------------------------------------------------ *)
(** ** convertGeminiToGoogle: toolConfig *)

Lemma convertGeminiToolsToAntigravity_nonempty (Schema : Type)
    (clean : string -> option Schema -> Schema) t ts sid model now m :
  exists t' ts' m',
    convertGeminiToolsToAntigravity Schema clean (t :: ts) sid model now m = (t' :: ts', m').
Proof.
  simpl. destruct (convert_tool Schema clean t sid model now m) as [t' m1].
  destruct (convertGeminiToolsToAntigravity Schema clean ts sid model now m1) as [ts' m2].
  eauto.
Qed.

(** C7 (amended): convertGeminiToGoogle sets
    toolConfig.functionCallingConfig.mode to "VALIDATED" when the request
    has a non-empty tools array and no (or a falsy) toolConfig; a toolConfig
    the client sent is kept as it is, whatever its mode; without tools the
    toolConfig is left unchanged. *)
Theorem convertGeminiToGoogle_toolConfig :
  forall (Schema : Type) (clean : string -> option Schema -> Schema)
         (req : gemini_request Schema) (modelName uuid : string) (now : Z) (m : tool_map),
    let out := fst (convertGeminiToGoogle Schema clean req modelName uuid now m) in
    (forall t ts, req_tools Schema req = Some (t :: ts) ->
        req_toolConfig Schema req = NoToolConfig ->
        greq_toolConfig Schema out = ToolConfig (Some "VALIDATED")) /\
    (forall mode, req_toolConfig Schema req = ToolConfig mode ->
        greq_toolConfig Schema out = ToolConfig mode) /\
    ((req_tools Schema req = None \/ req_tools Schema req = Some []) ->
        greq_toolConfig Schema out = req_toolConfig Schema req).
Proof.
  intros Schema clean req modelName uuid now m out.
  unfold out, convertGeminiToGoogle.
  destruct req as [contents tools tc]; simpl.
  split; [|split].
  - intros t ts Ht Htc. subst tools tc. cbv beta iota.
    destruct (convertGeminiToolsToAntigravity_nonempty Schema clean t ts
                (deriveSessionId_gemini contents uuid) (mapModelName modelName) now m)
      as [t' [ts' [m' E]]].
    rewrite E. reflexivity.
  - intros mode Htc. subst tc.
    destruct tools as [ts|]; [|reflexivity].
    destruct (convertGeminiToolsToAntigravity _ _ _ _ _ _ _) as [[|t' ts'] m']; reflexivity.
  - intros [Ht|Ht]; subst tools; [reflexivity|].
    simpl. destruct tc; reflexivity.
Qed.

Lemma convertGeminiToGoogle_toolConfig_witness :
  let req := mk_gemini_request unit [mk_gcontent "user" (Some [mk_gpart (Some "hi")])]
               (Some [ToolSingle unit (mk_fdecl unit "get.weather" "" None)]) NoToolConfig in
  greq_toolConfig unit (fst (convertGeminiToGoogle unit (fun _ _ => tt) req
                               "gemini-2.5-pro" "uuid" 0 [])) = ToolConfig (Some "VALIDATED") /\
  greq_toolConfig unit
    (fst (convertGeminiToGoogle unit (fun _ _ => tt)
            (mk_gemini_request unit [] (Some [ToolUnknown unit]) (ToolConfig (Some "AUTO")))
            "gemini-2.5-pro" "uuid" 0 [])) = ToolConfig (Some "AUTO") /\
  greq_toolConfig unit
    (fst (convertGeminiToGoogle unit (fun _ _ => tt)
            (mk_gemini_request unit [] (Some []) NoToolConfig)
            "gemini-2.5-pro" "uuid" 0 [])) = NoToolConfig.
Proof.
  intros req. split; [|split].
  - apply (proj1 (convertGeminiToGoogle_toolConfig unit (fun _ _ => tt) req
                    "gemini-2.5-pro" "uuid" 0 []) (ToolSingle unit (mk_fdecl unit "get.weather" "" None)) []);
      reflexivity.
  - apply (proj1 (proj2 (convertGeminiToGoogle_toolConfig unit (fun _ _ => tt)
                           (mk_gemini_request unit [] (Some [ToolUnknown unit]) (ToolConfig (Some "AUTO")))
                           "gemini-2.5-pro" "uuid" 0 []))).
    reflexivity.
  - apply (proj2 (proj2 (convertGeminiToGoogle_toolConfig unit (fun _ _ => tt)
                           (mk_gemini_request unit [] (Some []) NoToolConfig)
                           "gemini-2.5-pro" "uuid" 0 []))).
    right. reflexivity.
Defined.

(** C7 as stated fails: a request with a non-empty tools array and a
    toolConfig of mode AUTO keeps mode AUTO. *)
Lemma convertGeminiToGoogle_toolConfig_counterexample :
  greq_toolConfig unit
    (fst (convertGeminiToGoogle unit (fun _ _ => tt)
            (mk_gemini_request unit [mk_gcontent "user" (Some [mk_gpart (Some "hi")])]
               (Some [ToolSingle unit (mk_fdecl unit "get_weather" "" None)])
               (ToolConfig (Some "AUTO")))
            "gemini-2.5-pro" "uuid" 0 [])) = ToolConfig (Some "AUTO").
Proof. vm_compute. reflexivity. Qed.


(* ================================================================== *)
(** * Further properties of the code *)

(* ------------------------------------------------------------------ *)
(** ** Association lists with one entry per key *)

Lemma filter_filter_and {A : Type} (f g : A -> bool) (l : list A) :
  filter f (filter g l) = filter (fun x => g x && f x) l.
Proof.
  induction l as [|x l IH]; simpl; [reflexivity|].
  destruct (g x); simpl; [destruct (f x); simpl|]; rewrite IH; reflexivity.
Qed.

Lemma NoDup_keys_filter {A : Type} (p : string * A -> bool) (m : list (string * A)) :
  NoDup (map fst m) -> NoDup (map fst (filter p m)).
Proof.
  induction m as [|[k v] m IH]; simpl; intros Hnd; [constructor|].
  inversion Hnd as [|? ? Hnotin Hnd']; subst.
  destruct (p (k, v)); simpl; [|now apply IH].
  constructor; [|now apply IH].
  intros Hin. apply Hnotin. apply in_map_iff in Hin as [[k' v'] [Hk Hin]].
  apply filter_In in Hin as [Hin _]. simpl in Hk; subst k'.
  now apply (in_map fst) in Hin.
Qed.

(** The loop of an expiry sweep, which deletes the key of every expired
    entry it visits, removes every entry whose key has an expired entry. *)
Lemma sweep_filter {A : Type} (expired : A -> bool) (l acc : list (string * A)) :
  fold_left (fun acc kv => if expired (snd kv)
                           then filter (fun e => negb (String.eqb (fst kv) (fst e))) acc
                           else acc) l acc =
  filter (fun e => negb (existsb (fun kv => String.eqb (fst kv) (fst e) && expired (snd kv)) l)) acc.
Proof.
  revert acc. induction l as [|kv l IH]; intros acc; simpl.
  - symmetry. induction acc as [|x acc IHa]; simpl; [reflexivity | now rewrite IHa].
  - rewrite IH. destruct (expired (snd kv)).
    + rewrite filter_filter_and. apply filter_ext. intros e.
      rewrite andb_true_r, negb_orb. reflexivity.
    + apply filter_ext. intros e. rewrite andb_false_r. reflexivity.
Qed.

Lemma existsb_unique_key {A : Type} (p : A -> bool) (l : list (string * A)) (e : string * A) :
  NoDup (map fst l) -> In e l ->
  existsb (fun kv => String.eqb (fst kv) (fst e) && p (snd kv)) l = p (snd e).
Proof.
  induction l as [|kv l IH]; simpl; intros Hnd Hin; [contradiction|].
  inversion Hnd as [|? ? Hnotin Hnd']; subst.
  destruct Hin as [<- | Hin].
  - rewrite String.eqb_refl. simpl.
    destruct (p (snd kv)); simpl; [reflexivity|].
    apply Bool.not_true_iff_false. intros Hex.
    apply existsb_exists in Hex as [kv' [Hin' Hkv']].
    apply andb_true_iff in Hkv' as [Hk _]. apply String.eqb_eq in Hk.
    apply Hnotin. rewrite <- Hk. now apply in_map.
  - assert (Hne : fst kv <> fst e).
    { intros Hk. apply Hnotin. rewrite Hk. now apply in_map. }
    apply String.eqb_neq in Hne. rewrite Hne. simpl. now apply IH.
Qed.

(** With one entry per key, the sweep keeps exactly the entries that are
    not expired. *)
Lemma sweep_unique {A : Type} (expired : A -> bool) (m : list (string * A)) :
  NoDup (map fst m) ->
  fold_left (fun acc kv => if expired (snd kv)
                           then filter (fun e => negb (String.eqb (fst kv) (fst e))) acc
                           else acc) m m =
  filter (fun e => negb (expired (snd e))) m.
Proof.
  intros Hnd. rewrite sweep_filter. apply filter_ext_in.
  intros e Hin. now rewrite existsb_unique_key.
Qed.

Lemma map_get_notin (k : string) (m : tool_map) :
  ~ In k (map fst m) -> map_get k m = None.
Proof.
  induction m as [|[k0 v0] m IH]; simpl; intros Hn; [reflexivity|].
  destruct (String.eqb_spec k k0) as [->|]; [tauto|]. apply IH. tauto.
Qed.

Lemma map_get_filter_unique (p : string * tool_entry -> bool) (k : string) (m : tool_map) :
  NoDup (map fst m) ->
  map_get k (filter p m) =
  match map_get k m with Some e => if p (k, e) then Some e else None | None => None end.
Proof.
  induction m as [|[k0 v0] m IH]; simpl; intros Hnd; [reflexivity|].
  inversion Hnd as [|? ? Hnotin Hnd']; subst.
  destruct (String.eqb_spec k k0) as [->|Hne].
  - destruct (p (k0, v0)); simpl.
    + now rewrite String.eqb_refl.
    + rewrite IH by exact Hnd'. now rewrite map_get_notin.
  - destruct (p (k0, v0)); simpl.
    + destruct (String.eqb_spec k k0); [contradiction|]. now apply IH.
    + now apply IH.
Qed.

Lemma sig_get_notin (k : string) (m : sig_map) :
  ~ In k (map fst m) -> sig_get k m = None.
Proof.
  induction m as [|[k0 v0] m IH]; simpl; intros Hn; [reflexivity|].
  destruct (String.eqb_spec k k0) as [->|]; [tauto|]. apply IH. tauto.
Qed.

Lemma sig_get_filter_unique (p : string * sig_entry -> bool) (k : string) (m : sig_map) :
  NoDup (map fst m) ->
  sig_get k (filter p m) =
  match sig_get k m with Some e => if p (k, e) then Some e else None | None => None end.
Proof.
  induction m as [|[k0 v0] m IH]; simpl; intros Hnd; [reflexivity|].
  inversion Hnd as [|? ? Hnotin Hnd']; subst.
  destruct (String.eqb_spec k k0) as [->|Hne].
  - destruct (p (k0, v0)); simpl.
    + now rewrite String.eqb_refl.
    + rewrite IH by exact Hnd'. now rewrite sig_get_notin.
  - destruct (p (k0, v0)); simpl.
    + destruct (String.eqb_spec k k0); [contradiction|]. now apply IH.
    + now apply IH.
Qed.

Lemma In_keys_map_set (x k : string) (v : tool_entry) (m : tool_map) :
  In x (map fst (map_set k v m)) -> x = k \/ In x (map fst m).
Proof.
  induction m as [|[k0 v0] m IH]; simpl.
  - intros [<-|[]]. now left.
  - destruct (String.eqb k k0); simpl; [tauto|]. intros [->|H]; [tauto|].
    destruct (IH H); tauto.
Qed.

Lemma NoDup_keys_map_set (k : string) (v : tool_entry) (m : tool_map) :
  NoDup (map fst m) -> NoDup (map fst (map_set k v m)).
Proof.
  induction m as [|[k0 v0] m IH]; simpl; intros Hnd.
  - constructor; [intros []|constructor].
  - inversion Hnd as [|? ? Hnotin Hnd']; subst.
    destruct (String.eqb_spec k k0) as [->|Hne]; simpl; [exact Hnd|].
    constructor; [|now apply IH].
    intros Hin. destruct (In_keys_map_set _ _ _ _ Hin) as [->|]; [now apply Hne|contradiction].
Qed.

Lemma In_keys_sig_set (x k : string) (v : sig_entry) (m : sig_map) :
  In x (map fst (sig_set k v m)) -> x = k \/ In x (map fst m).
Proof.
  induction m as [|[k0 v0] m IH]; simpl.
  - intros [<-|[]]. now left.
  - destruct (String.eqb k k0); simpl; [tauto|]. intros [->|H]; [tauto|].
    destruct (IH H); tauto.
Qed.

Lemma NoDup_keys_sig_set (k : string) (v : sig_entry) (m : sig_map) :
  NoDup (map fst m) -> NoDup (map fst (sig_set k v m)).
Proof.
  induction m as [|[k0 v0] m IH]; simpl; intros Hnd.
  - constructor; [intros []|constructor].
  - inversion Hnd as [|? ? Hnotin Hnd']; subst.
    destruct (String.eqb_spec k k0) as [->|Hne]; simpl; [exact Hnd|].
    constructor; [|now apply IH].
    intros Hin. destruct (In_keys_sig_set _ _ _ _ Hin) as [->|]; [now apply Hne|contradiction].
Qed.

Lemma map_delete_notin (k : string) (m : tool_map) :
  ~ In k (map fst m) -> map_delete k m = m.
Proof.
  unfold map_delete. induction m as [|[k0 v0] m IH]; simpl; intros Hn; [reflexivity|].
  destruct (String.eqb_spec k k0) as [->|]; [tauto|]. simpl. rewrite IH; tauto.
Qed.

Lemma map_delete_length (k : string) (m : tool_map) :
  NoDup (map fst m) -> In k (map fst m) -> List.length (map_delete k m) = (List.length m - 1)%nat.
Proof.
  induction m as [|[k0 v0] m IH]; simpl; intros Hnd Hin; [contradiction|].
  inversion Hnd as [|? ? Hnotin Hnd']; subst.
  unfold map_delete at 1. simpl.
  destruct (String.eqb_spec k k0) as [->|Hne]; simpl.
  - fold (map_delete k0 m). rewrite (map_delete_notin k0 m Hnotin). lia.
  - fold (map_delete k m).
    destruct Hin as [->|Hin]; [contradiction|].
    rewrite IH by assumption. destruct m; simpl in *; [contradiction | lia].
Qed.

Lemma In_keys_map_delete (x k : string) (m : tool_map) :
  In x (map fst m) -> x <> k -> In x (map fst (map_delete k m)).
Proof.
  intros Hin Hne. apply in_map_iff in Hin as [[x' v] [Hx Hin]]. simpl in Hx; subst x'.
  apply (in_map fst (map_delete k m) (x, v)). apply filter_In. split; [exact Hin|].
  simpl. destruct (String.eqb_spec k x); [congruence | reflexivity].
Qed.

(** The FIFO pruning loop deletes one entry per key it visits. *)
Lemma prune_keys_length (ks : list string) (m : tool_map) (removed removeCount : nat) :
  NoDup ks -> (forall k, In k ks -> In k (map fst m)) -> NoDup (map fst m) ->
  (removed < removeCount)%nat -> (removeCount - removed <= List.length ks)%nat ->
  List.length (prune_keys ks m removed removeCount) =
  (List.length m - (removeCount - removed))%nat.
Proof.
  revert m removed. induction ks as [|k ks IH]; intros m removed Hks Hsub Hnd Hlt Hle;
    simpl in *; [lia|].
  inversion Hks as [|? ? Hk Hks']; subst.
  assert (Hkin : In k (map fst m)) by (apply Hsub; now left).
  pose proof (map_delete_length k m Hnd Hkin) as Hdl.
  assert (Hpos : (1 <= List.length m)%nat) by (destruct m; simpl in *; [contradiction | lia]).
  destruct (Nat.leb_spec removeCount (S removed)).
  - lia.
  - rewrite IH.
    + lia.
    + exact Hks'.
    + intros k' Hk'. apply In_keys_map_delete; [apply Hsub; now right|].
      intros ->. contradiction.
    + now apply NoDup_keys_filter.
    + lia.
    + lia.
Qed.

Lemma prune_keys_NoDup (ks : list string) (m : tool_map) (removed removeCount : nat) :
  NoDup (map fst m) -> NoDup (map fst (prune_keys ks m removed removeCount)).
Proof.
  revert m removed. induction ks as [|k ks IH]; intros m removed Hnd; simpl; [exact Hnd|].
  destruct (removeCount <=? S removed)%nat; [|apply IH]; now apply NoDup_keys_filter.
Qed.

Lemma pruneSize_bound (n : nat) (m : tool_map) :
  NoDup (map fst m) ->
  NoDup (map fst (pruneSize n m)) /\ (List.length (pruneSize n m) <= n)%nat.
Proof.
  intros Hnd. unfold pruneSize.
  destruct (Nat.leb_spec (List.length m) n) as [Hle|Hgt]; [split; assumption|].
  split; [now apply prune_keys_NoDup|].
  rewrite prune_keys_length; auto; rewrite ?length_map; lia.
Qed.

Lemma sig_delete_NoDup (k : string) (m : sig_map) :
  NoDup (map fst m) -> NoDup (map fst (sig_delete k m)).
Proof. apply NoDup_keys_filter. Qed.

Lemma sig_get_delete_same (k : string) (m : sig_map) : sig_get k (sig_delete k m) = None.
Proof.
  unfold sig_delete. induction m as [|[k0 v0] m IH]; simpl; [reflexivity|].
  destruct (String.eqb_spec k k0) as [->|Hne]; simpl; [exact IH|].
  destruct (String.eqb_spec k k0); [contradiction | exact IH].
Qed.

Lemma Z_gtb_spec (x y : Z) : (x >? y)%Z = true <-> (y < x)%Z.
Proof. rewrite Z.gtb_ltb. apply Z.ltb_lt. Qed.

Lemma Z_gtb_false (x y : Z) : (x >? y)%Z = false <-> (x <= y)%Z.
Proof. rewrite Z.gtb_ltb. apply Z.ltb_ge. Qed.

Lemma pruneExpired_filter (now : Z) (m : tool_map) :
  NoDup (map fst m) ->
  pruneExpired now m = filter (fun kv => negb (now - ts (snd kv) >? ENTRY_TTL_MS)%Z) m.
Proof.
  intros Hnd. unfold pruneExpired, map_delete.
  exact (sweep_unique (fun e => (now - ts e >? ENTRY_TTL_MS)%Z) m Hnd).
Qed.

Lemma cleanupCache_filter (now : Z) (m : sig_map) :
  NoDup (map fst m) ->
  cleanupCache now m =
    filter (fun kv => negb (now - timestamp (snd kv) >? GEMINI_SIGNATURE_CACHE_TTL_MS)%Z) m.
Proof.
  intros Hnd. unfold cleanupCache, sig_delete.
  exact (sweep_unique (fun e => (now - timestamp e >? GEMINI_SIGNATURE_CACHE_TTL_MS)%Z) m Hnd).
Qed.

Lemma setToolNameMapping_inv (sessionId model safeName originalName : string) (now : Z)
    (m : tool_map) :
  NoDup (map fst m) -> (List.length m <= MAX_ENTRIES)%nat ->
  NoDup (map fst (setToolNameMapping sessionId model safeName originalName now m)) /\
  (List.length (setToolNameMapping sessionId model safeName originalName now m) <= MAX_ENTRIES)%nat.
Proof.
  intros Hnd Hlen. unfold setToolNameMapping.
  destruct (String.eqb safeName "" || String.eqb originalName "" ||
            String.eqb safeName originalName); [split; assumption|].
  apply pruneSize_bound, NoDup_keys_map_set, Hnd.
Qed.

(* ------------------------------------------------------------------ *)
(** ** The tool-name cache: expiry sweep and invariants *)

(** [pruneExpired(now)] keeps, in order, exactly the entries that are at
    most [ENTRY_TTL_MS] old at [now], and no lookup made at [now] or later
    can tell whether the sweep ran.  Both need one entry per key, which
    every operation of the cache keeps. *)
Theorem pruneExpired_spec (now : Z) (m : tool_map) :
  NoDup (map fst m) ->
  pruneExpired now m = filter (fun kv => negb (now - ts (snd kv) >? ENTRY_TTL_MS)%Z) m /\
  (forall (sessionId model safeName : string) (t : Z), (now <= t)%Z ->
     fst (getOriginalToolName sessionId model safeName t (pruneExpired now m)) =
     fst (getOriginalToolName sessionId model safeName t m)).
Proof.
  intros Hnd. pose proof (pruneExpired_filter now m Hnd) as Hp.
  split; [exact Hp|].
  intros sessionId model safeName t Ht. rewrite Hp. unfold getOriginalToolName.
  destruct (String.eqb safeName ""); [reflexivity|].
  rewrite map_get_filter_unique by exact Hnd.
  destruct (map_get (makeKey sessionId model safeName) m) as [e|]; [|reflexivity].
  simpl. destruct (now - ts e >? ENTRY_TTL_MS)%Z eqn:E; simpl;
    [|destruct (t - ts e >? ENTRY_TTL_MS)%Z; reflexivity].
  apply Z_gtb_spec in E.
  replace (t - ts e >? ENTRY_TTL_MS)%Z with true by (symmetry; apply Z_gtb_spec; lia).
  reflexivity.
Qed.

Lemma pruneExpired_spec_witness :
  NoDup (map fst [("a", mk_tool_entry "x" 0); ("b", mk_tool_entry "y" 3000000)]) /\
  pruneExpired 3600000 [("a", mk_tool_entry "x" 0); ("b", mk_tool_entry "y" 3000000)] =
  [("b", mk_tool_entry "y" 3000000)].
Proof.
  assert (Hnd : NoDup (map fst [("a", mk_tool_entry "x" 0); ("b", mk_tool_entry "y" 3000000)])).
  { simpl. constructor; [simpl; intros [H|[]]; discriminate H | constructor; [intros []|constructor]]. }
  split; [exact Hnd|].
  rewrite (proj1 (pruneExpired_spec 3600000 _ Hnd)). reflexivity.
Defined.

(** Every operation of the tool-name cache ([setToolNameMapping],
    [getOriginalToolName], the [pruneExpired] sweep) keeps one entry per
    key and at most [MAX_ENTRIES] (512) entries. *)
Theorem tool_name_cache_invariant (m : tool_map) :
  NoDup (map fst m) -> (List.length m <= MAX_ENTRIES)%nat ->
  (forall (sessionId model safeName originalName : string) (now : Z),
     NoDup (map fst (setToolNameMapping sessionId model safeName originalName now m)) /\
     (List.length (setToolNameMapping sessionId model safeName originalName now m) <= MAX_ENTRIES)%nat) /\
  (forall (sessionId model safeName : string) (now : Z),
     NoDup (map fst (snd (getOriginalToolName sessionId model safeName now m))) /\
     (List.length (snd (getOriginalToolName sessionId model safeName now m)) <= MAX_ENTRIES)%nat) /\
  (forall now : Z,
     NoDup (map fst (pruneExpired now m)) /\
     (List.length (pruneExpired now m) <= MAX_ENTRIES)%nat).
Proof.
  intros Hnd Hlen. split; [|split].
  - intros sessionId model safeName originalName now. now apply setToolNameMapping_inv.
  - intros sessionId model safeName now. unfold getOriginalToolName.
    destruct (String.eqb safeName ""); [split; assumption|].
    destruct (map_get (makeKey sessionId model safeName) m) as [e|]; [|split; assumption].
    destruct (now - ts e >? ENTRY_TTL_MS)%Z; simpl; [|split; assumption].
    split; [now apply NoDup_keys_filter|].
    unfold map_delete. pose proof (filter_length_le
      (fun kv => negb (String.eqb (makeKey sessionId model safeName) (fst kv))) m). lia.
  - intros now. rewrite (pruneExpired_filter now m Hnd).
    split; [now apply NoDup_keys_filter|].
    pose proof (filter_length_le (fun kv => negb (now - ts (snd kv) >? ENTRY_TTL_MS)%Z) m). lia.
Qed.

Lemma tool_name_cache_invariant_witness :
  NoDup (map fst [("s1::m::t1", mk_tool_entry "t.1" 0)]) /\
  (List.length [("s1::m::t1", mk_tool_entry "t.1" 0)] <= MAX_ENTRIES)%nat /\
  NoDup (map fst (setToolNameMapping "s1" "m" "x_y" "x.y" 1 [("s1::m::t1", mk_tool_entry "t.1" 0)])).
Proof.
  assert (Hnd : NoDup (map fst [("s1::m::t1", mk_tool_entry "t.1" 0)]))
    by (simpl; constructor; [intros []|constructor]).
  assert (Hlen : (List.length [("s1::m::t1", mk_tool_entry "t.1" 0)] <= MAX_ENTRIES)%nat)
    by (vm_compute; lia).
  split; [exact Hnd|]. split; [exact Hlen|].
  exact (proj1 (proj1 (tool_name_cache_invariant _ Hnd Hlen) "s1" "m" "x_y" "x.y" 1%Z)).
Defined.

(* ------------------------------------------------------------------ *)
(** ** The signature cache *)

(** [cleanupCache()] at time [now] keeps, in order, exactly the entries
    that are at most two hours old, and no [getCachedSignature] made at
    [now] or later can tell whether it ran (given one entry per key). *)
Theorem cleanupCache_spec (now : Z) (m : sig_map) :
  NoDup (map fst m) ->
  cleanupCache now m =
    filter (fun kv => negb (now - timestamp (snd kv) >? GEMINI_SIGNATURE_CACHE_TTL_MS)%Z) m /\
  (forall (toolUseId : string) (t : Z), (now <= t)%Z ->
     fst (getCachedSignature toolUseId t (cleanupCache now m)) =
     fst (getCachedSignature toolUseId t m)).
Proof.
  intros Hnd. pose proof (cleanupCache_filter now m Hnd) as Hp.
  split; [exact Hp|].
  intros toolUseId t Ht. rewrite Hp. unfold getCachedSignature.
  destruct (String.eqb toolUseId ""); [reflexivity|].
  rewrite sig_get_filter_unique by exact Hnd.
  destruct (sig_get toolUseId m) as [e|]; [|reflexivity].
  simpl. destruct (now - timestamp e >? GEMINI_SIGNATURE_CACHE_TTL_MS)%Z eqn:E; simpl;
    [|destruct (t - timestamp e >? GEMINI_SIGNATURE_CACHE_TTL_MS)%Z; reflexivity].
  apply Z_gtb_spec in E.
  replace (t - timestamp e >? GEMINI_SIGNATURE_CACHE_TTL_MS)%Z with true
    by (symmetry; apply Z_gtb_spec; lia).
  reflexivity.
Qed.

Lemma cleanupCache_spec_witness :
  NoDup (map fst [("c1", mk_sig_entry "old" 0); ("c2", mk_sig_entry "new" 7000000)]) /\
  cleanupCache 7300000 [("c1", mk_sig_entry "old" 0); ("c2", mk_sig_entry "new" 7000000)] =
  [("c2", mk_sig_entry "new" 7000000)].
Proof.
  assert (Hnd : NoDup (map fst [("c1", mk_sig_entry "old" 0); ("c2", mk_sig_entry "new" 7000000)])).
  { simpl. constructor; [simpl; intros [H|[]]; discriminate H | constructor; [intros []|constructor]]. }
  split; [exact Hnd|].
  rewrite (proj1 (cleanupCache_spec 7300000 _ Hnd)). reflexivity.
Defined.

(** Every operation of the signature cache ([cacheSignature],
    [getCachedSignature], [cleanupCache]) keeps one entry per key. *)
Theorem signature_cache_unique_keys (m : sig_map) :
  NoDup (map fst m) ->
  (forall (toolUseId sig : string) (now : Z), NoDup (map fst (cacheSignature toolUseId sig now m))) /\
  (forall (toolUseId : string) (now : Z), NoDup (map fst (snd (getCachedSignature toolUseId now m)))) /\
  (forall now : Z, NoDup (map fst (cleanupCache now m))).
Proof.
  intros Hnd. split; [|split].
  - intros toolUseId sig now. unfold cacheSignature.
    destruct (String.eqb toolUseId "" || String.eqb sig ""); [exact Hnd|].
    now apply NoDup_keys_sig_set.
  - intros toolUseId now. unfold getCachedSignature.
    destruct (String.eqb toolUseId ""); [exact Hnd|].
    destruct (sig_get toolUseId m) as [e|]; [|exact Hnd].
    destruct (now - timestamp e >? GEMINI_SIGNATURE_CACHE_TTL_MS)%Z; [|exact Hnd].
    now apply sig_delete_NoDup.
  - intros now. rewrite (cleanupCache_filter now m Hnd). now apply NoDup_keys_filter.
Qed.

Lemma signature_cache_unique_keys_witness :
  NoDup (map fst (@nil (string * sig_entry))) /\
  NoDup (map fst (cacheSignature "c1" "sig" 0 [])).
Proof.
  split; [constructor|].
  exact (proj1 (signature_cache_unique_keys [] (NoDup_nil _)) "c1" "sig" 0%Z).
Defined.

(** A signature stored by [cacheSignature] is returned by
    [getCachedSignature] for the same id as long as it is at most two hours
    old, and the cache is left as it was; once it is older, the lookup
    returns [null] and deletes the entry. *)
Theorem getCachedSignature_after_cacheSignature (toolUseId sig : string) (now t : Z) (m : sig_map) :
  toolUseId <> "" -> sig <> "" ->
  ((t - now <= GEMINI_SIGNATURE_CACHE_TTL_MS)%Z ->
     getCachedSignature toolUseId t (cacheSignature toolUseId sig now m) =
     (Some sig, cacheSignature toolUseId sig now m)) /\
  ((GEMINI_SIGNATURE_CACHE_TTL_MS < t - now)%Z ->
     fst (getCachedSignature toolUseId t (cacheSignature toolUseId sig now m)) = None /\
     sig_get toolUseId (snd (getCachedSignature toolUseId t (cacheSignature toolUseId sig now m))) = None).
Proof.
  intros Hid Hsig.
  unfold getCachedSignature.
  replace (String.eqb toolUseId "") with false by (symmetry; now apply String.eqb_neq).
  rewrite (cacheSignature_set toolUseId sig now m Hid Hsig), sig_get_set_same. simpl.
  split; intros Ht.
  - replace (t - now >? GEMINI_SIGNATURE_CACHE_TTL_MS)%Z with false
      by (symmetry; now apply Z_gtb_false). reflexivity.
  - replace (t - now >? GEMINI_SIGNATURE_CACHE_TTL_MS)%Z with true
      by (symmetry; now apply Z_gtb_spec).
    split; [reflexivity|]. apply sig_get_delete_same.
Qed.

Lemma getCachedSignature_after_cacheSignature_witness :
  getCachedSignature "c1" 1000 (cacheSignature "c1" "sig" 0 []) =
    (Some "sig", cacheSignature "c1" "sig" 0 []) /\
  fst (getCachedSignature "c1" 7200001 (cacheSignature "c1" "sig" 0 [])) = None.
Proof.
  split.
  - apply (proj1 (getCachedSignature_after_cacheSignature "c1" "sig" 0 1000 []
                    ltac:(discriminate) ltac:(discriminate))).
    vm_compute. discriminate.
  - apply (proj2 (getCachedSignature_after_cacheSignature "c1" "sig" 0 7200001 []
                    ltac:(discriminate) ltac:(discriminate))).
    vm_compute. reflexivity.
Defined.

(* ------------------------------------------------------------------ *)
(** ** The tool converters *)

Section ToolConverterProofs.

Variable Schema : Type.
Variable clean_parameters : string -> option Schema -> Schema.

Lemma convertSingleTool_name (fd : function_decl Schema) (sessionId modelName : string) (now : Z)
    (m : tool_map) :
  cd_name Schema (fst (convertSingleTool Schema clean_parameters fd sessionId modelName now m)) =
  sanitizeToolName (JSString (fd_name Schema fd)).
Proof. reflexivity. Qed.

Lemma convertSingleTool_inv (fd : function_decl Schema) (sessionId modelName : string) (now : Z)
    (m : tool_map) :
  NoDup (map fst m) -> (List.length m <= MAX_ENTRIES)%nat ->
  NoDup (map fst (snd (convertSingleTool Schema clean_parameters fd sessionId modelName now m))) /\
  (List.length (snd (convertSingleTool Schema clean_parameters fd sessionId modelName now m))
     <= MAX_ENTRIES)%nat.
Proof.
  intros Hnd Hlen. unfold convertSingleTool. cbv beta zeta iota delta [snd].
  destruct (negb (String.eqb sessionId "") && negb (String.eqb modelName "") &&
            negb (String.eqb (sanitizeToolName (JSString (fd_name Schema fd))) (fd_name Schema fd)));
    [now apply setToolNameMapping_inv | split; assumption].
Qed.

Lemma convertSingleTool_renamed (fd : function_decl Schema) (sessionId modelName : string)
    (now : Z) (m : tool_map) :
  sessionId <> "" -> modelName <> "" -> fd_name Schema fd <> "" ->
  sanitizeToolName (JSString (fd_name Schema fd)) <> fd_name Schema fd ->
  convertSingleTool Schema clean_parameters fd sessionId modelName now m =
  (mk_cdecl Schema (sanitizeToolName (JSString (fd_name Schema fd))) (fd_description Schema fd)
            (clean_parameters modelName (fd_parameters Schema fd)),
   pruneSize MAX_ENTRIES (map_set (makeKey sessionId modelName (sanitizeToolName (JSString (fd_name Schema fd))))
                                  (mk_tool_entry (fd_name Schema fd) now) m)).
Proof.
  intros Hsid Hmodel Hname Hchanged.
  destruct (sanitizeToolName_props (JSString (fd_name Schema fd))) as [Hsafe _].
  unfold convertSingleTool, setToolNameMapping.
  destruct (String.eqb_spec sessionId ""); [contradiction|].
  destruct (String.eqb_spec modelName ""); [contradiction|].
  destruct (String.eqb_spec (sanitizeToolName (JSString (fd_name Schema fd))) (fd_name Schema fd));
    [contradiction|].
  destruct (String.eqb_spec (sanitizeToolName (JSString (fd_name Schema fd))) ""); [contradiction|].
  destruct (String.eqb_spec (fd_name Schema fd) ""); [contradiction|].
  reflexivity.
Qed.

Lemma convertOpenAITools_app (l1 l2 : list (openai_tool Schema)) (sessionId modelName : string)
    (now : Z) (m : tool_map) :
  snd (convertOpenAIToolsToAntigravity Schema clean_parameters (l1 ++ l2) sessionId modelName now m) =
  snd (convertOpenAIToolsToAntigravity Schema clean_parameters l2 sessionId modelName now
         (snd (convertOpenAIToolsToAntigravity Schema clean_parameters l1 sessionId modelName now m))).
Proof.
  revert m. induction l1 as [|tool l1 IH]; intros m; cbn [app convertOpenAIToolsToAntigravity];
    [reflexivity|].
  destruct (convertSingleTool Schema clean_parameters (match tool_function Schema tool with Some f => f | None => empty_function Schema end) sessionId modelName now m) as [d m1].
  specialize (IH m1).
  destruct (convertOpenAIToolsToAntigravity Schema clean_parameters (l1 ++ l2) sessionId modelName now m1).
  destruct (convertOpenAIToolsToAntigravity Schema clean_parameters l1 sessionId modelName now m1).
  simpl in *. exact IH.
Qed.

Lemma convertOpenAITools_inv (tools : list (openai_tool Schema)) (sessionId modelName : string)
    (now : Z) (m : tool_map) :
  NoDup (map fst m) -> (List.length m <= MAX_ENTRIES)%nat ->
  NoDup (map fst (snd (convertOpenAIToolsToAntigravity Schema clean_parameters tools sessionId modelName now m))) /\
  (List.length (snd (convertOpenAIToolsToAntigravity Schema clean_parameters tools sessionId modelName now m))
     <= MAX_ENTRIES)%nat.
Proof.
  revert m. induction tools as [|tool tools IH]; intros m Hnd Hlen;
    cbn [convertOpenAIToolsToAntigravity]; [split; assumption|].
  pose proof (convertSingleTool_inv (match tool_function Schema tool with Some f => f | None => empty_function Schema end) sessionId modelName now m Hnd Hlen) as [Hnd1 Hlen1].
  destruct (convertSingleTool Schema clean_parameters (match tool_function Schema tool with Some f => f | None => empty_function Schema end) sessionId modelName now m) as [d m1].
  simpl in Hnd1, Hlen1. specialize (IH m1 Hnd1 Hlen1).
  destruct (convertOpenAIToolsToAntigravity Schema clean_parameters tools sessionId modelName now m1).
  exact IH.
Qed.

(** [convertOpenAIToolsToAntigravity] returns one tool per input tool, each
    with exactly one function declaration whose name is non-empty, at most
    128 characters long and made of [[A-Za-z0-9_-]] only; a tool without a
    [function] member becomes a declaration named ["tool"] with an empty
    description, and leaves the tool-name cache unchanged. *)
Theorem convertOpenAITools_shape (tools : list (openai_tool Schema)) (sessionId modelName : string)
    (now : Z) (m : tool_map) :
  List.length (fst (convertOpenAIToolsToAntigravity Schema clean_parameters tools sessionId modelName now m))
    = List.length tools /\
  Forall (fun g => exists d, g = GoogleTool Schema [d] /\ cd_name Schema d <> EmptyString /\
                             (String.length (cd_name Schema d) <= 128)%nat /\ all_tool_chars (cd_name Schema d) = true)
    (fst (convertOpenAIToolsToAntigravity Schema clean_parameters tools sessionId modelName now m)) /\
  convertSingleTool Schema clean_parameters (empty_function Schema) sessionId modelName now m =
    (mk_cdecl Schema "tool" "" (clean_parameters modelName None), m).
Proof.
  split; [|split].
  - revert m. induction tools as [|tool tools IH]; intros m; cbn [convertOpenAIToolsToAntigravity];
      [reflexivity|].
    destruct (convertSingleTool Schema clean_parameters (match tool_function Schema tool with Some f => f | None => empty_function Schema end) sessionId modelName now m) as [d m1].
    specialize (IH m1).
    destruct (convertOpenAIToolsToAntigravity Schema clean_parameters tools sessionId modelName now m1).
    cbn [fst snd List.length] in *. now rewrite IH.
  - revert m. induction tools as [|tool tools IH]; intros m; cbn [convertOpenAIToolsToAntigravity];
      [constructor|].
    pose proof (convertSingleTool_name (match tool_function Schema tool with Some f => f | None => empty_function Schema end) sessionId modelName now m) as Hname.
    destruct (convertSingleTool Schema clean_parameters (match tool_function Schema tool with Some f => f | None => empty_function Schema end) sessionId modelName now m) as [d m1].
    specialize (IH m1).
    destruct (convertOpenAIToolsToAntigravity Schema clean_parameters tools sessionId modelName now m1).
    cbn [fst snd] in Hname |- *. constructor; [|exact IH].
    exists d. split; [reflexivity|]. rewrite Hname. apply sanitizeToolName_props.
  - unfold convertSingleTool. cbv beta zeta. destruct (negb (String.eqb sessionId "") && _); reflexivity.
Qed.

(** Given the same declarations, the OpenAI converter (each tool with a
    [function] member) and the Claude converter return the same tools and
    leave the tool-name cache in the same state.  The Gemini converter
    (each tool a single declaration) agrees with them when every
    declaration has a non-empty name; a single declaration with an empty
    name it returns as it is, leaving the cache unchanged. *)
Theorem tool_converters_agree (fds : list (function_decl Schema)) (sessionId modelName : string)
    (now : Z) (m : tool_map) :
  convertOpenAIToolsToAntigravity Schema clean_parameters
      (map (fun fd => mk_openai_tool Schema (Some fd)) fds) sessionId modelName now m =
    convertClaudeToolsToAntigravity Schema clean_parameters fds sessionId modelName now m /\
  (Forall (fun fd => fd_name Schema fd <> EmptyString) fds ->
   convertGeminiToolsToAntigravity Schema clean_parameters
      (map (ToolSingle Schema) fds) sessionId modelName now m =
    convertClaudeToolsToAntigravity Schema clean_parameters fds sessionId modelName now m) /\
  (forall fd : function_decl Schema, fd_name Schema fd = EmptyString ->
   convertGeminiToolsToAntigravity Schema clean_parameters [ToolSingle Schema fd]
      sessionId modelName now m = ([GoogleToolAsIs Schema (ToolSingle Schema fd)], m)).
Proof.
  split; [|split].
  - revert m. induction fds as [|fd fds IH]; intros m;
      cbn [map convertOpenAIToolsToAntigravity convertClaudeToolsToAntigravity tool_function];
      [reflexivity|].
    destruct (convertSingleTool Schema clean_parameters fd sessionId modelName now m) as [d m1].
    now rewrite IH.
  - intros Hfds. revert m. induction Hfds as [|fd fds Hfd Hfds IH]; intros m;
      cbn [map convertGeminiToolsToAntigravity convertClaudeToolsToAntigravity convert_tool];
      [reflexivity|].
    destruct (String.eqb_spec (fd_name Schema fd) "") as [E|_]; [contradiction|].
    destruct (convertSingleTool Schema clean_parameters fd sessionId modelName now m) as [d m1].
    now rewrite IH.
  - intros fd Hfd. cbn [convertGeminiToolsToAntigravity convert_tool].
    rewrite Hfd. reflexivity.
Qed.

(** After [convertOpenAIToolsToAntigravity] with a session id and a model
    name, the last tool, if its name is not empty and is changed by
    [sanitizeToolName], can be mapped back: [getOriginalToolName] on its
    safe name returns its original name for the next [ENTRY_TTL_MS]
    milliseconds.  This holds from any cache the module can reach (one
    entry per key, at most [MAX_ENTRIES] entries). *)
Theorem convertOpenAITools_renamed_roundtrip (tools : list (openai_tool Schema)) (fd : function_decl Schema)
    (sessionId modelName : string) (now t : Z) (m : tool_map) :
  sessionId <> "" -> modelName <> "" -> fd_name Schema fd <> "" ->
  sanitizeToolName (JSString (fd_name Schema fd)) <> fd_name Schema fd ->
  NoDup (map fst m) -> (List.length m <= MAX_ENTRIES)%nat ->
  (t - now <= ENTRY_TTL_MS)%Z ->
  fst (getOriginalToolName sessionId modelName (sanitizeToolName (JSString (fd_name Schema fd))) t
         (snd (convertOpenAIToolsToAntigravity Schema clean_parameters
                 (tools ++ [mk_openai_tool Schema (Some fd)]) sessionId modelName now m))) =
  Some (fd_name Schema fd).
Proof.
  intros Hsid Hmodel Hname Hchanged Hnd Hlen Ht.
  rewrite convertOpenAITools_app.
  destruct (convertOpenAITools_inv tools sessionId modelName now m Hnd Hlen) as [_ Hlen1].
  set (m1 := snd (convertOpenAIToolsToAntigravity Schema clean_parameters tools sessionId modelName now m))
    in *.
  cbn [convertOpenAIToolsToAntigravity tool_function].
  rewrite (convertSingleTool_renamed fd sessionId modelName now m1 Hsid Hmodel Hname Hchanged).
  cbn [snd]. unfold getOriginalToolName.
  destruct (sanitizeToolName_props (JSString (fd_name Schema fd))) as [Hsafe _].
  destruct (String.eqb_spec (sanitizeToolName (JSString (fd_name Schema fd))) ""); [contradiction|].
  rewrite map_get_after_insert by exact Hlen1. cbn [ts originalName].
  replace (t - now >? ENTRY_TTL_MS)%Z with false by (symmetry; now apply Z_gtb_false).
  destruct (String.eqb_spec (fd_name Schema fd) ""); [contradiction | reflexivity].
Qed.

End ToolConverterProofs.

Lemma convertOpenAITools_renamed_roundtrip_witness :
  fst (getOriginalToolName "s1" "m" "mcp_read" 60000
         (snd (convertOpenAIToolsToAntigravity unit (fun _ _ => tt)
                 ([mk_openai_tool unit None] ++ [mk_openai_tool unit (Some (mk_fdecl unit "mcp.read" "" None))])
                 "s1" "m" 0 []))) = Some "mcp.read".
Proof.
  apply (convertOpenAITools_renamed_roundtrip unit (fun _ _ => tt)
           [mk_openai_tool unit None] (mk_fdecl unit "mcp.read" "" None) "s1" "m" 0 60000 []);
    try discriminate; try (vm_compute; discriminate); try constructor; vm_compute; try lia; discriminate.
Defined.

(* ------------------------------------------------------------------ *)
(** ** Model families and generation configs *)

Lemma isThinkingModel_family_lemma (modelName : string) :
  isThinkingModel modelName = true ->
  getModelFamily modelName = "claude" \/ getModelFamily modelName = "gemini".
Proof.
  unfold isThinkingModel, getModelFamily.
  destruct (includes "claude" (to_lower modelName)); [now left|].
  destruct (includes "gemini" (to_lower modelName)); [now right|].
  simpl. discriminate.
Qed.

Lemma family_thinking_some (modelFamily : string) (b : budget) :
  modelFamily = "claude" \/ modelFamily = "gemini" -> family_thinking modelFamily b <> None.
Proof. intros [-> | ->]; discriminate. Qed.

(** A model that [isThinkingModel] accepts is of the Claude or the Gemini
    family, so both request converters add a [thinkingConfig] exactly when
    the mapped model name is a thinking model: with a Claude model it has
    the snake-case keys, with a Gemini model the camel-case ones. *)
Theorem thinkingConfig_iff_thinking_model (model : string) (max_tokens : option Z)
    (temperature top_p : option Q) (stop : option stop_param) (reasoning_effort : option string)
    (generationConfig : option gemini_generation_params) :
  (isThinkingModel model = true ->
     getModelFamily model = "claude" \/ getModelFamily model = "gemini") /\
  (thinkingConfig (openai_generation_config model max_tokens temperature top_p stop reasoning_effort)
     <> None <-> isThinkingModel (mapModelName model) = true) /\
  (thinkingConfig (gemini_generation_config model generationConfig) <> None <->
     isThinkingModel (mapModelName model) = true) /\
  (forall tc, thinkingConfig (gemini_generation_config model generationConfig) = Some tc ->
     (getModelFamily (mapModelName model) = "claude" -> exists b, tc = SnakeCaseThinking b) /\
     (getModelFamily (mapModelName model) = "gemini" -> exists b, tc = CamelCaseThinking b)).
Proof.
  split; [apply isThinkingModel_family_lemma|]. split; [|split].
  - unfold openai_generation_config, generateGenerationConfig. cbn [thinkingConfig].
    destruct (isThinkingModel (mapModelName model)) eqn:E.
    + split; [reflexivity|]. intros _. apply family_thinking_some.
      now apply isThinkingModel_family_lemma.
    + split; [intros H; now contradiction H | discriminate].
  - unfold gemini_generation_config, normalizeGenerationConfig. cbn [thinkingConfig].
    destruct (isThinkingModel (mapModelName model)) eqn:E.
    + split; [reflexivity|]. intros _. apply family_thinking_some.
      now apply isThinkingModel_family_lemma.
    + split; [intros H; now contradiction H | discriminate].
  - intros tc. unfold gemini_generation_config, normalizeGenerationConfig. cbn [thinkingConfig].
    destruct (isThinkingModel (mapModelName model)); [|discriminate].
    intros Htc. split; intros Hf; rewrite Hf in Htc; simpl in Htc; injection Htc as <-; eauto.
Qed.

Lemma thinkingConfig_iff_thinking_model_witness :
  isThinkingModel "claude-opus-4-5-thinking" = true /\
  getModelFamily "claude-opus-4-5-thinking" = "claude".
Proof.
  split; [reflexivity|].
  destruct (proj1 (thinkingConfig_iff_thinking_model "claude-opus-4-5-thinking" None None None None
                     None None) (eq_refl true)) as [H|H]; [exact H | discriminate H].
Defined.

(** [maxOutputTokens] is the request's value ([max_tokens] for OpenAI;
    [maxOutputTokens], else [max_tokens], for Gemini) with 0 or absent read
    as 32000, capped at [GEMINI_MAX_OUTPUT_TOKENS] (16384) for a model of
    the Gemini family only; it is never 0. *)
Theorem maxOutputTokens_cap (model : string) (max_tokens : option Z)
    (temperature top_p : option Q) (stop : option stop_param) (reasoning_effort : option string)
    (config : gemini_generation_params) :
  let openaiRequested := num_or max_tokens 32000 in
  let geminiRequested := num_or (g_maxOutputTokens config) (num_or (g_max_tokens config) 32000) in
  let isGemini := String.eqb (getModelFamily (mapModelName model)) "gemini" in
  maxOutputTokens (openai_generation_config model max_tokens temperature top_p stop reasoning_effort) =
    (if isGemini then Z.min GEMINI_MAX_OUTPUT_TOKENS openaiRequested else openaiRequested) /\
  maxOutputTokens (gemini_generation_config model (Some config)) =
    (if isGemini then Z.min GEMINI_MAX_OUTPUT_TOKENS geminiRequested else geminiRequested) /\
  openaiRequested <> 0%Z /\ geminiRequested <> 0%Z.
Proof.
  cbv zeta.
  assert (Hcap : forall g r, cap_for_family g r =
                             if g then Z.min GEMINI_MAX_OUTPUT_TOKENS r else r).
  { intros [|] r; unfold cap_for_family; cbn [andb]; [|reflexivity].
    destruct (Z.ltb_spec GEMINI_MAX_OUTPUT_TOKENS r); lia. }
  assert (Hnz : forall x d, d <> 0%Z -> num_or x d <> 0%Z).
  { intros [n|] d Hd; unfold num_or; [destruct (Z.eqb_spec n 0)|]; assumption. }
  split; [|split; [|split]].
  - unfold openai_generation_config, generateGenerationConfig. cbn [maxOutputTokens].
    apply Hcap.
  - unfold gemini_generation_config, normalizeGenerationConfig. cbn [maxOutputTokens nullish_or].
    apply Hcap.
  - apply Hnz. discriminate.
  - apply Hnz, Hnz. discriminate.
Qed.

(** With thinking on, the OpenAI converter's thinking budget is
    [thinking_budget] when given; otherwise the [reasoning_effort] mapping:
    8000, 16000 or 32000 for a known or unknown effort, but for an effort
    that names a member of [Object.prototype] (such as ["constructor"]) the
    lookup [REASONING_EFFORT_MAP[effort]] finds that inherited member and
    the budget sent is that member, not a number. *)
Theorem openai_thinking_budget (model : string) (max_tokens : option Z)
    (temperature top_p : option Q) (stop : option stop_param) (effort : option string)
    (tc : thinking_config) :
  thinkingConfig (openai_generation_config model max_tokens temperature top_p stop effort)
    = Some tc ->
  let b := match tc with SnakeCaseThinking b => b | CamelCaseThinking b => b end in
  (exists n, b = BudgetNumber n /\ (n = 8000 \/ n = 16000 \/ n = 32000)%Z) \/
  (exists e, b = BudgetInherited e /\ effort = Some e /\ In e OBJECT_PROTOTYPE_MEMBERS).
Proof.
  unfold openai_generation_config, generateGenerationConfig. cbn [thinkingConfig thinking_budget
    reasoning_effort].
  destruct (isThinkingModel (mapModelName model)); [|discriminate].
  set (bud := match effort with
              | Some e => if String.eqb e "" then BudgetNumber 16000 else effort_budget e
              | None => BudgetNumber 16000 end).
  assert (Hb : (exists n, bud = BudgetNumber n /\ (n = 8000 \/ n = 16000 \/ n = 32000)%Z) \/
               (exists e, bud = BudgetInherited e /\ effort = Some e /\
                          In e OBJECT_PROTOTYPE_MEMBERS)).
  { subst bud. destruct effort as [e|]; [|left; eauto].
    destruct (String.eqb e ""); [left; eauto|].
    unfold effort_budget.
    destruct (String.eqb e "low"); [left; eauto|].
    destruct (String.eqb e "medium"); [left; eauto|].
    destruct (String.eqb e "high"); [left; eauto|].
    destruct (existsb (String.eqb e) OBJECT_PROTOTYPE_MEMBERS) eqn:Ex; [|left; eauto].
    right. exists e. split; [reflexivity|]. split; [reflexivity|].
    apply existsb_exists in Ex as [x [Hx Heq]]. apply String.eqb_eq in Heq. now subst x. }
  unfold family_thinking.
  destruct (String.eqb (getModelFamily (mapModelName model)) "claude");
    [|destruct (String.eqb (getModelFamily (mapModelName model)) "gemini"); [|discriminate]];
    intros H; injection H as <-; exact Hb.
Qed.

Lemma openai_thinking_budget_witness :
  thinkingConfig (openai_generation_config "gemini-3-pro" None None None None (Some "constructor"))
    = Some (CamelCaseThinking (BudgetInherited "constructor")) /\
  In "constructor" OBJECT_PROTOTYPE_MEMBERS.
Proof.
  assert (H : thinkingConfig (openai_generation_config "gemini-3-pro" None None None None
                                (Some "constructor"))
              = Some (CamelCaseThinking (BudgetInherited "constructor"))) by (vm_compute; reflexivity).
  split; [exact H|].
  destruct (openai_thinking_budget "gemini-3-pro" None None None None (Some "constructor") _ H)
    as [[n [Hn _]]|[e [_ [He Hin]]]]; [discriminate Hn|].
  injection He as <-. exact Hin.
Defined.

(** The Gemini converter always sends a numeric, non-zero thinking budget:
    [thinkingBudget], else [thinking_budget], with 0 or absent read as
    16000. *)
Theorem gemini_thinking_budget (model : string) (config : gemini_generation_params)
    (tc : thinking_config) :
  thinkingConfig (gemini_generation_config model (Some config)) = Some tc ->
  let b := match tc with SnakeCaseThinking b => b | CamelCaseThinking b => b end in
  b = BudgetNumber (num_or (g_thinkingBudget config) (num_or (g_thinking_budget config) 16000)) /\
  num_or (g_thinkingBudget config) (num_or (g_thinking_budget config) 16000) <> 0%Z.
Proof.
  unfold gemini_generation_config, normalizeGenerationConfig. cbn [thinkingConfig nullish_or].
  destruct (isThinkingModel (mapModelName model)); [|discriminate].
  assert (Hnz : forall x d, d <> 0%Z -> num_or x d <> 0%Z).
  { intros [n|] d Hd; unfold num_or; [destruct (Z.eqb_spec n 0)|]; assumption. }
  unfold family_thinking.
  destruct (String.eqb (getModelFamily (mapModelName model)) "claude");
    [|destruct (String.eqb (getModelFamily (mapModelName model)) "gemini"); [|discriminate]];
    intros H; injection H as <-; (split; [reflexivity | apply Hnz, Hnz; discriminate]).
Qed.

Lemma gemini_thinking_budget_witness :
  thinkingConfig (gemini_generation_config "gemini-3-pro"
    (Some (mk_gemini_generation_params None None None None None None None None (Some 0%Z) None)))
    = Some (CamelCaseThinking (BudgetNumber 16000)) /\
  num_or (Some 0%Z) (num_or None 16000) <> 0%Z.
Proof.
  assert (E : thinkingConfig (gemini_generation_config "gemini-3-pro"
    (Some (mk_gemini_generation_params None None None None None None None None (Some 0%Z) None)))
    = Some (CamelCaseThinking (BudgetNumber 16000))) by (vm_compute; reflexivity).
  split; [exact E|].
  exact (proj2 (gemini_thinking_budget _ _ _ E)).
Defined.

(* ------------------------------------------------------------------ *)
(** ** processFunctionCallIds *)

Lemma map_state_cons {S A : Type} (f : S -> A -> A * S) (x : A) (l : list A) (s : S) :
  map_state f (x :: l) s =
  (fst (f s x) :: fst (map_state f l (snd (f s x))), snd (map_state f l (snd (f s x)))).
Proof. simpl. destruct (f s x) as [y s1]. simpl. destruct (map_state f l s1). reflexivity. Qed.

Lemma map_state_app {S A : Type} (f : S -> A -> A * S) (l1 l2 : list A) (s : S) :
  map_state f (l1 ++ l2) s =
  ((fst (map_state f l1 s) ++ fst (map_state f l2 (snd (map_state f l1 s))))%list,
   snd (map_state f l2 (snd (map_state f l1 s)))).
Proof.
  revert s. induction l1 as [|x l1 IH]; intros s.
  - simpl. destruct (map_state f l2 s); reflexivity.
  - rewrite <- app_comm_cons, !map_state_cons, IH. reflexivity.
Qed.

Lemma map_state_length {S A : Type} (f : S -> A -> A * S) (l : list A) (s : S) :
  List.length (fst (map_state f l s)) = List.length l.
Proof.
  revert s. induction l as [|x l IH]; intros s; [reflexivity|].
  rewrite map_state_cons. simpl. now rewrite IH.
Qed.

Lemma call_ids_app (l1 l2 : list request_part) :
  call_ids (l1 ++ l2) = (call_ids l1 ++ call_ids l2)%list.
Proof. unfold call_ids. apply flat_map_app. Qed.

Lemma response_ids_app (l1 l2 : list request_part) :
  response_ids (l1 ++ l2) = (response_ids l1 ++ response_ids l2)%list.
Proof. unfold response_ids. apply flat_map_app. Qed.

Lemma generateFunctionCallId_truthy (now : Z) (random : string) :
  truthy_str (Some (generateFunctionCallId now random)) = true.
Proof. reflexivity. Qed.

Lemma call_ids_cons (p : request_part) (ps : list request_part) :
  call_ids (p :: ps) =
  ((match rq_functionCall p with Some fc => [fc_id fc] | None => [] end) ++ call_ids ps)%list.
Proof. reflexivity. Qed.

Lemma response_ids_cons (p : request_part) (ps : list request_part) :
  response_ids (p :: ps) =
  ((match rq_functionResponse p with Some fr => [fr_id fr] | None => [] end) ++ response_ids ps)%list.
Proof. reflexivity. Qed.

Lemma collect_call_id_cases (now : Z) (random : nat -> string) (n : nat) (ids : list string)
    (p : request_part) :
  (rq_functionCall p = None -> collect_call_id now random (n, ids) p = (p, (n, ids))) /\
  (forall fc, rq_functionCall p = Some fc -> truthy_str (fc_id fc) = true ->
     collect_call_id now random (n, ids) p = (p, (n, (ids ++ [or_empty (fc_id fc)])%list))) /\
  (forall fc, rq_functionCall p = Some fc -> truthy_str (fc_id fc) = false ->
     collect_call_id now random (n, ids) p =
     (with_call_id p fc (generateFunctionCallId now (random n)),
      (S n, (ids ++ [generateFunctionCallId now (random n)])%list))).
Proof.
  unfold collect_call_id. split; [|split].
  - intros H. now rewrite H.
  - intros fc H Ht. now rewrite H, Ht.
  - intros fc H Ht. now rewrite H, Ht.
Qed.

(** The first loop over the parts of one model content. *)
Lemma collect_parts (now : Z) (random : nat -> string) (ps : list request_part)
    (n : nat) (ids : list string) :
  snd (snd (map_state (collect_call_id now random) ps (n, ids))) =
    (ids ++ map or_empty (call_ids (fst (map_state (collect_call_id now random) ps (n, ids)))))%list /\
  Forall2 (fun i o => truthy_str o = true /\ (truthy_str i = true -> o = i))
    (call_ids ps) (call_ids (fst (map_state (collect_call_id now random) ps (n, ids)))).
Proof.
  revert n ids. induction ps as [|p ps IH]; intros n ids.
  - simpl. rewrite app_nil_r. split; [reflexivity | constructor].
  - rewrite map_state_cons. cbn [fst snd]. rewrite !call_ids_cons.
    destruct (collect_call_id_cases now random n ids p) as [Hnone [Htr Hfa]].
    destruct (rq_functionCall p) as [fc|] eqn:Hfc.
    + destruct (truthy_str (fc_id fc)) eqn:Ht.
      * rewrite (Htr fc eq_refl Ht). cbn [fst snd]. rewrite Hfc.
        destruct (IH n (ids ++ [or_empty (fc_id fc)])%list) as [H1 H2].
        split; [rewrite H1, <- app_assoc; reflexivity|].
        constructor; [split; [exact Ht | reflexivity] | exact H2].
      * rewrite (Hfa fc eq_refl Ht). cbn [fst snd rq_functionCall with_call_id fc_id].
        destruct (IH (S n) (ids ++ [generateFunctionCallId now (random n)])%list) as [H1 H2].
        split; [rewrite H1, <- app_assoc; reflexivity|].
        constructor; [split; [apply generateFunctionCallId_truthy | congruence] | exact H2].
    + rewrite (Hnone eq_refl). cbn [fst snd]. rewrite Hfc. simpl.
      exact (IH n ids).
Qed.

Lemma on_role_parts_cases {S : Type} (role : string) (f : S -> request_part -> request_part * S)
    (s : S) (c : request_content) :
  on_role_parts role f s c =
  if String.eqb (rq_role c) role then
    match rq_parts c with
    | Some ps => (mk_request_content (rq_role c) (Some (fst (map_state f ps s))),
                  snd (map_state f ps s))
    | None => (c, s)
    end
  else (c, s).
Proof.
  unfold on_role_parts. destruct (String.eqb (rq_role c) role); [|reflexivity].
  destruct (rq_parts c); [|reflexivity]. destruct (map_state f l s); reflexivity.
Qed.

Lemma role_parts_cons (role : string) (c : request_content) (cs : list request_content) :
  role_parts role (c :: cs) =
  ((if String.eqb (rq_role c) role then match rq_parts c with Some ps => ps | None => [] end
    else []) ++ role_parts role cs)%list.
Proof. reflexivity. Qed.

(** The first loop of [processFunctionCallIds] over the contents. *)
Lemma collect_contents (now : Z) (random : nat -> string) (cs : list request_content)
    (n : nat) (ids : list string) :
  let r := map_state (on_role_parts "model" (collect_call_id now random)) cs (n, ids) in
  map rq_role (fst r) = map rq_role cs /\
  role_parts "user" (fst r) = role_parts "user" cs /\
  snd (snd r) = (ids ++ map or_empty (call_ids (role_parts "model" (fst r))))%list /\
  Forall2 (fun i o => truthy_str o = true /\ (truthy_str i = true -> o = i))
    (call_ids (role_parts "model" cs)) (call_ids (role_parts "model" (fst r))).
Proof.
  revert n ids. induction cs as [|c cs IH]; intros n ids; cbv zeta.
  - simpl. rewrite app_nil_r. repeat split; constructor.
  - rewrite map_state_cons, on_role_parts_cases. cbn [fst snd].
    destruct (String.eqb_spec (rq_role c) "model") as [Hm|Hm].
    + destruct (rq_parts c) as [ps|] eqn:Hps.
      * cbn [fst snd].
        destruct (map_state (collect_call_id now random) ps (n, ids)) as [ps' [n1 ids1]] eqn:E.
        cbn [fst snd].
        pose proof (collect_parts now random ps n ids) as [Hc1 Hc2].
        rewrite E in Hc1, Hc2. cbn [fst snd] in Hc1, Hc2.
        destruct (IH n1 ids1) as [H1 [H2 [H3 H4]]].
        rewrite !role_parts_cons. cbn [rq_role rq_parts map]. rewrite Hm, Hps.
        cbn [String.eqb Ascii.eqb Bool.eqb app].
        try rewrite String.eqb_refl.
        split; [now rewrite H1|]. split; [exact H2|].
        subst ids1. rewrite !call_ids_app, map_app, H3, app_assoc. split; [reflexivity|].
        apply Forall2_app; assumption.
      * cbn [fst snd]. destruct (IH n ids) as [H1 [H2 [H3 H4]]].
        rewrite !role_parts_cons, Hps. cbn [map].
        split; [now rewrite H1|]. split; [now rewrite H2|].
        destruct (String.eqb (rq_role c) "model"), (String.eqb (rq_role c) "user");
          cbn [app]; split; assumption.
    + cbn [fst snd]. destruct (IH n ids) as [H1 [H2 [H3 H4]]].
      rewrite !role_parts_cons. cbn [map].
      replace (String.eqb (rq_role c) "model") with false by (symmetry; now apply String.eqb_neq).
      cbn [app]. split; [now rewrite H1|]. split; [now rewrite H2|]. split; assumption.
Qed.

Lemma assign_step (ids : list string) (idx : nat) (p : request_part) :
  rq_functionCall (fst (assign_response_id ids idx p)) = rq_functionCall p /\
  match rq_functionResponse p with
  | Some fr => exists fr', rq_functionResponse (fst (assign_response_id ids idx p)) = Some fr' /\
               fill_step ids idx (fr_id fr) = (fr_id fr', snd (assign_response_id ids idx p))
  | None => rq_functionResponse (fst (assign_response_id ids idx p)) = None /\
            snd (assign_response_id ids idx p) = idx
  end.
Proof.
  unfold assign_response_id, fill_step.
  destruct (rq_functionResponse p) as [fr|] eqn:H;
    [|cbn [fst snd]; rewrite H; split; [reflexivity | split; reflexivity]].
  destruct (negb (truthy_str (fr_id fr)) && (idx <? List.length ids)%nat); cbn [fst snd].
  - split; [reflexivity|]. eexists. split; reflexivity.
  - split; [reflexivity|]. exists fr. split; [exact H | reflexivity].
Qed.

(** The second loop over the parts of one user content. *)
Lemma assign_parts (ids : list string) (ps : list request_part) (idx : nat) :
  map_state (fill_step ids) (response_ids ps) idx =
    (response_ids (fst (map_state (assign_response_id ids) ps idx)),
     snd (map_state (assign_response_id ids) ps idx)) /\
  call_ids (fst (map_state (assign_response_id ids) ps idx)) = call_ids ps.
Proof.
  revert idx. induction ps as [|p ps IH]; intros idx; [split; reflexivity|].
  rewrite map_state_cons. cbn [fst snd]. rewrite !response_ids_cons, !call_ids_cons.
  destruct (assign_step ids idx p) as [Hc Hr]. rewrite Hc.
  destruct (IH (snd (assign_response_id ids idx p))) as [IH1 IH2]. rewrite IH2.
  split; [|reflexivity].
  destruct (rq_functionResponse p) as [fr|].
  - destruct Hr as [fr' [Hr' Hf]]. rewrite Hr'. cbn [app].
    rewrite map_state_cons, Hf. cbn [fst snd]. rewrite IH1. reflexivity.
  - destruct Hr as [Hr' Hs]. rewrite Hr'. cbn [app]. rewrite Hs in IH1 |- *. exact IH1.
Qed.

(** The second loop of [processFunctionCallIds] over the contents. *)
Lemma assign_contents (ids : list string) (cs : list request_content) (idx : nat) :
  let r := map_state (on_role_parts "user" (assign_response_id ids)) cs idx in
  map rq_role (fst r) = map rq_role cs /\
  role_parts "model" (fst r) = role_parts "model" cs /\
  map_state (fill_step ids) (response_ids (role_parts "user" cs)) idx =
    (response_ids (role_parts "user" (fst r)), snd r).
Proof.
  revert idx. induction cs as [|c cs IH]; intros idx; cbv zeta; [repeat split|].
  rewrite map_state_cons, on_role_parts_cases. cbn [fst snd].
  destruct (String.eqb_spec (rq_role c) "user") as [Hu|Hu].
  - destruct (rq_parts c) as [ps|] eqn:Hps.
    + cbn [fst snd]. destruct (assign_parts ids ps idx) as [Ha _].
      destruct (IH (snd (map_state (assign_response_id ids) ps idx))) as [H1 [H2 H3]].
      rewrite !role_parts_cons. cbn [rq_role rq_parts map]. rewrite Hu, Hps.
      cbn [String.eqb Ascii.eqb Bool.eqb app]. try rewrite String.eqb_refl.
      split; [now rewrite H1|]. split; [exact H2|].
      rewrite !response_ids_app, map_state_app, Ha. cbn [fst snd]. rewrite H3. reflexivity.
    + cbn [fst snd]. destruct (IH idx) as [H1 [H2 H3]].
      rewrite !role_parts_cons, Hps. cbn [map].
      split; [now rewrite H1|].
      destruct (String.eqb (rq_role c) "model"), (String.eqb (rq_role c) "user");
        cbn [app]; split; assumption.
  - cbn [fst snd]. destruct (IH idx) as [H1 [H2 H3]].
    rewrite !role_parts_cons. cbn [map].
    replace (String.eqb (rq_role c) "user") with false by (symmetry; now apply String.eqb_neq).
    cbn [app]. split; [now rewrite H1|]. split; [now rewrite H2|]. exact H3.
Qed.

Lemma skipn_nth_cons {A : Type} (i : nat) (l : list A) (d : A) :
  (i < List.length l)%nat -> skipn i l = nth i l d :: skipn (S i) l.
Proof.
  revert l. induction i as [|i IH]; intros [|x l] H; simpl in *; try lia; [reflexivity|].
  apply IH. lia.
Qed.

(** The response ids that the second loop produces from [R], starting
    at [responseIndex]. *)
Lemma fill_spec (ids : list string) (R : list (option string)) (idx : nat) :
  (idx <= List.length ids)%nat ->
  let R' := fst (map_state (fill_step ids) R idx) in
  List.length R' = List.length R /\
  (forall i o, In (i, o) (combine R R') -> truthy_str i = true -> o = i) /\
  map snd (filter (fun p => negb (truthy_str (fst p))) (combine R R')) =
    (map Some (firstn (List.length (filter (fun i => negb (truthy_str i)) R)) (skipn idx ids)) ++
     skipn (List.length ids - idx) (filter (fun i => negb (truthy_str i)) R))%list.
Proof.
  revert idx. induction R as [|r R IH]; intros idx Hidx; cbv zeta.
  - simpl. split; [reflexivity|]. split; [intros ? ? []|]. now rewrite skipn_nil.
  - rewrite map_state_cons.
    destruct (fill_step ids idx r) as [o idx'] eqn:Hf. cbn [fst snd combine List.length filter map].
    unfold fill_step in Hf.
    destruct (truthy_str r) eqn:Ht; cbn [negb andb] in Hf |- *.
    + injection Hf as <- <-. destruct (IH idx Hidx) as [H1 [H2 H3]].
      split; [now rewrite H1|]. split; [|exact H3].
      intros i o [Heq|Hin]; [injection Heq as <- <-; reflexivity | now apply H2].
    + destruct (Nat.ltb_spec idx (List.length ids)) as [Hlt|Hge]; injection Hf as <- <-.
      * destruct (IH (S idx) Hlt) as [H1 [H2 H3]].
        split; [now rewrite H1|]. split.
        -- intros i o [Heq|Hin]; [injection Heq as <- <-; congruence | now apply H2].
        -- cbn [map snd List.length]. rewrite H3, (skipn_nth_cons idx ids "" Hlt).
           cbn [firstn map app].
           replace (List.length ids - idx)%nat with (S (List.length ids - S idx)) by lia.
           reflexivity.
      * assert (idx = List.length ids) as -> by lia.
        destruct (IH (List.length ids) Hidx) as [H1 [H2 H3]].
        split; [now rewrite H1|]. split.
        -- intros i o [Heq|Hin]; [injection Heq as <- <-; congruence | now apply H2].
        -- cbn [map snd List.length]. rewrite H3, skipn_all, Nat.sub_diag, !firstn_nil. reflexivity.
Qed.

(** [processFunctionCallIds] keeps the contents and their roles; every
    function call in a model content ends up with a non-empty id, the one
    it had if it had one; and in the user contents a function response
    that had an id keeps it, while the responses without one receive, in
    order, the call ids of the model contents, first to first, until those
    run out (the rest stay without an id). *)
Theorem processFunctionCallIds_ids (now : Z) (random : nat -> string)
    (contents : list request_content) :
  let out := processFunctionCallIds now random contents in
  let C := call_ids (role_parts "model" out) in
  let R := response_ids (role_parts "user" contents) in
  let R' := response_ids (role_parts "user" out) in
  map rq_role out = map rq_role contents /\
  Forall2 (fun i o => truthy_str o = true /\ (truthy_str i = true -> o = i))
    (call_ids (role_parts "model" contents)) C /\
  List.length R' = List.length R /\
  (forall i o, In (i, o) (combine R R') -> truthy_str i = true -> o = i) /\
  map snd (filter (fun p => negb (truthy_str (fst p))) (combine R R')) =
    (map Some (firstn (List.length (filter (fun i => negb (truthy_str i)) R)) (map or_empty C)) ++
     skipn (List.length C) (filter (fun i => negb (truthy_str i)) R))%list.
Proof.
  cbv zeta. unfold processFunctionCallIds.
  pose proof (collect_contents now random contents 0 []) as [Hr1 [Hu1 [Hids Hcalls]]].
  destruct (map_state (on_role_parts "model" (collect_call_id now random)) contents (0%nat, []))
    as [cs1 acc]. cbn [fst snd] in *.
  pose proof (assign_contents (snd acc) cs1 0) as [Hr2 [Hm2 Hfill]]. cbv zeta in Hr2, Hm2, Hfill.
  destruct (map_state (on_role_parts "user" (assign_response_id (snd acc))) cs1 0%nat)
    as [out idx]. cbn [fst snd] in *.
  rewrite Hu1 in Hfill. rewrite Hm2.
  split; [congruence|]. split; [exact Hcalls|].
  destruct (fill_spec (map or_empty (call_ids (role_parts "model" cs1)))
              (response_ids (role_parts "user" contents)) 0 (Nat.le_0_l _)) as [F1 [F2 F3]].
  rewrite Hids in Hfill. cbn [app] in Hfill. rewrite Hfill in F1, F2, F3. cbn [fst] in F1, F2, F3.
  split; [exact F1|]. split; [exact F2|].
  rewrite F3, length_map, Nat.sub_0_r. reflexivity.
Qed.

(* ------------------------------------------------------------------ *)
(** ** processModelThoughts *)

Lemma fold_left_rev_seq {B : Type} (g : B -> nat -> B) (n : nat) (acc : B) :
  fold_left g (rev (seq 0 n)) acc = fold_right (fun i a => g a i) acc (seq 0 n).
Proof.
  rewrite <- (rev_involutive (seq 0 n)) at 2. rewrite fold_left_rev_right. reflexivity.
Qed.

Lemma fold_right_map_comp {A B C : Type} (f : B -> C -> C) (g : A -> B) (c : C) (l : list A) :
  fold_right f c (map g l) = fold_right (fun x acc => f (g x) acc) c l.
Proof. induction l as [|x l IH]; cbn [map fold_right]; [reflexivity | now rewrite IH]. Qed.

Lemma existsb_nth {A : Type} (f : A -> bool) (l : list A) (p : nat) (d : A) :
  (p < List.length l)%nat -> f (nth p l d) = true -> existsb f l = true.
Proof.
  intros Hp Hf. apply existsb_exists. exists (nth p l d). split; [now apply nth_In | exact Hf].
Qed.

Lemma nth_remove_at_lt {A : Type} (p q : nat) (l : list A) (d : A) :
  (q < p)%nat -> nth q (remove_at p l) d = nth q l d.
Proof.
  revert p q. induction l as [|x l IH]; intros p q Hq; [destruct p; reflexivity|].
  destruct p as [|p]; [lia|]. destruct q as [|q]; [reflexivity|]. simpl. apply IH. lia.
Qed.

(** Splicing out a part that is not a thought leaves the thought parts. *)
Lemma existsb_remove_at_non_thought (p : nat) (ps : list request_part) :
  rq_thought (nth p ps no_part) = false ->
  existsb rq_thought (remove_at p ps) = existsb rq_thought ps.
Proof.
  revert p. induction ps as [|x ps IH]; intros p Hp; [destruct p; reflexivity|].
  destruct p as [|p]; simpl in *.
  - now rewrite Hp.
  - now rewrite IH.
Qed.

Lemma map_update_at {A B : Type} (f : A -> B) (g : A -> A) (i : nat) (l : list A) :
  (forall x, f (g x) = f x) -> map f (update_at i g l) = map f l.
Proof.
  intros Hg. revert i. induction l as [|x l IH]; intros [|i]; simpl; rewrite ?Hg, ?IH; reflexivity.
Qed.

Lemma nth_map_eq {A B : Type} (f : A -> B) (l1 l2 : list A) (p : nat) (d : A) :
  map f l1 = map f l2 -> f (nth p l1 d) = f (nth p l2 d).
Proof.
  intros H. rewrite <- (map_nth f l1 d p), <- (map_nth f l2 d p), H. reflexivity.
Qed.

(** The first loop of [processModelThoughts]: the thought index it finds
    is that of a thought part, the signature index that of a part that is
    not a thought. *)
Lemma scan_thoughts_spec (parts : list request_part) (i : nat) (ti : option nat)
    (sa : option (nat * string)) :
  (fst (scan_thoughts i parts ti sa) = ti \/
   exists j, fst (scan_thoughts i parts ti sa) = Some (i + j)%nat /\ (j < List.length parts)%nat /\
             rq_thought (nth j parts no_part) = true) /\
  (snd (scan_thoughts i parts ti sa) = sa \/
   exists j v, snd (scan_thoughts i parts ti sa) = Some ((i + j)%nat, v) /\
               (j < List.length parts)%nat /\ rq_thought (nth j parts no_part) = false).
Proof.
  revert i ti sa. induction parts as [|part parts IH]; intros i ti sa; [split; left; reflexivity|].
  cbn [scan_thoughts].
  set (ti' := if rq_thought part && negb (truthy_str (rq_thoughtSignature part)) then Some i else ti).
  set (sa' := if truthy_str (rq_thoughtSignature part) && negb (rq_thought part)
              then Some (i, or_empty (rq_thoughtSignature part)) else sa).
  destruct (IH (S i) ti' sa') as [[H1|[j [H1 [Hj Ht]]]] [H2|[k [v [H2 [Hk Ht']]]]]];
    split;
    try (right; exists (S j); rewrite H1; split; [f_equal; lia | cbn; split; [lia | exact Ht]]);
    try (right; exists (S k), v; rewrite H2; split; [f_equal; f_equal; lia | cbn; split; [lia | exact Ht']]);
    try (rewrite H1; subst ti'; destruct (rq_thought part) eqn:E; cbn [andb];
         [destruct (negb (truthy_str (rq_thoughtSignature part)));
            [right; exists 0%nat; split; [f_equal; lia | cbn; split; [lia | exact E]] | now left]
         | now left]);
    try (rewrite H2; subst sa'; destruct (rq_thought part) eqn:E; cbn [andb negb];
         [rewrite andb_false_r; now left
         | destruct (truthy_str (rq_thoughtSignature part)) eqn:Et; cbn [andb];
           [right; exists 0%nat, (or_empty (rq_thoughtSignature part));
              split; [f_equal; f_equal; lia | cbn; split; [lia | exact E]] | now left]]).
Qed.

(** The merge step leaves a thought part among the parts. *)
Lemma merge_thought_has_thought (parts : list request_part) :
  existsb rq_thought (merge_thought parts) = true.
Proof.
  unfold merge_thought.
  destruct (scan_thoughts_spec parts 0 None None) as [Hti Hsa].
  destruct (scan_thoughts 0 parts None None) as [ti sa]. cbn [fst snd] in Hti, Hsa.
  destruct ti as [ti|]; [|reflexivity].
  destruct Hti as [Hti|[j [Hti [Hj Ht]]]]; [discriminate|]. injection Hti as ->. cbn in Ht, Hj.
  destruct sa as [[si sv]|].
  - destruct Hsa as [Hsa|[k [v [Hsa [Hk Hk']]]]]; [discriminate|]. injection Hsa as -> ->.
    cbn in Hk, Hk'.
    assert (Hmap' : map rq_thought (update_at j (with_signature v) parts) = map rq_thought parts)
      by (apply map_update_at; reflexivity).
    rewrite existsb_remove_at_non_thought.
    + apply (existsb_nth _ _ j no_part); [now rewrite <- (length_map rq_thought), Hmap', length_map|].
      rewrite (nth_map_eq rq_thought _ parts j no_part Hmap'). exact Ht.
    + rewrite (nth_map_eq rq_thought _ parts k no_part Hmap'). exact Hk'.
  - now apply (existsb_nth _ _ j no_part).
Qed.

Lemma standalone_signatures_filter (parts : list request_part) :
  map fst (standalone_signatures parts) =
  filter (fun i => is_standalone_signature (nth i parts no_part)) (seq 0 (List.length parts)).
Proof.
  unfold standalone_signatures. rewrite fold_left_rev_seq.
  induction (seq 0 (List.length parts)) as [|i l IH]; [reflexivity|].
  cbn [fold_right filter]. destruct (is_standalone_signature (nth i parts no_part)); cbn [map];
    [f_equal|]; exact IH.
Qed.

Lemma StronglySorted_filter {A : Type} (R : A -> A -> Prop) (f : A -> bool) (l : list A) :
  StronglySorted R l -> StronglySorted R (filter f l).
Proof.
  induction l as [|x l IH]; intros H; [constructor|].
  apply StronglySorted_inv in H as [H1 H2]. cbn [filter].
  destruct (f x); [constructor|]; [| |]; auto.
  apply Forall_forall. intros y Hy. apply filter_In in Hy as [Hy _].
  exact (proj1 (Forall_forall _ _) H2 y Hy).
Qed.

Lemma StronglySorted_seq (a n : nat) : StronglySorted lt (seq a n).
Proof.
  revert a. induction n as [|n IH]; intros a; [constructor|].
  cbn [seq]. constructor; [apply IH|].
  apply Forall_forall. intros y Hy. apply in_seq in Hy. lia.
Qed.

Lemma StronglySorted_map_inv {A B : Type} (R : B -> B -> Prop) (f : A -> B) (l : list A) :
  StronglySorted R (map f l) -> StronglySorted (fun x y => R (f x) (f y)) l.
Proof.
  induction l as [|x l IH]; intros H; [constructor|].
  cbn [map] in H. apply StronglySorted_inv in H as [H1 H2]. constructor; [now apply IH|].
  apply Forall_forall. intros y Hy.
  exact (proj1 (Forall_forall _ _) H2 (f y) (in_map f l y Hy)).
Qed.

Lemma map_nth_seq_id {A : Type} (l : list A) (d : A) :
  map (fun i => nth i l d) (seq 0 (List.length l)) = l.
Proof.
  induction l as [|x l IH]; [reflexivity|].
  cbn [List.length seq map nth]. f_equal. rewrite <- seq_shift, map_map. exact IH.
Qed.

Lemma assign_signature_thought (now : Z) (S : list (nat * string)) (st : nat * sig_map)
    (part : request_part) :
  rq_thought (fst (assign_signature now S st part)) = rq_thought part.
Proof.
  unfold assign_signature. destruct st as [sigIndex cache].
  destruct (rq_functionCall part); [|reflexivity].
  destruct (truthy_str (rq_thoughtSignature part)); [reflexivity|].
  destruct (sigIndex <? List.length S)%nat; [reflexivity|].
  destruct (getCachedSignature _ now cache) as [c cache'].
  destruct (truthy_str c); reflexivity.
Qed.

Lemma map_state_assign_thought (now : Z) (S : list (nat * string)) (ps : list request_part)
    (st : nat * sig_map) :
  map rq_thought (fst (map_state (assign_signature now S) ps st)) = map rq_thought ps.
Proof.
  revert st. induction ps as [|p ps IH]; intros st; [reflexivity|].
  rewrite map_state_cons. cbn [fst map]. now rewrite assign_signature_thought, IH.
Qed.

(** Splicing out, from the highest index down, parts that are not
    thoughts keeps the thought parts. *)
Lemma remove_sorted_thoughts (l : list (bool * nat)) (parts0 : list request_part) :
  StronglySorted (fun x y => snd x < snd y)%nat l ->
  Forall (fun x => rq_thought (nth (snd x) parts0 no_part) = false) l ->
  existsb rq_thought (fold_right (fun (x : bool * nat) (ps : list request_part) => if fst x then remove_at (snd x) ps else ps) parts0 l)
    = existsb rq_thought parts0 /\
  (forall q, Forall (fun x => q < snd x)%nat l ->
     nth q (fold_right (fun (x : bool * nat) (ps : list request_part) => if fst x then remove_at (snd x) ps else ps) parts0 l) no_part
     = nth q parts0 no_part).
Proof.
  induction l as [|x l IH]; intros Hs Hf; [split; reflexivity|].
  apply StronglySorted_inv in Hs as [Hs Hx]. inversion Hf as [|? ? Hfx Hfl]; subst.
  destruct (IH Hs Hfl) as [IH1 IH2]. cbn [fold_right].
  assert (Hnth : nth (snd x) (fold_right (fun (x : bool * nat) (ps : list request_part) => if fst x then remove_at (snd x) ps else ps)
                               parts0 l) no_part = nth (snd x) parts0 no_part) by (apply IH2; exact Hx).
  destruct (fst x).
  - split.
    + rewrite existsb_remove_at_non_thought; [exact IH1|]. rewrite Hnth. exact Hfx.
    + intros q Hq. inversion Hq as [|? ? Hqx Hql]; subst.
      rewrite nth_remove_at_lt by exact Hqx. now apply IH2.
  - split; [exact IH1|]. intros q Hq. inversion Hq; subst. now apply IH2.
Qed.

(** After [processModelThoughts], the parts of a model content contain a
    thought part: the merge step adds one when there is none, and the
    parts spliced out afterwards are standalone signature parts, which
    are not thoughts. *)
Theorem processModelThoughts_has_thought (now : Z) (parts : list request_part) (cache : sig_map) :
  existsb rq_thought (fst (processModelThoughts now parts cache)) = true.
Proof.
  unfold processModelThoughts.
  set (merged := merge_thought parts).
  set (S := standalone_signatures merged).
  pose proof (map_state_assign_thought now S merged (0%nat, cache)) as Hth.
  destruct (map_state (assign_signature now S) merged (0%nat, cache)) as [assigned st].
  cbn [fst snd] in *.
  unfold remove_used. rewrite fold_left_rev_seq.
  assert (Hgoal : forall l : list nat,
    StronglySorted lt (map (fun i => fst (nth i S (0%nat, ""))) l) ->
    Forall (fun i => In (fst (nth i S (0%nat, ""))) (map fst S)) l ->
    existsb rq_thought
      (fold_right (fun i ps => if (i <? fst st)%nat then remove_at (fst (nth i S (0%nat, ""))) ps else ps)
                  assigned l) = true).
  { intros l Hs Hin.
    pose proof (remove_sorted_thoughts (map (fun i => ((i <? fst st)%nat, fst (nth i S (0%nat, "")))) l)
                  assigned) as Hr.
    rewrite fold_right_map_comp in Hr. cbn [fst snd] in Hr.
    destruct Hr as [Hr _].
    - apply StronglySorted_map_inv with (f := snd). rewrite map_map. exact Hs.
    - apply Forall_map. apply Forall_forall. intros i Hi.
      pose proof (proj1 (Forall_forall _ _) Hin i Hi) as Hi'. cbn [snd].
      pose proof (standalone_signatures_filter merged) as HS. fold S in HS. rewrite HS in Hi'.
      apply filter_In in Hi' as [_ Hst].
      rewrite (nth_map_eq rq_thought assigned merged _ no_part Hth).
      unfold is_standalone_signature in Hst.
      destruct (rq_thought (nth (fst (nth i S (0%nat, ""))) merged no_part)); [|reflexivity].
      rewrite andb_false_r in Hst. cbn in Hst. discriminate Hst.
    - rewrite Hr.
      pose proof (merge_thought_has_thought parts) as Hm. fold merged in Hm.
      apply existsb_exists in Hm as [x [Hx Htx]].
      apply In_nth with (d := no_part) in Hx as [p [Hp Hpx]].
      apply (existsb_nth _ _ p no_part).
      + now rewrite <- (length_map rq_thought), Hth, length_map.
      + rewrite (nth_map_eq rq_thought assigned merged p no_part Hth), Hpx. exact Htx. }
  apply Hgoal.
  - replace (map (fun i => fst (nth i S (0%nat, ""))) (seq 0 (List.length S))) with (map fst S)
      by (rewrite <- (map_nth_seq_id S (0%nat, "")) at 1; rewrite map_map; reflexivity).
    unfold S. rewrite standalone_signatures_filter.
    apply StronglySorted_filter, StronglySorted_seq.
  - apply Forall_forall. intros i Hi. apply in_seq in Hi as [_ Hi].
    apply in_map. apply nth_In. exact Hi.
Qed.

(* ------------------------------------------------------------------ *)
(** ** Reading back the events [formatSSEEvent] writes *)

Lemma has_newline_app (a b : string) : has_newline (a ++ b) = has_newline a || has_newline b.
Proof. induction a as [|c a IH]; simpl; [reflexivity|]. rewrite IH. apply orb_assoc. Qed.

Lemma split_nl_line (x y : string) :
  has_newline x = false -> split_nl (x ++ String "010"%char y) = x :: split_nl y.
Proof.
  induction x as [|c x IH]; intros H; [reflexivity|].
  cbn [has_newline] in H. apply orb_false_iff in H as [Hc Hx].
  cbn [append split_nl]. rewrite Hc, (IH Hx). reflexivity.
Qed.

Lemma trim_start_space (s : string) : trim_start (String " "%char s) = trim_start s.
Proof. reflexivity. Qed.

Lemma trim_space (s : string) : trim (String " "%char s) = trim s.
Proof. unfold trim. now rewrite trim_start_space. Qed.

Lemma slice_from_prefix (p s : string) : slice_from (String.length p) (p ++ s) = s.
Proof.
  induction p as [|c p IH]; [|exact IH].
  unfold slice_from. cbn [String.length append]. rewrite Nat.sub_0_r.
  induction s as [|c s IH]; simpl; [reflexivity | now rewrite IH].
Qed.

Lemma starts_with_prefix (p s : string) : starts_with p (p ++ s) = true.
Proof. induction p as [|c p IH]; simpl; [reflexivity|]. now rewrite Ascii.eqb_refl, IH. Qed.

Lemma sse_data_event (json : string) :
  json <> "" -> trim json = json -> sse_data ("data: " ++ json) = Some json.
Proof.
  intros Hne Htr. unfold sse_data.
  change ("data: " ++ json) with ("data:" ++ String " "%char json).
  rewrite starts_with_prefix.
  change 5%nat with (String.length "data:"). rewrite slice_from_prefix, trim_space, Htr.
  destruct (String.eqb_spec json ""); [contradiction | reflexivity].
Qed.

Lemma split_nl_events (js : list string) :
  Forall (fun j => has_newline j = false) js ->
  split_nl (body_text (map formatSSEEvent js)) =
    (flat_map (fun j => [("data: " ++ j)%string; EmptyString]) js ++ [EmptyString])%list.
Proof.
  induction js as [|j js IH]; intros H; [reflexivity|].
  inversion H as [|? ? Hj Hjs]; subst.
  cbn [map body_text flat_map].
  replace (formatSSEEvent j ++ body_text (map formatSSEEvent js))
    with (("data: " ++ j) ++ String "010"%char
            (EmptyString ++ String "010"%char (body_text (map formatSSEEvent js))))
    by (unfold formatSSEEvent; rewrite <- !string_app_assoc; reflexivity).
  rewrite split_nl_line by (rewrite has_newline_app; exact Hj).
  rewrite split_nl_line by reflexivity. rewrite IH by exact Hjs. reflexivity.
Qed.

(** Whatever chunks the body of a stream written with [formatSSEEvent] is
    cut into, the SSE reading loop of the proxy hands its data handler
    exactly the JSON texts that were written, in order, provided each is
    non-empty, holds no line feed and has no surrounding white space (as
    the output of [JSON.stringify] has not). *)
Theorem formatSSEEvent_read_back (js chunks : list string) :
  Forall (fun j => j <> "" /\ has_newline j = false /\ trim j = j) js ->
  body_text chunks = body_text (map formatSSEEvent js) ->
  flat_map (fun line => match sse_data line with Some d => [d] | None => [] end)
           (sse_lines chunks EmptyString) = js.
Proof.
  intros Hjs Hbody.
  rewrite sse_lines_complete by reflexivity. cbn [append]. rewrite Hbody.
  rewrite split_nl_events
    by (apply Forall_forall; intros j Hj; exact (proj1 (proj2 (proj1 (Forall_forall _ _) Hjs j Hj)))).
  rewrite removelast_last. clear Hbody.
  induction js as [|j js IH]; [reflexivity|].
  inversion Hjs as [|? ? [Hne [_ Htr]] Hjs']; subst.
  cbn [flat_map app]. rewrite sse_data_event by assumption.
  change (sse_data EmptyString) with (@None string). cbn [app].
  f_equal. now apply IH.
Qed.

Lemma formatSSEEvent_read_back_witness :
  flat_map (fun line => match sse_data line with Some d => [d] | None => [] end)
    (sse_lines ["data: {"; "}" ++ String "010"%char (String "010"%char "data: [1");
                "]" ++ String "010"%char (String "010"%char EmptyString)] EmptyString)
  = ["{}"; "[1]"].
Proof.
  apply formatSSEEvent_read_back.
  - repeat constructor; discriminate.
  - reflexivity.
Defined.

(* ------------------------------------------------------------------ *)
(** ** Names [sanitizeToolName] leaves alone *)

Lemma replace_non_tool_chars_id (s : string) :
  all_tool_chars s = true -> replace_non_tool_chars s = s.
Proof.
  induction s as [|c s IH]; simpl; [reflexivity|].
  intros H. apply andb_prop in H as [H1 H2]. now rewrite H1, IH.
Qed.

Lemma drop_underscores_id (s : string) :
  ~ (exists p, s = String "_"%char p) -> drop_underscores s = s.
Proof.
  destruct s as [|c s]; simpl; [reflexivity|]. intros H.
  destruct (Ascii.eqb_spec c "_"%char) as [->|]; [|reflexivity].
  exfalso. apply H. now exists s.
Qed.

Lemma all_underscores_ends (s : string) :
  all_underscores s = true -> s <> EmptyString -> exists p, s = (p ++ "_")%string.
Proof.
  induction s as [|c s IH]; intros H Hne; [contradiction|].
  cbn [all_underscores] in H. apply andb_prop in H as [Hc Hs].
  apply Ascii.eqb_eq in Hc. subst c.
  destruct s as [|c' s'].
  - exists EmptyString. reflexivity.
  - destruct (IH Hs ltac:(discriminate)) as [p Hp].
    exists (String "_"%char p). rewrite Hp. reflexivity.
Qed.

Lemma strip_trailing_scan_id (s : string) :
  ~ (exists p, s = (p ++ "_")%string) -> strip_trailing_scan s = s.
Proof.
  induction s as [|c s IH]; intros H; [reflexivity|].
  cbn [strip_trailing_scan].
  destruct (all_underscores (String c s)) eqn:Ha.
  - exfalso. apply H. apply all_underscores_ends; [exact Ha | discriminate].
  - rewrite IH; [reflexivity|].
    intros [p Hp]. apply H. exists (String c p). rewrite Hp. reflexivity.
Qed.

Lemma strip_trailing_scan_empty (s : string) :
  strip_trailing_scan s = EmptyString -> all_underscores s = true.
Proof.
  destruct s as [|c s]; [reflexivity|]. cbn [strip_trailing_scan].
  destruct (all_underscores (String c s)); [reflexivity | discriminate].
Qed.

Lemma strip_trailing_scan_not_ends (s : string) :
  ~ (exists p, strip_trailing_scan s = (p ++ "_")%string).
Proof.
  induction s as [|c s IH]; intros [p Hp].
  - destruct p; discriminate.
  - cbn [strip_trailing_scan] in Hp.
    destruct (all_underscores (String c s)) eqn:Ha; [destruct p; discriminate|].
    destruct p as [|c' p]; cbn [append] in Hp; injection Hp as Hc Hs.
    + subst c. apply strip_trailing_scan_empty in Hs.
      cbn [all_underscores] in Ha. rewrite Hs in Ha. discriminate.
    + apply IH. now exists p.
Qed.

Lemma strip_trailing_scan_head (s : string) (c : ascii) (r : string) :
  strip_trailing_scan s = String c r -> exists r', s = String c r'.
Proof.
  destruct s as [|c0 s]; [discriminate|]. cbn [strip_trailing_scan].
  destruct (all_underscores (String c0 s)); [discriminate|].
  intros E. injection E as -> _. now exists s.
Qed.

Lemma drop_underscores_not_starts (s : string) :
  ~ (exists p, drop_underscores s = String "_"%char p).
Proof.
  induction s as [|c s IH]; intros [p Hp]; [discriminate|].
  cbn [drop_underscores] in Hp.
  destruct (Ascii.eqb_spec c "_"%char) as [->|Hc].
  - apply IH. now exists p.
  - injection Hp as Hc' _. contradiction.
Qed.

Lemma drop_underscores_length (s : string) :
  (String.length (drop_underscores s) <= String.length s)%nat.
Proof.
  induction s as [|c s IH]; cbn [drop_underscores]; [reflexivity|].
  destruct (Ascii.eqb c "_"%char); cbn [String.length]; lia.
Qed.

Lemma strip_trailing_scan_length (s : string) :
  (String.length (strip_trailing_scan s) <= String.length s)%nat.
Proof.
  induction s as [|c s IH]; cbn [strip_trailing_scan]; [reflexivity|].
  destruct (all_underscores (String c s)); cbn [String.length]; lia.
Qed.

Lemma replace_non_tool_chars_length (s : string) :
  String.length (replace_non_tool_chars s) = String.length s.
Proof. induction s as [|c s IH]; simpl; [reflexivity | now rewrite IH]. Qed.

(** A non-empty name of at most 128 characters of [[A-Za-z0-9_-]] that
    neither starts nor ends with '_' is returned as it is. *)
Lemma sanitizeToolName_id (s : string) :
  s <> EmptyString -> all_tool_chars s = true -> (String.length s <= 128)%nat ->
  ~ (exists p, s = String "_"%char p) -> ~ (exists p, s = (p ++ "_")%string) ->
  sanitizeToolName (JSString s) = s.
Proof.
  intros Hne Hok Hlen Hs He.
  unfold sanitizeToolName, strip_underscores_regex.
  destruct (String.eqb_spec s "") as [|_]; [contradiction|].
  rewrite replace_non_tool_chars_id, drop_underscores_id, strip_trailing_scan_id by assumption.
  destruct (String.eqb_spec s "") as [|_]; [contradiction|].
  destruct (Nat.ltb_spec 128 (String.length s)); [lia | reflexivity].
Qed.

(** What [sanitizeToolName] returns never starts with '_', and ends with
    '_' only when the cut to 128 characters left one there. *)
Lemma sanitizeToolName_ends (name : jsval) :
  ~ (exists p, sanitizeToolName name = String "_"%char p) /\
  ((exists p, sanitizeToolName name = (p ++ "_")%string) ->
   exists s, name = JSString s /\
     (128 < String.length (strip_underscores_regex (replace_non_tool_chars s)))%nat).
Proof.
  assert (Htool : ~ (exists p, "tool" = String "_"%char p) /\
                  ~ (exists p, "tool" = (p ++ "_")%string)).
  { split; intros [p Hp]; [discriminate|].
    do 5 (destruct p as [|? p]; cbn [append] in Hp; try discriminate; injection Hp as ? Hp). }
  destruct name as [| | b | z | s |];
    try (split; [exact (proj1 Htool) | intros H; exfalso; exact (proj2 Htool H)]).
  unfold sanitizeToolName.
  destruct (String.eqb s "");
    [split; [exact (proj1 Htool) | intros H; exfalso; exact (proj2 Htool H)]|].
  set (c := strip_underscores_regex (replace_non_tool_chars s)).
  assert (Hc : ~ (exists p, c = String "_"%char p) /\ ~ (exists p, c = (p ++ "_")%string)).
  { split.
    - intros [p Hp]. unfold c, strip_underscores_regex in Hp.
      destruct (strip_trailing_scan_head _ _ _ Hp) as [r' Hr'].
      apply (drop_underscores_not_starts (replace_non_tool_chars s)). now exists r'.
    - apply strip_trailing_scan_not_ends. }
  set (c' := if String.eqb c "" then "tool" else c).
  assert (Hc' : ~ (exists p, c' = String "_"%char p) /\ ~ (exists p, c' = (p ++ "_")%string)).
  { unfold c'. destruct (String.eqb c ""); [exact Htool | exact Hc]. }
  destruct (Nat.ltb_spec 128 (String.length c')) as [Hlt|Hge].
  - split.
    + intros [p Hp]. destruct c' as [|a r] eqn:Ec; [discriminate|].
      cbn [substring] in Hp. injection Hp as -> _.
      apply (proj1 Hc'). now exists r.
    + intros _. exists s. split; [reflexivity|].
      unfold c' in Hlt. fold c. destruct (String.eqb c ""); [cbn in Hlt; lia | exact Hlt].
  - split; [exact (proj1 Hc') | intros H; exfalso; exact (proj2 Hc' H)].
Qed.

(** A name of at most 128 characters is not cut. *)
Lemma sanitizeToolName_short_not_ends (s : string) :
  (String.length s <= 128)%nat -> ~ (exists p, sanitizeToolName (JSString s) = (p ++ "_")%string).
Proof.
  intros Hlen H. destruct (proj2 (sanitizeToolName_ends (JSString s)) H) as [s' [E Hlt]].
  injection E as <-. unfold strip_underscores_regex in Hlt.
  pose proof (strip_trailing_scan_length (drop_underscores (replace_non_tool_chars s))).
  pose proof (drop_underscores_length (replace_non_tool_chars s)).
  rewrite replace_non_tool_chars_length in *. lia.
Qed.

(** A name that is already a valid Google function name (non-empty, at
    most 128 characters of [[A-Za-z0-9_-]], neither starting nor ending
    with '_') is returned unchanged by [sanitizeToolName], so the converters
    keep it and record no mapping for it. *)
Theorem sanitizeToolName_valid_unchanged (s : string) :
  s <> EmptyString -> all_tool_chars s = true -> (String.length s <= 128)%nat ->
  ~ (exists p, s = String "_"%char p) -> ~ (exists p, s = (p ++ "_")%string) ->
  sanitizeToolName (JSString s) = s.
Proof. exact (sanitizeToolName_id s). Qed.

Lemma sanitizeToolName_valid_unchanged_witness :
  sanitizeToolName (JSString "read_file") = "read_file".
Proof.
  apply sanitizeToolName_valid_unchanged.
  - discriminate.
  - reflexivity.
  - simpl; lia.
  - intros [p Hp]; discriminate.
  - intros [p Hp].
    do 10 (destruct p as [|? p]; cbn [append] in Hp; try discriminate; injection Hp as ? Hp).
Defined.

(** Sanitizing a sanitized name again changes it exactly when the first
    result ends with '_', which happens only when the cut to 128 characters
    left an underscore at the end; names of at most 128 characters are
    sanitized idempotently, and a longer name can break idempotence. *)
Theorem sanitizeToolName_idempotence (name : jsval) :
  (sanitizeToolName (JSString (sanitizeToolName name)) = sanitizeToolName name <->
   ~ (exists p, sanitizeToolName name = (p ++ "_")%string)) /\
  (forall s, (String.length s <= 128)%nat ->
     sanitizeToolName (JSString (sanitizeToolName (JSString s))) = sanitizeToolName (JSString s)) /\
  (exists s, sanitizeToolName (JSString (sanitizeToolName (JSString s))) <> sanitizeToolName (JSString s)).
Proof.
  assert (Hfix : forall n, ~ (exists p, sanitizeToolName n = (p ++ "_")%string) ->
            sanitizeToolName (JSString (sanitizeToolName n)) = sanitizeToolName n).
  { intros n He. destruct (sanitizeToolName_props n) as [Hne [Hlen Hok]].
    apply sanitizeToolName_id; try assumption. exact (proj1 (sanitizeToolName_ends n)). }
  split; [split|split].
  - intros Hid He.
    destruct (sanitizeToolName_props name) as [_ [Hlen _]].
    apply (sanitizeToolName_short_not_ends (sanitizeToolName name) Hlen).
    now rewrite Hid.
  - apply Hfix.
  - intros s Hlen. apply Hfix, sanitizeToolName_short_not_ends, Hlen.
  - exists (String.concat "" (repeat "a" 127) ++ "_b")%string. vm_compute. discriminate.
Qed.

(* ------------------------------------------------------------------ *)
(** ** accumulateSSEResponse keeps what the stream says *)

Lemma plain_text_app (a b : list google_part) :
  plain_text (a ++ b) = plain_text a ++ plain_text b.
Proof. induction a as [|p a IH]; simpl; [reflexivity|]. now rewrite IH, string_app_assoc. Qed.

Lemma thought_text_app (a b : list google_part) :
  thought_text (a ++ b) = thought_text a ++ thought_text b.
Proof. induction a as [|p a IH]; simpl; [reflexivity|]. now rewrite IH, string_app_assoc. Qed.

Lemma call_parts_app (a b : list google_part) :
  call_parts (a ++ b) = (call_parts a ++ call_parts b)%list.
Proof. apply filter_app. Qed.

Lemma flushText_text (a : accum_state) : accumulatedText (flushText a) = "".
Proof. unfold flushText. destruct (String.eqb_spec (accumulatedText a) ""); auto. Qed.

Lemma accum_measure_flushText (a : accum_state) :
  accum_measure (flushText a) = accum_measure a.
Proof.
  destruct a as [fp u fr tt ts tx]. unfold flushText, accum_measure. cbn [accumulatedText].
  destruct (String.eqb_spec tx "") as [->|_]; [reflexivity|].
  cbn [finalParts accumulatedText accumulatedThinkingText].
  rewrite plain_text_app, thought_text_app, call_parts_app. cbn.
  rewrite !string_app_empty_r, app_nil_r. reflexivity.
Qed.

Lemma accum_measure_flushThinking (a : accum_state) :
  accum_measure (flushThinking a) = accum_measure a.
Proof.
  destruct a as [fp u fr tt ts tx]. unfold flushThinking, accum_measure.
  cbn [accumulatedThinkingText].
  destruct (String.eqb_spec tt "") as [->|_]; [reflexivity|].
  cbn [finalParts accumulatedText accumulatedThinkingText].
  rewrite plain_text_app, thought_text_app, call_parts_app. cbn.
  rewrite !string_app_empty_r, app_nil_r. reflexivity.
Qed.

Lemma measure_add_app (m : string * string * list google_part) (a b : list google_part) :
  measure_add (measure_add m a) b = measure_add m (a ++ b).
Proof.
  destruct m as [[x y] z]. cbn.
  now rewrite plain_text_app, thought_text_app, call_parts_app, !string_app_assoc, app_assoc.
Qed.

Lemma measure_add_nil (m : string * string * list google_part) : measure_add m [] = m.
Proof. destruct m as [[x y] z]. cbn. now rewrite !string_app_empty_r, app_nil_r. Qed.

Lemma accum_measure_part (a : accum_state) (p : google_part) :
  accum_measure (accumulate_part a p) = measure_add (accum_measure a) [p].
Proof.
  unfold accumulate_part.
  destruct (part_thought p) eqn:Ht.
  - rewrite <- (accum_measure_flushText a).
    destruct (flushText a) as [fp u fr tt ts tx]. unfold accum_measure. cbn.
    rewrite Ht, app_nil_r, !string_app_empty_r, string_app_assoc. reflexivity.
  - destruct (part_functionCall p) as [fc|] eqn:Hf.
    + rewrite <- (accum_measure_flushThinking a), <- (accum_measure_flushText (flushThinking a)).
      destruct (flushText (flushThinking a)) as [fp u fr tt ts tx] eqn:E.
      assert (tx = "") as ->.
      { pose proof (f_equal accumulatedText E) as Hx. cbn [accumulatedText] in Hx.
        rewrite <- Hx. apply flushText_text. }
      unfold accum_measure. cbn.
      rewrite plain_text_app, thought_text_app, call_parts_app. cbn. rewrite Ht, Hf. cbn.
      rewrite !string_app_empty_r. reflexivity.
    + destruct (part_text p) as [t|] eqn:Hx.
      * destruct (String.eqb_spec t "") as [->|_].
        { destruct (accum_measure a) as [[x y] z]. cbn. rewrite Ht, Hf, Hx. cbn.
          now rewrite !string_app_empty_r, app_nil_r. }
        rewrite <- (accum_measure_flushThinking a).
        destruct (flushThinking a) as [fp u fr tt ts tx]. unfold accum_measure. cbn.
        rewrite Ht, Hf, Hx. cbn. rewrite !string_app_empty_r, app_nil_r, string_app_assoc.
        reflexivity.
      * destruct (accum_measure a) as [[x y] z]. cbn. rewrite Ht, Hf, Hx. cbn.
        now rewrite !string_app_empty_r, app_nil_r.
Qed.

Lemma accum_measure_parts (ps : list google_part) (a : accum_state) :
  accum_measure (fold_left accumulate_part ps a) = measure_add (accum_measure a) ps.
Proof.
  revert a. induction ps as [|p ps IH]; intros a; cbn [fold_left concat map].
  - now rewrite measure_add_nil.
  - rewrite IH, accum_measure_part, measure_add_app. reflexivity.
Qed.

Lemma accum_measure_responses (rs : list google_response) (a : accum_state) :
  accum_measure (fold_left accumulate_response rs a) =
  measure_add (accum_measure a) (concat (map response_parts rs)).
Proof.
  revert a. induction rs as [|r rs IH]; intros a; cbn [fold_left concat map].
  - now rewrite measure_add_nil.
  - rewrite IH. unfold accumulate_response. rewrite accum_measure_parts, measure_add_app.
    match goal with |- measure_add ?x _ = measure_add ?y _ => replace x with y end;
      [reflexivity|].
    destruct a as [fp u fr tt ts tx].
    destruct (usageMetadata r); cbn; destruct (truthy_str _); reflexivity.
Qed.

Lemma accumulateSSEResponse_parts (JSON_parse : string -> option sse_payload)
    (chunks : list string) :
  let ps := concat (map response_parts
              (sse_responses JSON_parse (removelast (split_nl (body_text chunks))))) in
  let out := response_parts (accumulateSSEResponse JSON_parse chunks) in
  plain_text out = plain_text ps /\ thought_text out = thought_text ps /\
  call_parts out = call_parts ps.
Proof.
  intros ps out.
  assert (H : accum_measure (flushText (flushThinking
                (read_lines (accumulate_line JSON_parse) chunks "" accum_init))) =
              (plain_text ps, thought_text ps, call_parts ps)).
  { rewrite accum_measure_flushText, accum_measure_flushThinking.
    rewrite read_lines_fold, accumulate_lines, sse_lines_complete by reflexivity.
    rewrite accum_measure_responses. reflexivity. }
  assert (Ht : forall a, accumulatedThinkingText (flushText (flushThinking a)) = "").
  { intros a. unfold flushText, flushThinking.
    destruct (String.eqb_spec (accumulatedThinkingText a) "") as [E|_];
      destruct (String.eqb _ _); cbn; auto. }
  unfold out, accumulateSSEResponse. cbn [response_parts first_candidate candidates candidate_parts cand_parts].
  unfold accum_measure in H. rewrite flushText_text, Ht, !string_app_empty_r in H.
  injection H as H1 H2 H3. auto.
Qed.

(** The plain text, the thought text and the function-call parts of the
    single response [accumulateSSEResponse] builds are those of all the
    parts carried by the [data:] lines of the body that parse, in order:
    merging consecutive pieces loses or reorders none of them, however the
    body is cut into chunks. *)
Theorem accumulateSSEResponse_preserves (JSON_parse : string -> option sse_payload)
    (chunks : list string) :
  let ps := concat (map response_parts
              (sse_responses JSON_parse (removelast (split_nl (body_text chunks))))) in
  let out := response_parts (accumulateSSEResponse JSON_parse chunks) in
  plain_text out = plain_text ps /\ thought_text out = thought_text ps /\
  call_parts out = call_parts ps.
Proof. exact (accumulateSSEResponse_parts JSON_parse chunks). Qed.

(* ------------------------------------------------------------------ *)
(** ** convertGoogleToOpenAI: what the message is made of *)

Lemma convert_part_acc (sessionId originalModel : string) (now : Z)
    (acc : convert_acc) (st : proxy_state) (p : google_part) :
  let acc' := fst (convert_part sessionId originalModel now (acc, st) p) in
  messageContent acc' = messageContent acc ++ plain_text [p] /\
  reasoningContent acc' = reasoningContent acc ++ thought_text [p] /\
  map tool_call_summary (toolCalls acc') =
    (map tool_call_summary (toolCalls acc) ++ map call_part_summary (call_parts [p]))%list.
Proof.
  destruct p as [th tx sg fc]. cbn [convert_part plain_text thought_text call_parts filter
    part_thought part_text part_thoughtSignature part_functionCall].
  destruct th; cbn.
  - now rewrite !string_app_empty_r, app_nil_r.
  - destruct fc as [fc|]; cbn.
    + destruct (restore_name _ _ _ _ _) as [n tm]. cbn.
      rewrite !string_app_empty_r, map_app. repeat split.
    + destruct tx as [t|]; cbn; now rewrite !string_app_empty_r, app_nil_r.
Qed.

Lemma convert_parts_acc (sessionId originalModel : string) (now : Z)
    (ps : list google_part) (acc : convert_acc) (st : proxy_state) :
  let acc' := fst (fold_left (convert_part sessionId originalModel now) ps (acc, st)) in
  messageContent acc' = messageContent acc ++ plain_text ps /\
  reasoningContent acc' = reasoningContent acc ++ thought_text ps /\
  map tool_call_summary (toolCalls acc') =
    (map tool_call_summary (toolCalls acc) ++ map call_part_summary (call_parts ps))%list.
Proof.
  revert acc st. induction ps as [|p ps IH]; intros acc st; cbn [fold_left].
  - cbn. now rewrite !string_app_empty_r, app_nil_r.
  - destruct (convert_part_acc sessionId originalModel now acc st p) as [H1 [H2 H3]].
    destruct (convert_part sessionId originalModel now (acc, st) p) as [acc1 st1] eqn:E.
    cbn [fst] in H1, H2, H3.
    destruct (IH acc1 st1) as [I1 [I2 I3]].
    change (p :: ps) with ([p] ++ ps)%list.
    rewrite plain_text_app, thought_text_app, call_parts_app, map_app.
    rewrite I1, I2, I3, H1, H2, H3, !string_app_assoc, app_assoc. repeat split.
Qed.

Lemma convertGoogleToOpenAI_message_parts (googleResponse : google_response)
    (originalModel sessionId : string) (now : Z) (st : proxy_state) :
  let ps := response_parts googleResponse in
  let m := resp_message (fst (convertGoogleToOpenAI googleResponse originalModel sessionId now st)) in
  out_content m = (if String.eqb (plain_text ps) "" then None else Some (plain_text ps)) /\
  out_reasoning_content m =
    (if String.eqb (thought_text ps) "" then None else Some (thought_text ps)) /\
  map tool_call_summary (tool_calls_of m) = map call_part_summary (call_parts ps) /\
  out_tool_calls m <> Some [].
Proof.
  intros ps m. unfold m, convertGoogleToOpenAI.
  destruct (convert_parts_acc sessionId originalModel now
              (candidate_parts (first_candidate googleResponse)) (mk_convert_acc "" "" []) st)
    as [H1 [H2 H3]].
  destruct (fold_left _ _ _) as [acc st'].
  cbn [fst messageContent reasoningContent toolCalls map app append] in H1, H2, H3.
  cbn [resp_message out_content out_reasoning_content out_tool_calls fst].
  unfold tool_calls_of. cbn [out_tool_calls].
  rewrite H1, H2. fold ps. repeat split.
  - unfold ps, response_parts. destruct (toolCalls acc); [|exact H3]. exact H3.
  - destruct (toolCalls acc); discriminate.
Qed.

(** [convertGoogleToOpenAI] builds the message from the parts of the first
    candidate: its content is the text of the plain parts, concatenated, and
    its reasoning_content the text of the thought parts, each absent when
    empty; it has one tool call per function-call part that is not a
    thought, in order, with that call's id (generated when missing) and
    arguments, and no empty tool_calls array. *)
Theorem convertGoogleToOpenAI_message (googleResponse : google_response)
    (originalModel sessionId : string) (now : Z) (st : proxy_state) :
  let ps := response_parts googleResponse in
  let m := resp_message (fst (convertGoogleToOpenAI googleResponse originalModel sessionId now st)) in
  out_content m = (if String.eqb (plain_text ps) "" then None else Some (plain_text ps)) /\
  out_reasoning_content m =
    (if String.eqb (thought_text ps) "" then None else Some (thought_text ps)) /\
  map tool_call_summary (tool_calls_of m) = map call_part_summary (call_parts ps) /\
  out_tool_calls m <> Some [].
Proof. exact (convertGoogleToOpenAI_message_parts googleResponse originalModel sessionId now st). Qed.

(** On the non-streaming path of the OpenAI route for thinking models
    ([accumulateSSEResponse] then [convertGoogleToOpenAI]), the message's
    content is the text of all the plain parts the stream carries, its
    reasoning_content the text of all its thought parts, each absent when
    empty, and its tool calls are the stream's function-call parts that are
    not thoughts, in order, with their ids and arguments, however the body
    is cut into chunks. *)
Theorem non_streaming_message (JSON_parse : string -> option sse_payload)
    (chunks : list string) (originalModel sessionId : string) (now : Z) (st : proxy_state) :
  let ps := concat (map response_parts
              (sse_responses JSON_parse (removelast (split_nl (body_text chunks))))) in
  let m := resp_message (fst (convertGoogleToOpenAI (accumulateSSEResponse JSON_parse chunks)
                                originalModel sessionId now st)) in
  out_content m = (if String.eqb (plain_text ps) "" then None else Some (plain_text ps)) /\
  out_reasoning_content m =
    (if String.eqb (thought_text ps) "" then None else Some (thought_text ps)) /\
  map tool_call_summary (tool_calls_of m) = map call_part_summary (call_parts ps).
Proof.
  intros ps m.
  destruct (accumulateSSEResponse_parts JSON_parse chunks) as [A1 [A2 A3]].
  destruct (convertGoogleToOpenAI_message_parts (accumulateSSEResponse JSON_parse chunks)
              originalModel sessionId now st) as [C1 [C2 [C3 _]]].
  fold ps in A1, A2, A3. fold m in C1, C2, C3.
  rewrite A1 in C1. rewrite A2 in C2. rewrite A3 in C3. auto.
Qed.

(* ------------------------------------------------------------------ *)
(** ** streamGoogleToOpenAI: what the deltas are made of *)

Lemma streamed_content_app (a b : list stream_chunk) :
  streamed_content (a ++ b) = streamed_content a ++ streamed_content b.
Proof. induction a as [|c a IH]; simpl; [reflexivity|]. now rewrite IH, string_app_assoc. Qed.

Lemma streamed_reasoning_app (a b : list stream_chunk) :
  streamed_reasoning (a ++ b) = streamed_reasoning a ++ streamed_reasoning b.
Proof. induction a as [|c a IH]; simpl; [reflexivity|]. now rewrite IH, string_app_assoc. Qed.

Lemma streamed_tool_calls_app (a b : list stream_chunk) :
  streamed_tool_calls (a ++ b) = (streamed_tool_calls a ++ streamed_tool_calls b)%list.
Proof. apply flat_map_app. Qed.

Section StreamProofs.

Variables (JSON_parse : string -> option sse_payload)
          (completionId originalModel sessionId : string) (now : Z).

(** The four readings of a state of the generator. *)
Let content s := streamed_content (yielded s).
Let reasoning s := streamed_reasoning (yielded s).
Let calls s := streamed_tool_calls (yielded s).
Let pending s := map tool_call_summary (pendingToolCalls s).

Lemma emit_readings (s : stream_state) (d : delta) :
  yielded (emit completionId originalModel s d) =
    (yielded s ++ [createStreamChunk completionId originalModel d None None])%list /\
  pendingToolCalls (emit completionId originalModel s d) = pendingToolCalls s.
Proof. split; reflexivity. Qed.

Lemma stream_part_readings (s : stream_state) (p : google_part) :
  no_text_with_call p = true ->
  let s' := stream_part completionId originalModel sessionId now s p in
  content s' = content s ++ plain_text [p] /\
  reasoning s' = reasoning s ++ thought_text [p] /\
  calls s' = calls s /\
  pending s' = (pending s ++ map call_part_summary (call_parts [p]))%list.
Proof.
  intros Hp s'. unfold s', content, reasoning, calls, pending.
  destruct p as [th tx sg fc]. unfold no_text_with_call in Hp.
  cbn [part_thought part_text part_functionCall part_thoughtSignature] in Hp.
  unfold stream_part. cbn [part_thought part_text part_functionCall part_thoughtSignature
    plain_text thought_text call_parts filter].
  destruct th; cbn [negb andb orb].
  - destruct (String.eqb_spec (or_empty tx) "") as [E|_].
    + rewrite E, !string_app_empty_r, app_nil_r. repeat split.
    + cbn [emit yielded pendingToolCalls].
      rewrite streamed_content_app, streamed_reasoning_app, streamed_tool_calls_app.
      cbn. rewrite !string_app_empty_r, !app_nil_r. repeat split.
  - destruct (truthy_str tx) eqn:Ht.
    + destruct fc; [discriminate|]. cbn [emit yielded pendingToolCalls].
      rewrite streamed_content_app, streamed_reasoning_app, streamed_tool_calls_app.
      cbn. rewrite !string_app_empty_r, !app_nil_r. repeat split.
    + assert (Hx : or_empty tx = "").
      { destruct tx as [t|]; [|reflexivity]. cbn in Ht.
        destruct (String.eqb_spec t ""); [assumption | discriminate]. }
      destruct fc as [f|]; cbn.
      * destruct (restore_name _ _ _ _ _) as [n tm]. cbn.
        rewrite !string_app_empty_r, map_app. repeat split.
      * rewrite Hx, !string_app_empty_r, app_nil_r. repeat split.
Qed.

Lemma stream_parts_readings (ps : list google_part) (s : stream_state) :
  forallb no_text_with_call ps = true ->
  let s' := fold_left (stream_part completionId originalModel sessionId now) ps s in
  content s' = content s ++ plain_text ps /\
  reasoning s' = reasoning s ++ thought_text ps /\
  calls s' = calls s /\
  pending s' = (pending s ++ map call_part_summary (call_parts ps))%list.
Proof.
  revert s. induction ps as [|p ps IH]; intros s Hps; cbn [fold_left].
  - cbn. now rewrite !string_app_empty_r, app_nil_r.
  - cbn [forallb] in Hps. apply andb_prop in Hps as [Hp Hps].
    destruct (stream_part_readings s p Hp) as [H1 [H2 [H3 H4]]].
    destruct (IH (stream_part completionId originalModel sessionId now s p) Hps) as [I1 [I2 [I3 I4]]].
    change (p :: ps) with ([p] ++ ps)%list.
    rewrite plain_text_app, thought_text_app, call_parts_app, !map_app.
    rewrite I1, I2, I3, I4, H1, H2, H3, H4, !string_app_assoc, app_assoc. repeat split.
Qed.

Lemma stream_response_readings (r : google_response) (s : stream_state) :
  forallb no_text_with_call (response_parts r) = true ->
  let s' := stream_response completionId originalModel sessionId now s r in
  content s' = content s ++ plain_text (response_parts r) /\
  reasoning s' = reasoning s ++ thought_text (response_parts r) /\
  calls s' = calls s /\
  pending s' = (pending s ++ map call_part_summary (call_parts (response_parts r)))%list.
Proof.
  intros Hr s'.
  set (s1 := match usageMetadata r with
             | Some u =>
                 mk_stream (yielded s) (hasEmittedStart s) (finishReason s)
                   (count_or (promptTokenCount u) (inputTokens s))
                   (count_or (candidatesTokenCount u) (outputTokens s))
                   (count_or (cachedContentTokenCount u) (cacheReadTokens s))
                   (pendingToolCalls s) (stream_store s)
             | None => s
             end).
  assert (E1 : yielded s1 = yielded s /\ pendingToolCalls s1 = pendingToolCalls s)
    by (unfold s1; destruct (usageMetadata r); split; reflexivity).
  set (s2 := if negb (hasEmittedStart s1) &&
                negb (Nat.eqb (List.length (candidate_parts (first_candidate r))) 0) then
               let s' := emit completionId originalModel s1 DeltaStart in
               mk_stream (yielded s') true (finishReason s') (inputTokens s') (outputTokens s')
                 (cacheReadTokens s') (pendingToolCalls s') (stream_store s')
             else s1).
  assert (E2 : content s2 = content s /\ reasoning s2 = reasoning s /\ calls s2 = calls s /\
               pending s2 = pending s).
  { unfold s2, content, reasoning, calls, pending.
    destruct E1 as [Y P].
    destruct (negb _ && negb _); cbn [yielded pendingToolCalls emit];
      rewrite ?streamed_content_app, ?streamed_reasoning_app, ?streamed_tool_calls_app, Y, P;
      cbn; rewrite ?string_app_empty_r, ?app_nil_r; repeat split. }
  destruct (stream_parts_readings (candidate_parts (first_candidate r)) s2 Hr)
    as [H1 [H2 [H3 H4]]].
  destruct E2 as [F1 [F2 [F3 F4]]].
  unfold s', stream_response. fold s1. fold s2.
  destruct (truthy_str (cand_finishReason (first_candidate r)));
    unfold content, reasoning, calls, pending in *; cbn [yielded pendingToolCalls];
    rewrite H1, H2, H3, H4, F1, F2, F3, F4; repeat split.
Qed.

Lemma stream_lines_fold (lines : list string) (s : stream_state) :
  fold_left (stream_line JSON_parse completionId originalModel sessionId now) lines s =
  fold_left (stream_response completionId originalModel sessionId now)
            (sse_responses JSON_parse lines) s.
Proof.
  revert s. induction lines as [|l ls IH]; intros s; [reflexivity|].
  simpl. unfold stream_line at 2. destruct (line_response JSON_parse l); simpl; apply IH.
Qed.

Lemma stream_responses_readings (rs : list google_response) (s : stream_state) :
  forallb no_text_with_call (concat (map response_parts rs)) = true ->
  let s' := fold_left (stream_response completionId originalModel sessionId now) rs s in
  content s' = content s ++ plain_text (concat (map response_parts rs)) /\
  reasoning s' = reasoning s ++ thought_text (concat (map response_parts rs)) /\
  calls s' = calls s /\
  pending s' = (pending s ++ map call_part_summary (call_parts (concat (map response_parts rs))))%list.
Proof.
  revert s. induction rs as [|r rs IH]; intros s Hrs; cbn [fold_left].
  - cbn. now rewrite !string_app_empty_r, app_nil_r.
  - cbn [map concat] in Hrs |- *. rewrite forallb_app in Hrs.
    apply andb_prop in Hrs as [Hr Hrs].
    destruct (stream_response_readings r s Hr) as [H1 [H2 [H3 H4]]].
    destruct (IH (stream_response completionId originalModel sessionId now s r) Hrs)
      as [I1 [I2 [I3 I4]]].
    rewrite plain_text_app, thought_text_app, call_parts_app, !map_app.
    rewrite I1, I2, I3, I4, H1, H2, H3, H4, !string_app_assoc, app_assoc. repeat split.
Qed.

Lemma streamGoogleToOpenAI_readings (chunks : list string) (st : proxy_state) :
  let ps := concat (map response_parts
              (sse_responses JSON_parse (removelast (split_nl (body_text chunks))))) in
  forallb no_text_with_call ps = true ->
  let out := fst (streamGoogleToOpenAI JSON_parse completionId originalModel sessionId now chunks st) in
  streamed_content out = plain_text ps /\
  streamed_reasoning out = thought_text ps /\
  map tool_call_summary (streamed_tool_calls out) = map call_part_summary (call_parts ps).
Proof.
  intros ps Hps out.
  set (s0 := mk_stream [] false "stop" 0 0 0 [] st).
  assert (Hs : read_lines (stream_line JSON_parse completionId originalModel sessionId now)
                 chunks "" s0 =
               fold_left (stream_response completionId originalModel sessionId now)
                 (sse_responses JSON_parse (removelast (split_nl (body_text chunks)))) s0).
  { rewrite read_lines_fold, stream_lines_fold, sse_lines_complete by reflexivity. reflexivity. }
  destruct (stream_responses_readings
              (sse_responses JSON_parse (removelast (split_nl (body_text chunks)))) s0 Hps)
    as [H1 [H2 [H3 H4]]].
  fold ps in H1, H2, H3, H4. rewrite <- Hs in H1, H2, H3, H4.
  unfold out, streamGoogleToOpenAI. fold s0.
  destruct (read_lines _ chunks "" s0) as [y h f i o c pd sto].
  unfold content, reasoning, calls, pending in H1, H2, H3, H4.
  cbn [yielded pendingToolCalls] in H1, H2, H3, H4.
  change (streamed_content []) with EmptyString in H1.
  change (streamed_reasoning []) with EmptyString in H2.
  change (streamed_tool_calls []) with (@nil openai_tool_call) in H3.
  cbn [append map app] in H1, H2, H4.
  destruct pd as [|tc pd]; cbn [fst yielded emit pendingToolCalls];
    rewrite !streamed_content_app, !streamed_reasoning_app, !streamed_tool_calls_app;
    rewrite ?streamed_content_app, ?streamed_reasoning_app, ?streamed_tool_calls_app, H1, H2, H3;
    cbn [streamed_content streamed_reasoning delta_content delta_reasoning createStreamChunk
         chunk_delta];
    unfold streamed_tool_calls at 2; try unfold streamed_tool_calls at 3;
    cbn [flat_map delta_tool_calls createStreamChunk chunk_delta app];
    rewrite ?string_app_empty_r, ?app_nil_r; repeat split; exact H4.
Qed.

End StreamProofs.

(** On the streaming path of the OpenAI route, when no part of the stream
    that is not a thought carries both a non-empty text and a function call,
    the yielded chunks carry, in their content deltas, the text of all the
    plain parts the stream carries, in their reasoning deltas the text of
    all its thought parts, and in their tool-call deltas its function-call
    parts that are not thoughts, in order, with their ids and arguments:
    the same message [non_streaming_message] gives on the other path. *)
Theorem streamGoogleToOpenAI_message (JSON_parse : string -> option sse_payload)
    (completionId originalModel sessionId : string) (now : Z) (chunks : list string)
    (st : proxy_state) :
  let ps := concat (map response_parts
              (sse_responses JSON_parse (removelast (split_nl (body_text chunks))))) in
  forallb no_text_with_call ps = true ->
  let out := fst (streamGoogleToOpenAI JSON_parse completionId originalModel sessionId now chunks st) in
  streamed_content out = plain_text ps /\
  streamed_reasoning out = thought_text ps /\
  map tool_call_summary (streamed_tool_calls out) = map call_part_summary (call_parts ps).
Proof. exact (streamGoogleToOpenAI_readings JSON_parse completionId originalModel sessionId now chunks st). Qed.

Lemma streamGoogleToOpenAI_message_witness :
  let ps := concat (map response_parts
              (sse_responses sample_parse (removelast (split_nl (body_text sample_body))))) in
  forallb no_text_with_call ps = true /\
  (let out := fst (streamGoogleToOpenAI sample_parse "chatcmpl-1" "gemini-3-pro" "sid" 0
                     sample_body (mk_state [] [])) in
   streamed_content out = plain_text ps /\
   streamed_reasoning out = thought_text ps /\
   map tool_call_summary (streamed_tool_calls out) = map call_part_summary (call_parts ps)).
Proof.
  intros ps. split.
  - vm_compute. reflexivity.
  - apply streamGoogleToOpenAI_message. vm_compute. reflexivity.
Defined.
